(** * Audit sampler: the sampling engine of [src/utils/samplingLogic.ts]

    A shallow embedding of the sampling engine and the properties its
    specification states about it.

    Conventions of the embedding.
    - A JavaScript [number] is an exact rational ([Q]).  The engine only
      compares, adds, negates and takes absolute values of amounts; on finite
      values these agree with the rationals up to the rounding of sums and
      quotients.  [parseFloat] rounds what it reads to the nearest double, so
      a parsed amount is the very double the source holds.  [Infinity] is
      rendered by [Num.infinity], the power of two next above the finite
      doubles, which compares with every double as [Infinity] does.  [NaN]
      appears only as the failure value of [parseFloat] and is rendered by
      [None].  Numeric equality ([===] on numbers) is [Qeq].
    - A JavaScript string is a [string] of 8-bit characters; case mapping and
      white space are those of ASCII.
    - A plain object used as a record is the list of its own enumerable
      properties in [Object.keys] order.
    - [Date.now] and [Math.random] are read from an explicit [World];
      [console.warn] appends to a log that is returned with the result.
    - Library functions (lodash [groupBy], [sumBy], [orderBy]; the built-ins
      of [String] and [Array]) are embedded from their documented behaviour. *)

From Stdlib Require Import List String Ascii Bool Arith ZArith QArith Qabs Lia.
From Stdlib Require Import Permutation Sorted DecimalString.
Import ListNotations.

Local Open Scope string_scope.
Local Open Scope list_scope.

(** ** Strings *)

Module Str.

Definition isUpper (c : ascii) : bool :=
  let n := nat_of_ascii c in (65 <=? n)%nat && (n <=? 90)%nat.

Definition isLower (c : ascii) : bool :=
  let n := nat_of_ascii c in (97 <=? n)%nat && (n <=? 122)%nat.

Definition isDigit (c : ascii) : bool :=
  let n := nat_of_ascii c in (48 <=? n)%nat && (n <=? 57)%nat.

(** White space removed by [String.prototype.trim]: TAB, LF, VT, FF, CR and
    the space. *)
Definition isWhite (c : ascii) : bool :=
  let n := nat_of_ascii c in
  ((9 <=? n)%nat && (n <=? 13)%nat) || (n =? 32)%nat.

Definition lowerChar (c : ascii) : ascii :=
  if isUpper c then ascii_of_nat (nat_of_ascii c + 32) else c.

Definition upperChar (c : ascii) : ascii :=
  if isLower c then ascii_of_nat (nat_of_ascii c - 32) else c.

Fixpoint mapChars (f : ascii -> ascii) (s : string) : string :=
  match s with
  | EmptyString => EmptyString
  | String c r => String (f c) (mapChars f r)
  end.

Definition toLowerCase : string -> string := mapChars lowerChar.
Definition toUpperCase : string -> string := mapChars upperChar.

Fixpoint trimStart (s : string) : string :=
  match s with
  | EmptyString => EmptyString
  | String c r => if isWhite c then trimStart r else s
  end.

Fixpoint trimEnd (s : string) : string :=
  match s with
  | EmptyString => EmptyString
  | String c r =>
      match trimEnd r with
      | EmptyString => if isWhite c then EmptyString else String c EmptyString
      | r' => String c r'
      end
  end.

Definition trim (s : string) : string := trimEnd (trimStart s).

Definition isEmpty (s : string) : bool :=
  match s with EmptyString => true | _ => false end.

Definition startsWith (s p : string) : bool := String.prefix p s.

(** [s.includes(p)] *)
Fixpoint includes (s p : string) : bool :=
  if String.prefix p s then true
  else match s with
       | EmptyString => false
       | String _ r => includes r p
       end.

(** [cells.join(sep)] *)
Fixpoint join (sep : string) (l : list string) : string :=
  match l with
  | [] => EmptyString
  | [x] => x
  | x :: r => x ++ sep ++ join sep r
  end.

(** [s.replace(/[$,]/g, "")] *)
Fixpoint stripCurrency (s : string) : string :=
  match s with
  | EmptyString => EmptyString
  | String c r =>
      if (Ascii.eqb c "$" || Ascii.eqb c ",")%bool then stripCurrency r
      else String c (stripCurrency r)
  end.

(** Splits [s] at its first [")"]: the text before it and the text after
    it; [None] when [s] has no [")"]. *)
Fixpoint splitAtClose (s : string) : option (string * string) :=
  match s with
  | EmptyString => None
  | String c r =>
      if Ascii.eqb c ")" then Some (EmptyString, r)
      else match splitAtClose r with
           | Some (inner, post) => Some (String c inner, post)
           | None => None
           end
  end.

(** [s.replace(/\(([^)]+)\)/, "-$1")]: the leftmost ["("] that is followed
    by at least one character other than [")"] and then by [")"] is
    rewritten, once. *)
Fixpoint negateParens (s : string) : string :=
  match s with
  | EmptyString => EmptyString
  | String c r =>
      if Ascii.eqb c "(" then
        match splitAtClose r with
        | Some (String i inner, post) => "-" ++ String i inner ++ post
        | _ => String c (negateParens r)
        end
      else String c (negateParens r)
  end.

Fixpoint spanDigits (s : string) : string * string :=
  match s with
  | String c r =>
      if isDigit c then let (d, rest) := spanDigits r in (String c d, rest)
      else (EmptyString, s)
  | EmptyString => (EmptyString, EmptyString)
  end.

Definition digitValue (c : ascii) : Z := Z.of_nat (nat_of_ascii c - 48).

Fixpoint digitsValueFrom (acc : Z) (s : string) : Z :=
  match s with
  | EmptyString => acc
  | String c r => digitsValueFrom (acc * 10 + digitValue c) r
  end.

Definition digitsValue : string -> Z := digitsValueFrom 0.

End Str.

(** ** Numbers *)

Module Num.

Definition isZero (q : Q) : bool := Qeq_bool q 0.

(** [a > b] *)
Definition gt (a b : Q) : bool := negb (Qle_bool a b).

(** [a >= b] *)
Definition ge (a b : Q) : bool := Qle_bool b a.

Definition pow10 (e : Z) : Q :=
  if (0 <=? e)%Z then inject_Z (10 ^ e) else 1 # Z.to_pos (10 ^ (- e)).

(** The exponent part of a decimal literal: [e] or [E], an optional sign and
    at least one digit; [0] when there is none. *)
Definition exponentPart (s : string) : Z :=
  match s with
  | String c r =>
      if (Ascii.eqb c "e" || Ascii.eqb c "E")%bool then
        let '(neg, r1) :=
          match r with
          | String "-" r' => (true, r')
          | String "+" r' => (false, r')
          | _ => (false, r)
          end in
        let (ds, _) := Str.spanDigits r1 in
        if Str.isEmpty ds then 0%Z
        else if neg then (- Str.digitsValue ds)%Z else Str.digitsValue ds
      else 0%Z
  | EmptyString => 0%Z
  end.

(** [Infinity]: every finite double lies strictly below [2 ^ 1024]. *)
Definition infinity : Q := inject_Z (2 ^ 1024).

(** [n / d] rounded to the nearest integer, ties to the even one
    ([0 <= n], [0 < d]). *)
Definition roundHalfEven (n d : Z) : Z :=
  let (a, r) := Z.div_eucl n d in
  if (2 * r <? d)%Z then a
  else if (d <? 2 * r)%Z then (a + 1)%Z
  else if Z.even a then a else (a + 1)%Z.

(** [n / d < 2 ^ e] for [0 < d] *)
Definition belowPow2 (n d e : Z) : bool :=
  if (0 <=? e)%Z then (n <? d * 2 ^ e)%Z else (n * 2 ^ (- e) <? d)%Z.

(** The Number value of a non-negative real: the nearest binary64 value,
    ties to the even significand; a significand has 53 bits, the least
    exponent of its last bit is [-1074], and what rounds to [2 ^ 1024] or
    more is [Infinity]. *)
Definition roundDouble (x : Q) : Q :=
  let n := Qnum x in
  let d := Zpos (Qden x) in
  if (n <=? 0)%Z then 0
  else
    let e0 := (Z.log2 n - Z.log2 d)%Z in
    let e := if belowPow2 n d e0 then (e0 - 1)%Z else e0 in
    let ulp := Z.max (e - 52) (-1074) in
    let r :=
      if (0 <=? ulp)%Z
      then inject_Z (roundHalfEven n (d * 2 ^ ulp) * 2 ^ ulp)
      else Qred (roundHalfEven (n * 2 ^ (- ulp)) d # Z.to_pos (2 ^ (- ulp))) in
    if Qle_bool infinity r then infinity else r.

(** An unsigned decimal literal at the head of [s]: the word [Infinity], or
    digits, an optional fraction and an optional exponent, with at least one
    digit in the integer part or in the fraction. *)
Definition unsignedDecimal (s : string) : option Q :=
  if Str.startsWith s "Infinity" then Some infinity
  else
    let (ip, s1) := Str.spanDigits s in
    let '(fp, s2) :=
      match s1 with
      | String "." r => Str.spanDigits r
      | _ => (EmptyString, s1)
      end in
    if (Str.isEmpty ip && Str.isEmpty fp)%bool then None
    else
      let mant := Str.digitsValue (ip ++ fp) in
      let e := (exponentPart s2 - Z.of_nat (String.length fp))%Z in
      Some (roundDouble (inject_Z mant * pow10 e)).

(** [parseFloat(s)]: leading white space is skipped and the longest prefix
    that is a signed decimal literal is read and rounded to a double; [None]
    stands for [NaN]. *)
Definition parseFloat (s : string) : option Q :=
  match Str.trimStart s with
  | String "-" r => option_map Qopp (unsignedDecimal r)
  | String "+" r => unsignedDecimal r
  | s' => unsignedDecimal s'
  end.

(** [parseFloat(s) || 0] *)
Definition parseFloatOrZero (s : string) : Q :=
  match parseFloat s with
  | Some q => if isZero q then 0 else q
  | None => 0
  end.

End Num.

(** ** Raw cell values

    What a decoded spreadsheet or CSV cell holds ([unknown] in the source). *)

Inductive cell : Type :=
| CUndefined
| CNull
| CBool (b : bool)
| CNum (q : Q)
| CStr (s : string).

Module Js.

(** Truthiness, as used by [c || d], [c && d] and [if (c)]. *)
Definition truthy (c : cell) : bool :=
  match c with
  | CUndefined | CNull => false
  | CBool b => b
  | CNum q => negb (Num.isZero q)
  | CStr s => negb (Str.isEmpty s)
  end.

(** [c || d] *)
Definition or (c d : cell) : cell := if truthy c then c else d.

(** [s || d] on strings *)
Definition strOr (s d : string) : string := if Str.isEmpty s then d else s.

(** [typeof c === "string"] *)
Definition isString (c : cell) : bool :=
  match c with CStr _ => true | _ => false end.

(** [c === null || c === undefined || c === ""] *)
Definition isBlank (c : cell) : bool :=
  match c with
  | CNull | CUndefined => true
  | CStr s => Str.isEmpty s
  | _ => false
  end.

(** [row[i]]: reading past the end of an array gives [undefined]. *)
Definition index (row : list cell) (i : nat) : cell := nth i row CUndefined.

(** [obj[key]] on a record: a missing property reads as [undefined]. *)
Fixpoint prop (obj : list (string * cell)) (key : string) : cell :=
  match obj with
  | [] => CUndefined
  | (k, v) :: r => if String.eqb k key then v else prop r key
  end.

(** [Object.keys(obj)] *)
Definition keys {V : Type} (obj : list (string * V)) : list string := map fst obj.

(** [arr.find(p)] *)
Definition find {A : Type} (p : A -> bool) (l : list A) : option A := List.find p l.

(** [arr.findIndex(p)]: [None] stands for [-1]. *)
Fixpoint findIndex {A : Type} (p : A -> bool) (l : list A) : option nat :=
  match l with
  | [] => None
  | x :: r => if p x then Some 0%nat else option_map S (findIndex p r)
  end.

Fixpoint allDigits (s : string) : bool :=
  match s with
  | EmptyString => true
  | String c r => Str.isDigit c && allDigits r
  end.

(** A property key is an array index when it is the canonical decimal form of
    an integer between [0] and [2^32 - 2]. *)
Definition arrayIndex (key : string) : option Z :=
  match key with
  | EmptyString => None
  | String c r =>
      if (allDigits key && (negb (Ascii.eqb c "0") || Str.isEmpty r))%bool then
        let v := Str.digitsValue key in
        if (v <? 2 ^ 32 - 1)%Z then Some v else None
      else None
  end.

Definition isArrayIndex (key : string) : bool :=
  match arrayIndex key with Some _ => true | None => false end.

End Js.

(** ** Stable insertion sort

    [sortBy before l] keeps [x] in front of a later [y] whenever
    [before x y]; elements that compare equal keep their input order. *)

Section Sorting.
Context {A : Type} (before : A -> A -> bool).

Fixpoint insertBy (x : A) (l : list A) : list A :=
  match l with
  | [] => [x]
  | y :: r => if before x y then x :: l else y :: insertBy x r
  end.

Definition sortBy (l : list A) : list A := fold_right insertBy [] l.

End Sorting.

(** ** Objects as dictionaries

    An object built by assigning properties one at a time is kept in property
    creation order; [Object.entries] then lists array-index keys first, in
    ascending numeric order, and the other keys in creation order. *)

Module Obj.

Section Dict.
Context {V : Type}.

(** [if (hasOwnProperty.call(o, key)) o[key].push(v) else o[key] = [v]] *)
Fixpoint push (key : string) (v : V) (o : list (string * list V))
  : list (string * list V) :=
  match o with
  | [] => [(key, [v])]
  | (k, vs) :: r =>
      if String.eqb k key then (k, vs ++ [v]) :: r
      else (k, vs) :: push key v r
  end.

Definition indexOf (e : string * list V) : Z :=
  match Js.arrayIndex (fst e) with Some n => n | None => 0%Z end.

(** [Object.entries(o)] *)
Definition entries (o : list (string * list V)) : list (string * list V) :=
  sortBy (fun a b => (indexOf a <=? indexOf b)%Z)
         (filter (fun e => Js.isArrayIndex (fst e)) o)
  ++ filter (fun e => negb (Js.isArrayIndex (fst e))) o.

End Dict.

End Obj.

(** ** lodash *)

Module Lodash.

(** [_.groupBy(collection, iteratee)]: the resulting object, in property
    creation order. *)
Definition groupBy {V : Type} (collection : list V) (iteratee : V -> string)
  : list (string * list V) :=
  fold_left (fun result value => Obj.push (iteratee value) value result)
            collection [].

(** [_.sumBy(array, iteratee)]: [0] on the empty array, otherwise the
    left-to-right sum started from the first value. *)
Definition sumBy {V : Type} (array : list V) (iteratee : V -> Q) : Q :=
  match array with
  | [] => 0
  | x :: r => fold_left (fun result y => result + iteratee y) r (iteratee x)
  end.

(** [_.sumBy] over counts. *)
Definition sumByNat {V : Type} (array : list V) (iteratee : V -> nat) : nat :=
  match array with
  | [] => 0%nat
  | x :: r => fold_left (fun result y => (result + iteratee y)%nat) r (iteratee x)
  end.

(** [_.orderBy(collection, [iteratee], ["desc"])]: a stable sort, largest
    key first. *)
Definition orderByDesc {V : Type} (collection : list V) (iteratee : V -> Q)
  : list V :=
  sortBy (fun a b => Num.ge (iteratee a) (iteratee b)) collection.

End Lodash.

(** ** Data model ([src/types.ts]) *)

Module Transaction.
Record t : Type := mk {
  id : string;
  date : string;
  accountNumber : string;
  accountName : string;
  description : string;
  amount : Q;
  reference : option string;
  vendor : option string;
  (** the additional GL fields, [[key: string]: string | number | undefined] *)
  extra : list (string * cell)
}.

(** [{ ...t, id: v }] *)
Definition withId (x : t) (v : string) : t :=
  mk v (date x) (accountNumber x) (accountName x) (description x) (amount x)
     (reference x) (vendor x) (extra x).

(** An optional string property: [undefined] when absent. *)
Definition optional (o : option string) : cell :=
  match o with
  | Some s => CStr s
  | None => CUndefined
  end.

(** The transaction object read back as a record: its properties in creation
    order, the named fields first and the additional fields after them. *)
Definition asRecord (x : t) : list (string * cell) :=
  [ ("id", CStr (id x));
    ("date", CStr (date x));
    ("accountNumber", CStr (accountNumber x));
    ("accountName", CStr (accountName x));
    ("description", CStr (description x));
    ("amount", CNum (amount x));
    ("reference", optional (reference x));
    ("vendor", optional (vendor x)) ]
  ++ extra x.
End Transaction.

Module AccountGroup.
Record t : Type := mk {
  accountName : string;
  accountNumber : string;
  transactions : list Transaction.t;
  totalBalance : Q;
  transactionCount : nat
}.
End AccountGroup.

Inductive SelectionReason : Type := OVER_SCOPE | HIGH_VALUE_KEY_ITEM.

Module SelectedSample.
(** [{ ...txn, selectionReason, accountGroup, groupTotalBalance }] *)
Record t : Type := mk {
  txn : Transaction.t;
  selectionReason : SelectionReason;
  accountGroup : string;
  groupTotalBalance : Q
}.
Definition id (s : t) : string := Transaction.id (txn s).
Definition amount (s : t) : Q := Transaction.amount (txn s).
End SelectedSample.

Module SamplingConfig.
Record t : Type := mk {
  tolerableMisstatement : Q;
  testingScope : Q;
  targetKeywords : list string;
  (** an integer: the number of samples per material account *)
  sampleSize : Z
}.
End SamplingConfig.

Module SamplingSummary.
Record t : Type := mk {
  totalMaterialAccounts : nat;
  totalValueTested : Q;
  totalMaterialBalance : Q;
  coveragePercentage : Q;
  totalTransactionsReviewed : nat;
  overScopeCount : nat;
  highValueCount : nat
}.
End SamplingSummary.

Module SamplingResults.
Record t : Type := mk {
  samples : list SelectedSample.t;
  summary : SamplingSummary.t;
  accountGroups : list AccountGroup.t;
  filteredTransactionCount : nat
}.
End SamplingResults.

(** ** The outside world

    What [generateId] reads: the successive values of [Date.now()] and of
    [Math.random().toString(36)], and how many of them were consumed. *)

Module World.
Record t : Type := mk {
  dateNow : nat -> Z;
  randomBase36 : nat -> string;
  consumed : nat
}.
Definition next (w : t) : t := mk (dateNow w) (randomBase36 w) (S (consumed w)).
End World.

Definition decimal (z : Z) : string := NilZero.string_of_int (Z.to_int z).

(** [`txn_${Date.now()}_${Math.random().toString(36).substr(2, 9)}`] *)
Definition generateId (w : World.t) : string * World.t :=
  let n := World.consumed w in
  (("txn_" ++ decimal (World.dateNow w n) ++ "_"
      ++ String.substring 2 9 (World.randomBase36 w n))%string,
   World.next w).

(** ** Keyword filter *)

Definition filterByKeywords (transactions : list Transaction.t)
    (keywords : list string) : list Transaction.t :=
  let validKeywords :=
    filter (fun k => negb (Str.isEmpty (Str.trim k))) keywords in
  if (List.length validKeywords =? 0)%nat then transactions
  else
    let upperKeywords :=
      map (fun k => Str.trim (Str.toUpperCase k)) validKeywords in
    filter
      (fun txn =>
         let accountName :=
           Str.toUpperCase (Js.strOr (Transaction.accountName txn) "") in
         existsb (fun keyword => Str.includes accountName keyword) upperKeywords)
      transactions.

(** ** Account aggregator *)

Definition groupByAccount (transactions : list Transaction.t)
  : list AccountGroup.t :=
  let grouped := Lodash.groupBy transactions Transaction.accountName in
  map
    (fun '(accountName, txns) =>
       let totalBalance :=
         Lodash.sumBy txns (fun t => Qabs (Transaction.amount t)) in
       let accountNumber :=
         Js.strOr
           (match txns with
            | t0 :: _ => Transaction.accountNumber t0
            | [] => ""
            end) "" in
       AccountGroup.mk accountName accountNumber txns totalBalance (List.length txns))
    (Obj.entries grouped).

(** ** Materiality classifier *)

Definition identifyMaterialAccounts (accountGroups : list AccountGroup.t)
    (tolerableMisstatement : Q) : list AccountGroup.t :=
  filter
    (fun group => Num.gt (AccountGroup.totalBalance group) tolerableMisstatement)
    accountGroups.

(** ** Sample selector *)

(** One of the two selection loops:
    [for (const txn of txns) { if (selected.length >= sampleSize) break;
    selected.push({...txn, selectionReason, ...}) }]. *)
Fixpoint selectLoop (accountGroup : AccountGroup.t) (sampleSize : Z)
    (reason : SelectionReason) (txns : list Transaction.t)
    (selectedSamples : list SelectedSample.t) : list SelectedSample.t :=
  match txns with
  | [] => selectedSamples
  | txn :: rest =>
      if (Z.of_nat (List.length selectedSamples) >=? sampleSize)%Z
      then selectedSamples
      else selectLoop accountGroup sampleSize reason rest
             (selectedSamples
                ++ [SelectedSample.mk txn reason
                      (AccountGroup.accountName accountGroup)
                      (AccountGroup.totalBalance accountGroup)])
  end.

(** [new Set(ids).has(x)] *)
Definition setHas (ids : list string) (x : string) : bool :=
  existsb (String.eqb x) ids.

Definition selectSamplesFromAccount (accountGroup : AccountGroup.t)
    (config : SamplingConfig.t) : list SelectedSample.t :=
  let testingScope := SamplingConfig.testingScope config in
  let sampleSize := SamplingConfig.sampleSize config in
  let sortedTransactions :=
    Lodash.orderByDesc (AccountGroup.transactions accountGroup)
      (fun t => Qabs (Transaction.amount t)) in
  let overScopeTransactions :=
    filter (fun t => Num.gt (Qabs (Transaction.amount t)) testingScope)
           sortedTransactions in
  let selectedSamples :=
    selectLoop accountGroup sampleSize OVER_SCOPE overScopeTransactions [] in
  if (Z.of_nat (List.length selectedSamples) <? sampleSize)%Z then
    let selectedIds := map SelectedSample.id selectedSamples in
    let remainingTransactions :=
      filter (fun t => negb (setHas selectedIds (Transaction.id t)))
             sortedTransactions in
    selectLoop accountGroup sampleSize HIGH_VALUE_KEY_ITEM
      remainingTransactions selectedSamples
  else selectedSamples.

(** ** Summary calculator *)

Definition isReason (r : SelectionReason) (s : SelectedSample.t) : bool :=
  match r, SelectedSample.selectionReason s with
  | OVER_SCOPE, OVER_SCOPE => true
  | HIGH_VALUE_KEY_ITEM, HIGH_VALUE_KEY_ITEM => true
  | _, _ => false
  end.

Definition calculateSummary (samples : list SelectedSample.t)
    (materialAccounts : list AccountGroup.t) : SamplingSummary.t :=
  let totalMaterialAccounts := List.length materialAccounts in
  let totalValueTested :=
    Lodash.sumBy samples (fun s => Qabs (SelectedSample.amount s)) in
  let totalMaterialBalance :=
    Lodash.sumBy materialAccounts AccountGroup.totalBalance in
  let coveragePercentage :=
    if Num.gt totalMaterialBalance 0
    then (totalValueTested / totalMaterialBalance) * inject_Z 100
    else 0 in
  let totalTransactionsReviewed :=
    Lodash.sumByNat materialAccounts AccountGroup.transactionCount in
  let overScopeCount := List.length (filter (isReason OVER_SCOPE) samples) in
  let highValueCount := List.length (filter (isReason HIGH_VALUE_KEY_ITEM) samples) in
  SamplingSummary.mk totalMaterialAccounts totalValueTested
    totalMaterialBalance coveragePercentage totalTransactionsReviewed
    overScopeCount highValueCount.

(** ** Sampling orchestrator *)

(** [rawTransactions.map((t) => ({ ...t, id: t.id || generateId() }))]:
    [generateId] runs only for a transaction whose id is empty. *)
Fixpoint backfillIds (w : World.t) (rawTransactions : list Transaction.t)
  : list Transaction.t * World.t :=
  match rawTransactions with
  | [] => ([], w)
  | t :: rest =>
      let (i, w1) :=
        if Str.isEmpty (Transaction.id t) then generateId w
        else (Transaction.id t, w) in
      let (rest', w2) := backfillIds w1 rest in
      (Transaction.withId t i :: rest', w2)
  end.

Definition performSampling (w : World.t) (rawTransactions : list Transaction.t)
    (config : SamplingConfig.t) : SamplingResults.t * World.t :=
  let (transactionsWithIds, w') := backfillIds w rawTransactions in
  let filteredTransactions :=
    filterByKeywords transactionsWithIds (SamplingConfig.targetKeywords config) in
  let accountGroups := groupByAccount filteredTransactions in
  let materialAccounts :=
    identifyMaterialAccounts accountGroups
      (SamplingConfig.tolerableMisstatement config) in
  let allSamples :=
    flat_map (fun accountGroup => selectSamplesFromAccount accountGroup config)
             materialAccounts in
  let summary := calculateSummary allSamples materialAccounts in
  (SamplingResults.mk allSamples summary materialAccounts
     (List.length filteredTransactions),
   w').

(** ** Parsing

    Two built-ins are left open: the decimal rendering of a number
    ([String(n)]) and the [en-US] rendering of a spreadsheet serial date
    ([new Date(epoch + n * 86400000).toLocaleDateString("en-US")]). *)

(** What a parser hands back: its return value, what it wrote with
    [console.warn], and the world after its calls of [generateId]. *)
Record Outcome : Type := mkOutcome {
  returned : list Transaction.t;
  warnings : list string;
  worldAfter : World.t
}.

(** [amount = parseFloat(raw.replace(/[$,]/g, "").replace(/\(([^)]+)\)/, "-$1").trim()) || 0] *)
Definition parseAmountString (rawAmount : string) : Q :=
  let cleaned := Str.trim (Str.negateParens (Str.stripCurrency rawAmount)) in
  Num.parseFloatOrZero cleaned.

(** [let amount = 0; if (typeof raw === "number") amount = raw;
    else if (typeof raw === "string") amount = ...] *)
Definition parseAmount (rawAmount : cell) : Q :=
  match rawAmount with
  | CNum q => q
  | CStr s => parseAmountString s
  | _ => 0
  end.

Definition columnPatterns_date : list string :=
  ["date"; "transaction date"; "trans date"; "posting date"; "gl date"].
Definition columnPatterns_accountNumber : list string :=
  ["account"; "account number"; "acct"; "acct no"; "account no"; "gl account"].
Definition columnPatterns_accountName : list string :=
  ["account name"; "account description"; "acct name"; "description";
   "account desc"; "gl description"].
Definition columnPatterns_amount : list string :=
  ["amount"; "debit"; "credit"; "value"; "transaction amount"; "trans amount"].
Definition columnPatterns_description : list string :=
  ["memo"; "description"; "transaction description"; "line description";
   "detail"; "narration"].
Definition columnPatterns_reference : list string :=
  ["reference"; "ref"; "doc no"; "document"; "invoice"; "check no"; "voucher"].
Definition columnPatterns_vendor : list string :=
  ["vendor"; "payee"; "supplier"; "customer"; "party"].

(** [findColumn(patterns)], over the keys of the first record. *)
Fixpoint findColumn (sampleRowKeys : list string) (patterns : list string)
  : option string :=
  let availableColumns :=
    map (fun c => Str.trim (Str.toLowerCase c)) sampleRowKeys in
  match patterns with
  | [] => None
  | pattern :: rest =>
      match Js.find (fun col => String.eqb col pattern || Str.includes col pattern)
                    availableColumns with
      | Some match_ =>
          if Str.isEmpty match_ then findColumn sampleRowKeys rest
          else Js.find
                 (fun k => String.eqb (Str.trim (Str.toLowerCase k)) match_)
                 sampleRowKeys
      | None => findColumn sampleRowKeys rest
      end
  end.

Module ColumnMapping.
Record t : Type := mk {
  date : option string;
  accountNumber : option string;
  accountName : option string;
  amount : option string;
  description : option string;
  reference : option string;
  vendor : option string
}.
End ColumnMapping.

(** [mapping.field ? yes(mapping.field) : no]: an absent or empty column name
    is falsy. *)
Definition ifMapped {R : Type} (field : option string) (yes : string -> R) (no : R) : R :=
  match field with
  | Some k => if Str.isEmpty k then no else yes k
  | None => no
  end.

Definition headerWarning : string := "Could not find header row in hierarchical GL".

Section Builtins.

Variable numberToString : Q -> string.
Variable serialDateToLocaleString : Q -> string.

(** [String(c)] *)
Definition toString (c : cell) : string :=
  match c with
  | CUndefined => "undefined"
  | CNull => "null"
  | CBool true => "true"
  | CBool false => "false"
  | CNum q => numberToString q
  | CStr s => s
  end.

(** [String(c || "")] *)
Definition toStringOrEmpty (c : cell) : string := toString (Js.or c (CStr "")).

(** *** Column mapper *)

Definition parseRow (mapping : ColumnMapping.t) (w : World.t)
    (row : list (string * cell)) (index : nat) : Transaction.t * World.t :=
  let amount := ifMapped (ColumnMapping.amount mapping)
                  (fun k => parseAmount (Js.prop row k)) 0 in
  let (i, w') := generateId w in
  (Transaction.mk i
     (toString (ifMapped (ColumnMapping.date mapping)
                  (fun k => Js.or (Js.prop row k) (CStr "")) (CStr "")))
     (toString (ifMapped (ColumnMapping.accountNumber mapping)
                  (fun k => Js.or (Js.prop row k) (CStr "")) (CStr "")))
     (toString (ifMapped (ColumnMapping.accountName mapping)
                  (fun k => Js.or (Js.prop row k) (CStr "")) (CStr "")))
     (toString (ifMapped (ColumnMapping.description mapping)
                  (fun k => Js.or (Js.prop row k) (CStr "")) (CStr "")))
     amount
     (ifMapped (ColumnMapping.reference mapping)
        (fun k => Some (toStringOrEmpty (Js.prop row k))) None)
     (ifMapped (ColumnMapping.vendor mapping)
        (fun k => Some (toStringOrEmpty (Js.prop row k))) None)
     [("_rowIndex", CNum (inject_Z (Z.of_nat index + 1)))],
   w').

(** [data.map((row, index) => ...)], threading the world through the calls
    of [generateId]. *)
Fixpoint parseRows (mapping : ColumnMapping.t) (w : World.t)
    (data : list (list (string * cell))) (index : nat)
  : list Transaction.t * World.t :=
  match data with
  | [] => ([], w)
  | row :: rest =>
      let (t, w1) := parseRow mapping w row index in
      let (ts, w2) := parseRows mapping w1 rest (S index) in
      (t :: ts, w2)
  end.

Definition columnMapping (sampleRow : list (string * cell)) : ColumnMapping.t :=
  let ks := Js.keys sampleRow in
  ColumnMapping.mk
    (findColumn ks columnPatterns_date)
    (findColumn ks columnPatterns_accountNumber)
    (findColumn ks columnPatterns_accountName)
    (findColumn ks columnPatterns_amount)
    (findColumn ks columnPatterns_description)
    (findColumn ks columnPatterns_reference)
    (findColumn ks columnPatterns_vendor).

Definition parseRawData (w : World.t) (data : list (list (string * cell)))
  : list Transaction.t * World.t :=
  match data with
  | [] => ([], w)
  | sampleRow :: _ => parseRows (columnMapping sampleRow) w data 0
  end.

(** *** Hierarchical GL *)

(** [rawData[i]]: [None] for a row that is missing or not an array. *)
Definition rowAt (rawData : list (option (list cell))) (i : nat)
  : option (list cell) :=
  match nth_error rawData i with
  | Some r => r
  | None => None
  end.

(** [row.map((c) => String(c || "").toLowerCase()).join(" ")] *)
Definition rowStr (row : list cell) : string :=
  Str.join " " (map (fun c => Str.toLowerCase (toStringOrEmpty c)) row).

(** [rowStr.includes("date") && (rowStr.includes("amount") || rowStr.includes("balance"))] *)
Definition isHeaderRow (row : list cell) : bool :=
  let s := rowStr row in
  Str.includes s "date" && (Str.includes s "amount" || Str.includes s "balance").

(** The test on [rawData[j]] and [rawData[j + 1]] inside the detection loop. *)
Definition bannerThenBlank (rawData : list (option (list cell))) (j : nat) : bool :=
  match rowAt rawData j with
  | Some dataRow =>
      let c0 := Js.index dataRow 0 in
      if (Js.truthy c0 && Js.isString c0
          && negb (Str.includes (Str.toLowerCase (toString c0)) "total"))%bool
      then match rowAt rawData (j + 1) with
           | Some nextRow => Js.isBlank (Js.index nextRow 0)
           | None => false
           end
      else false
  | None => false
  end.

Definition detectHierarchicalGLFormat (rawData : list (option (list cell))) : bool :=
  let len := List.length rawData in
  if (len <? 10)%nat then false
  else
    existsb
      (fun i =>
         match rowAt rawData i with
         | Some row =>
             isHeaderRow row
             && existsb (bannerThenBlank rawData)
                        (seq (i + 1) (Nat.min (i + 10) len - (i + 1)))
         | None => false
         end)
      (seq 0 (Nat.min 10 len)).

(** The header scan: the first of the rows [0 .. min(10, length) - 1] that is
    a header row, with its trimmed, lower-cased cell texts. *)
Fixpoint findHeaderFrom (i : nat) (rows : list (option (list cell)))
  : option (nat * list string) :=
  match rows with
  | [] => None
  | Some row :: rest =>
      if isHeaderRow row
      then Some (i, map (fun c => Str.trim (Str.toLowerCase (toStringOrEmpty c))) row)
      else findHeaderFrom (S i) rest
  | None :: rest => findHeaderFrom (S i) rest
  end.

Definition findHeader (rawData : list (option (list cell)))
  : option (nat * list string) :=
  findHeaderFrom 0 (firstn 10 rawData).

(** The resolved column indices ([typeColIdx] is computed by the source but
    never read). *)
Record Columns : Type := mkColumns {
  dateColIdx : option nat;
  amountColIdx : option nat;
  memoColIdx : option nat;
  numColIdx : option nat;
  nameColIdx : option nat
}.

Definition resolveColumns (headers : list string) : Columns :=
  let named name := fun h => (negb (Str.isEmpty h) && String.eqb h name)%bool in
  mkColumns
    (Js.findIndex (named "date") headers)
    (Js.findIndex (named "amount") headers)
    (Js.findIndex
       (fun h => negb (Str.isEmpty h)
                 && (Str.includes h "memo" || Str.includes h "description"))
       headers)
    (Js.findIndex (named "num") headers)
    (Js.findIndex (named "name") headers).

(** [idx >= 0 ? row[idx] : otherwise] *)
Definition cellAt (row : list cell) (idx : option nat) (otherwise : cell) : cell :=
  match idx with
  | Some k => Js.index row k
  | None => otherwise
  end.

Record LoopState : Type := mkLoop {
  currentAccountName : string;
  transactions : list Transaction.t;
  world : World.t
}.

(** The body of the data loop for the row at index [i]. *)
Definition processRow (cols : Columns) (i : nat) (r : option (list cell))
    (st : LoopState) : LoopState :=
  match r with
  | None => st
  | Some row =>
      let firstCol := Js.index row 0 in
      let banner :=
        match firstCol with
        | CStr s =>
            if (Js.truthy firstCol && negb (Str.isEmpty (Str.trim s)))%bool
            then Some (Str.trim s) else None
        | _ => None
        end in
      match banner with
      | Some firstColStr =>
          if negb (Str.startsWith (Str.toLowerCase firstColStr) "total")
          then mkLoop firstColStr (transactions st) (world st)
          else st
      | None =>
          let rawAmount := cellAt row (amountColIdx cols) CNull in
          if Js.isBlank rawAmount then st
          else
            let dateVal := cellAt row (dateColIdx cols) (CStr "") in
            if Str.includes (Str.toLowerCase (toString dateVal)) "beginning balance"
            then st
            else
              let amount := parseAmount rawAmount in
              if Num.isZero amount then st
              else
                let rawDate := cellAt row (dateColIdx cols) (CStr "") in
                let dateStr :=
                  match rawDate with
                  | CNum q => serialDateToLocaleString q
                  | _ => toStringOrEmpty rawDate
                  end in
                let (newId, w') := generateId (world st) in
                mkLoop (currentAccountName st)
                  (transactions st
                     ++ [Transaction.mk newId dateStr ""
                           (currentAccountName st)
                           (match memoColIdx cols with
                            | Some k => toStringOrEmpty (Js.index row k)
                            | None => ""
                            end)
                           amount
                           (option_map (fun k => toStringOrEmpty (Js.index row k))
                                       (numColIdx cols))
                           (option_map (fun k => toStringOrEmpty (Js.index row k))
                                       (nameColIdx cols))
                           [("_rowIndex", CNum (inject_Z (Z.of_nat i + 1)))]])
                  w'
      end
  end.

(** [for (let i = start; i < rawData.length; i++) ...] over the rows from
    index [i] on. *)
Fixpoint dataLoop (cols : Columns) (i : nat) (rows : list (option (list cell)))
    (st : LoopState) : LoopState :=
  match rows with
  | [] => st
  | r :: rest => dataLoop cols (S i) rest (processRow cols i r st)
  end.

Definition parseHierarchicalGL (w : World.t) (rawData : list (option (list cell)))
  : Outcome :=
  match findHeader rawData with
  | None => mkOutcome [] [headerWarning] w
  | Some (headerRowIndex, headers) =>
      let cols := resolveColumns headers in
      let st :=
        dataLoop cols (headerRowIndex + 1)
          (skipn (headerRowIndex + 1) rawData) (mkLoop "" [] w) in
      mkOutcome (transactions st) [] (world st)
  end.

End Builtins.


(** ** Callers

    The pure cores of the event handlers that feed the engine and consume
    its results. *)

(** *** File upload: the workbook branch of [processFile]

    [rawData] is the sheet read with [header: 1]; [jsonData], the sheet read
    as records, is only looked at on the flat path. *)
Definition loadSheet (numberToString serialDateToLocaleString : Q -> string)
    (w : World.t) (rawData : list (option (list cell)))
    (jsonData : list (list (string * cell))) : Outcome :=
  let isHierarchicalGL := detectHierarchicalGLFormat numberToString rawData in
  if isHierarchicalGL
  then parseHierarchicalGL numberToString serialDateToLocaleString w rawData
  else
    let (transactions, w') := parseRawData numberToString w jsonData in
    mkOutcome transactions [] w'.

(** *** Configuration panel: the keyword handlers

    [handleAddKeyword] hands a new configuration to [onConfigChange] or does
    nothing ([None]). *)
Definition withKeywords (config : SamplingConfig.t) (keywords : list string)
  : SamplingConfig.t :=
  SamplingConfig.mk (SamplingConfig.tolerableMisstatement config)
    (SamplingConfig.testingScope config) keywords
    (SamplingConfig.sampleSize config).

(** [arr.includes(x)] on strings *)
Definition arrayIncludes (arr : list string) (x : string) : bool :=
  existsb (String.eqb x) arr.

Definition handleAddKeyword (config : SamplingConfig.t) (newKeyword : string)
  : option SamplingConfig.t :=
  if (negb (Str.isEmpty (Str.trim newKeyword))
      && negb (arrayIncludes (SamplingConfig.targetKeywords config)
                 (Str.toUpperCase (Str.trim newKeyword))))%bool
  then Some (withKeywords config
               (SamplingConfig.targetKeywords config
                  ++ [Str.toUpperCase (Str.trim newKeyword)]))
  else None.

Definition handleRemoveKeyword (config : SamplingConfig.t) (keyword : string)
  : SamplingConfig.t :=
  withKeywords config
    (filter (fun k => negb (String.eqb k keyword))
            (SamplingConfig.targetKeywords config)).

(** *** Results grid: search and paging *)

(** The filter step of [filteredAndSortedSamples]. *)
Definition searchSamples (searchQuery : string) (samples : list SelectedSample.t)
  : list SelectedSample.t :=
  if Str.isEmpty searchQuery then samples
  else
    let query := Str.toLowerCase searchQuery in
    filter
      (fun sample =>
         Str.includes (Str.toLowerCase (SelectedSample.accountGroup sample)) query
         || Str.includes
              (Str.toLowerCase
                 (Transaction.description (SelectedSample.txn sample))) query
         || Str.includes
              (Str.toLowerCase
                 (Transaction.accountNumber (SelectedSample.txn sample))) query
         || match Transaction.vendor (SelectedSample.txn sample) with
            | Some vendor =>
                negb (Str.isEmpty vendor)
                && Str.includes (Str.toLowerCase vendor) query
            | None => false
            end)
      samples.

(** [rows.slice(page * rowsPerPage, page * rowsPerPage + rowsPerPage)] *)
Definition paginatedSamples {A : Type} (rows : list A) (page rowsPerPage : nat)
  : list A :=
  let start := (page * rowsPerPage)%nat in
  firstn rowsPerPage (skipn start rows).

(** *** Application: the body of [handleRunSampling] *)

Inductive Severity : Type := success | error.

Record Snackbar : Type := mkSnackbar {
  message : string;
  severity : Severity
}.

(** What a click on "run" leaves behind: the results, when sampling ran, and
    the notification shown. *)
Definition handleRunSampling (w : World.t) (rawData : list Transaction.t)
    (config : SamplingConfig.t)
  : option SamplingResults.t * Snackbar * World.t :=
  if (List.length rawData =? 0)%nat
  then (None, mkSnackbar "Please upload a file first" error, w)
  else
    let (samplingResults, w') := performSampling w rawData config in
    let n := List.length (SamplingResults.samples samplingResults) in
    if (n =? 0)%nat
    then (Some samplingResults,
          mkSnackbar "No material accounts found matching the criteria" error,
          w')
    else (Some samplingResults,
          mkSnackbar
            ("Selected " ++ decimal (Z.of_nat n) ++ " samples from "
               ++ decimal
                    (Z.of_nat
                       (SamplingSummary.totalMaterialAccounts
                          (SamplingResults.summary samplingResults)))
               ++ " material accounts")%string
            success,
          w').
(** * Vocabulary of the specification and sample inputs

    The notions the specification states its properties with, and concrete
    values on which the properties below are exercised. *)

Definition demoGroup (name : string) (balance : Q) : AccountGroup.t :=
  AccountGroup.mk name "" [] balance 0.

(** A stand-in for [String(n)] on which the examples run: an integer in
    decimal, any other rational as a fraction. *)
Definition plainNumber (q : Q) : string :=
  if Pos.eqb (Qden q) 1 then decimal (Qnum q)
  else decimal (Qnum q) ++ "/" ++ decimal (Zpos (Qden q)).

(** The property that [_.groupBy] holds for [key] once all of [collection]
    is grouped. *)
Definition bucket {V : Type} (iteratee : V -> string) (collection : list V)
    (key : string) : string * list V :=
  (key, filter (fun v => String.eqb (iteratee v) key) collection).

(** A ledger of eight rows: a title, a header row, an account banner
    followed by rows whose first cell is blank. *)
Definition shortLedger : list (option (list cell)) :=
  [ Some [CStr "General Ledger"];
    Some [CStr ""; CStr "Date"; CStr "Num"; CStr "Name"; CStr "Memo"; CStr "Amount"];
    Some [CStr "Utilities"];
    Some [CNull; CStr "01/02/2024"; CStr "101"; CStr "City Water"; CStr "water"; CNum (inject_Z 300)];
    Some [CNull; CStr "01/03/2024"; CStr "102"; CStr "City Power"; CStr "refund"; CStr "(50)"];
    Some [CStr "Total for Utilities"; CNull; CNull; CNull; CNull; CNum (inject_Z 250)];
    Some [CStr "Rent"];
    Some [CNull; CStr "01/05/2024"; CStr "103"; CStr "Landlord"; CStr "january"; CStr "$1,234.50"] ].

Definition noHeaderGrid : list (option (list cell)) :=
  [ Some [CStr "Trial balance"; CNull];
    None;
    Some [CStr "Cash"; CNum (inject_Z 100)];
    Some [CNull; CStr "Balance"; CNum (inject_Z 7)] ].

(** The keyword rule in the words of the specification: a transaction is
    retained when its upper-cased account name contains some configured
    keyword that is not blank, upper-cased and trimmed. *)
Definition retainedByKeywords (keywords : list string) (t : Transaction.t) : Prop :=
  exists k, In k keywords
            /\ Str.trim k <> ""
            /\ Str.includes (Str.toUpperCase (Transaction.accountName t))
                            (Str.trim (Str.toUpperCase k)) = true.

Definition demoTxn (i name : string) (a : Q) : Transaction.t :=
  Transaction.mk i "" "" name "" a None None [].

Definition parkLedger : list Transaction.t :=
  [ demoTxn "t1" "CITY PARK MAINT" (inject_Z 20000);
    demoTxn "t2" "ADMIN" (inject_Z 100000);
    demoTxn "t3" "City Park Maint" (inject_Z 12000);
    demoTxn "t4" "CITY PARK MAINT" (- inject_Z 12000);
    demoTxn "t5" "CITY PARK MAINT" (inject_Z 5000) ].

Definition parkConfig : SamplingConfig.t :=
  SamplingConfig.mk (inject_Z 15000) (inject_Z 11000) ["PARK"] 2.

Definition morningWorld : World.t :=
  World.mk (fun _ => 1700000000000%Z) (fun _ => "0.4fzyo82mvyr") 0.

Definition eveningWorld : World.t :=
  World.mk (fun _ => 1700043200000%Z) (fun _ => "0.k2j8x1q9zzb") 5.

(** The sample pushed for [txn] by either selection loop. *)
Definition sampleOf (accountGroup : AccountGroup.t) (reason : SelectionReason)
    (txn : Transaction.t) : SelectedSample.t :=
  SelectedSample.mk txn reason (AccountGroup.accountName accountGroup)
    (AccountGroup.totalBalance accountGroup).

Definition parkGroup : AccountGroup.t :=
  AccountGroup.mk "CITY PARK MAINT" ""
    [ demoTxn "t1" "CITY PARK MAINT" (inject_Z 5000);
      demoTxn "t4" "CITY PARK MAINT" (- inject_Z 12000);
      demoTxn "t5" "CITY PARK MAINT" (inject_Z 20000);
      demoTxn "t6" "CITY PARK MAINT" (inject_Z 700) ]
    (inject_Z 37700) 4.

Definition parkConfig3 : SamplingConfig.t :=
  SamplingConfig.mk (inject_Z 15000) (inject_Z 11000) [] 3.

(** The distinct names of a list in first-seen order: the head, then the
    distinct names of the tail other than the head. *)
Fixpoint firstSeen (names : list string) : list string :=
  match names with
  | [] => []
  | x :: r => x :: filter (fun y => negb (String.eqb y x)) (firstSeen r)
  end.


(** The numeric value of an array-index key. *)
Definition indexValue (key : string) : Z :=
  match Js.arrayIndex key with Some n => n | None => 0%Z end.

(** A ledger whose second account is named by its number. *)
Definition numberedLedger : list Transaction.t :=
  [ demoTxn "n1" "Rent" (inject_Z 900);
    demoTxn "n2" "5000" (inject_Z 40);
    demoTxn "n3" "Rent" (inject_Z 900);
    demoTxn "n4" "410" (- inject_Z 25) ].

(** The column mapping resolved on a normalized record: the account name is
    read from the [description] property. *)
Definition normalizedMapping : ColumnMapping.t :=
  ColumnMapping.mk (Some "date") (Some "accountNumber") (Some "description")
    (Some "amount") (Some "description") (Some "reference") (Some "vendor").

Definition orEmpty (o : option string) : string :=
  match o with Some s => s | None => "" end.

(** How a record [t2] obtained by mapping the normalized record [t1] again
    relates to [t1], ids apart. *)
Definition remappedFrom (t1 t2 : Transaction.t) : Prop :=
  Transaction.date t2 = Transaction.date t1
  /\ Transaction.accountNumber t2 = Transaction.accountNumber t1
  /\ Transaction.accountName t2 = Transaction.description t1
  /\ Transaction.description t2 = Transaction.description t1
  /\ Transaction.amount t2 = Transaction.amount t1
  /\ Transaction.reference t2 = Some (orEmpty (Transaction.reference t1))
  /\ Transaction.vendor t2 = Some (orEmpty (Transaction.vendor t1))
  /\ Transaction.extra t2 = Transaction.extra t1.

(** A flat export with an account-name column and a memo column. *)
Definition flatExport : list (list (string * cell)) :=
  [ [("Account Name", CStr "Rent"); ("Memo", CStr "January"); ("Amount", CStr "(1,000.5)")];
    [("Account Name", CStr "Fuel"); ("Memo", CStr ""); ("Amount", CNum (inject_Z 3))] ].

(** The sum of [f] over a list. *)
Definition total {V : Type} (f : V -> Q) (l : list V) : Q :=
  fold_right (fun v acc => f v + acc) 0 l.

Definition absAmount (t : Transaction.t) : Q := Qabs (Transaction.amount t).

(** The tag a selected transaction carries when ids are distinct. *)
Definition reasonFor (testingScope : Q) (t : Transaction.t) : SelectionReason :=
  if Num.gt (absAmount t) testingScope then OVER_SCOPE else HIGH_VALUE_KEY_ITEM.

(** Two transactions of one account that share an id. *)
Definition twinGroup : AccountGroup.t :=
  AccountGroup.mk "POOL" ""
    [ demoTxn "p1" "POOL" (inject_Z 20000);
      demoTxn "p1" "POOL" (inject_Z 300);
      demoTxn "p2" "POOL" (inject_Z 200) ]
    (inject_Z 20500) 3.

(** How the column mapper normalises a header and tests it against a
    pattern. *)
Definition normalizedHeader (k : string) : string := Str.trim (Str.toLowerCase k).

Definition headerMatches (pattern : string) (k : string) : bool :=
  (String.eqb (normalizedHeader k) pattern
   || Str.includes (normalizedHeader k) pattern)%bool.

(** Every header pattern the column mapper knows. *)
Definition knownPatterns : list string :=
  columnPatterns_date ++ columnPatterns_accountNumber
  ++ columnPatterns_accountName ++ columnPatterns_amount
  ++ columnPatterns_description ++ columnPatterns_reference
  ++ columnPatterns_vendor.

(** The [_rowIndex] field written for the row at 0-based index [i]. *)
Definition rowIndexField (i : nat) : list (string * cell) :=
  [("_rowIndex", CNum (inject_Z (Z.of_nat i + 1)))].

(** An export whose headers the column mapper does not know. *)
Definition foreignExport : list (list (string * cell)) :=
  [ [("Konto", CStr "Miete"); ("Betrag", CStr "1.000,50")];
    [("Konto", CStr "Strom"); ("Betrag", CNum (inject_Z 80))] ].

(** An account name that does not start with "total", in any case. *)
Definition notTotal (name : string) : Prop :=
  Str.startsWith (Str.toLowerCase name) "total" = false.

(** The pattern [detectHierarchicalGLFormat] looks for: a header row at
    [i], and at [j], at most nine rows further down, a row whose first cell
    is a non-empty string without "total", followed by a row whose first
    cell is blank. *)
Definition hierarchicalPattern (numberToString : Q -> string)
    (rawData : list (option (list cell))) (i j : nat) : Prop :=
  (i < 10)%nat /\ (i < j < i + 10)%nat
  /\ (exists header, nth_error rawData i = Some (Some header)
                     /\ isHeaderRow numberToString header = true)
  /\ (exists banner s, nth_error rawData j = Some (Some banner)
                       /\ Js.index banner 0 = CStr s /\ s <> ""
                       /\ Str.includes (Str.toLowerCase s) "total" = false)
  /\ (exists next, nth_error rawData (j + 1) = Some (Some next)
                   /\ Js.isBlank (Js.index next 0) = true).

Definition poolSamples : list SelectedSample.t :=
  selectSamplesFromAccount parkGroup parkConfig3.

(** The first sample of the park scenario. *)
Definition parkFirstSample : SelectedSample.t :=
  SelectedSample.mk (demoTxn "t1" "CITY PARK MAINT" (inject_Z 20000)) OVER_SCOPE
    "CITY PARK MAINT" (inject_Z 37000).


(** *** Amounts of a hierarchical ledger

    The position of the first header cell whose text is [name]. *)
Definition headerPosition (headers : list string) (name : string) : option nat :=
  Js.findIndex (fun h => String.eqb h name) headers.

(** A row that names an account or closes one: its first cell is a string
    with something other than white space in it. *)
Definition isBannerRow (row : list cell) : bool :=
  match Js.index row 0 with
  | CStr s => negb (Str.isEmpty (Str.trim s))
  | _ => false
  end.

(** The amount a row contributes when the amount column is at [amountCol]
    and the date column at [dateCol]: nothing for a banner row, for a row
    with no amount cell, for a beginning-balance row and for a row whose
    amount parses to zero; the parsed amount cell otherwise. *)
Definition amountOfRow (numberToString : Q -> string)
    (amountCol dateCol : option nat) (row : list cell) : option Q :=
  if isBannerRow row then None
  else
    match amountCol with
    | None => None
    | Some c =>
        let dateText :=
          match dateCol with
          | Some d => toString numberToString (Js.index row d)
          | None => ""
          end in
        if Js.isBlank (Js.index row c) then None
        else if Str.includes (Str.toLowerCase dateText) "beginning balance" then None
        else if Num.isZero (parseAmount (Js.index row c)) then None
        else Some (parseAmount (Js.index row c))
    end.

(** The contributing rows among [rows], which start at index [i] of the
    grid, each with its index and amount. *)
Fixpoint amountsFrom (numberToString : Q -> string)
    (amountCol dateCol : option nat) (i : nat)
    (rows : list (option (list cell))) : list (nat * Q) :=
  match rows with
  | [] => []
  | r :: rest =>
      match r with
      | Some row =>
          match amountOfRow numberToString amountCol dateCol row with
          | Some a => [(i, a)]
          | None => []
          end
      | None => []
      end ++ amountsFrom numberToString amountCol dateCol (S i) rest
  end.

(** What the amount claims read off a returned transaction, and the same
    for a contributing row. *)
Definition rowAndAmount (t : Transaction.t) : list (string * cell) * Q :=
  (Transaction.extra t, Transaction.amount t).

Definition expectedRowAndAmount (p : nat * Q) : list (string * cell) * Q :=
  (rowIndexField (fst p), snd p).

(** A ledger whose amounts are at the edge of the doubles. *)
Definition extremeLedger : list (option (list cell)) :=
  [ Some [CStr ""; CStr "Date"; CStr "Amount"];
    Some [CStr "Reserves"];
    Some [CNull; CStr "01/02/2024"; CStr "Infinity"];
    Some [CNull; CStr "01/03/2024"; CStr "(1e400)"];
    Some [CNull; CStr "01/04/2024"; CStr "1e-400"];
    Some [CNull; CStr "01/05/2024"; CStr "0.1"];
    Some [CNull; CStr "Beginning Balance"; CStr "75"];
    Some [CNull; CStr "01/06/2024"; CStr "n/a"] ].

(** Text in which every character is one of the 128 ASCII characters. *)
Definition isAsciiText (s : string) : Prop :=
  Forall (fun c => (nat_of_ascii c < 128)%nat) (list_ascii_of_string s).
(** * Properties *)

(** ** Numbers and strings *)

Lemma gt_spec (a b : Q) : Num.gt a b = true <-> b < a.
Proof.
  unfold Num.gt. rewrite negb_true_iff. split; intro H.
  - apply Qnot_le_lt. intro Hle. apply Qle_bool_iff in Hle. congruence.
  - destruct (Qle_bool a b) eqn:E; [|reflexivity].
    apply Qle_bool_iff in E. exfalso. exact (Qlt_not_le _ _ H E).
Qed.

Lemma gt_false_le (a b : Q) : Num.gt a b = false <-> a <= b.
Proof.
  unfold Num.gt. rewrite negb_false_iff. apply Qle_bool_iff.
Qed.

Lemma isZero_spec (q : Q) : Num.isZero q = true <-> q == 0.
Proof. unfold Num.isZero. apply Qeq_bool_iff. Qed.

Lemma isEmpty_spec (s : string) : Str.isEmpty s = true <-> s = "".
Proof. destruct s; simpl; split; congruence. Qed.

Lemma isEmpty_false (s : string) : Str.isEmpty s = false <-> s <> "".
Proof. destruct s; simpl; split; congruence. Qed.

Example parseFloat_plain : Num.parseFloat "1234.50" = Some (2469 # 2).
Proof. reflexivity. Qed.

Example parseFloat_exponent : Num.parseFloat "  -2.5e3xyz" = Some (- inject_Z 2500).
Proof. reflexivity. Qed.

(** A tenth is read as the double next to it. *)
Example parseFloat_tenth :
  Num.parseFloat "0.1" = Some (3602879701896397 # 36028797018963968).
Proof. reflexivity. Qed.

(** Above [2 ^ 53] the odd integers fall between two doubles. *)
Example parseFloat_tie : Num.parseFloat "9007199254740993" = Some (inject_Z 9007199254740992).
Proof. reflexivity. Qed.

Example parseFloat_infinity :
  Num.parseFloat "Infinity" = Some Num.infinity
  /\ Num.parseFloat " -Infinity and beyond" = Some (- Num.infinity)
  /\ Num.parseFloat "infinity" = None.
Proof. repeat split. Qed.

Example parseFloat_overflow : Num.parseFloat "1e400" = Some Num.infinity.
Proof. vm_compute. reflexivity. Qed.

Example parseFloat_underflow : Num.parseFloat "1e-400" = Some 0.
Proof. vm_compute. reflexivity. Qed.

(** The largest double, the first literal that rounds past it, the least
    positive double, and the first literal that rounds to zero below it. *)
Example parseFloat_edges :
  Num.parseFloat "1.7976931348623157e308"
  = Some (inject_Z ((2 ^ 53 - 1) * 2 ^ 971))
  /\ Num.parseFloat "1.7976931348623158e308"
     = Some (inject_Z ((2 ^ 53 - 1) * 2 ^ 971))
  /\ Num.parseFloat "1.7976931348623159e308" = Some Num.infinity
  /\ Num.parseFloat "5e-324" = Some (1 # Z.to_pos (2 ^ 1074))
  /\ Num.parseFloat "2.5e-324" = Some (1 # Z.to_pos (2 ^ 1074))
  /\ Num.parseFloat "2e-324" = Some 0.
Proof. vm_compute. repeat split. Qed.

Example parseFloat_junk : Num.parseFloat "abc" = None.
Proof. reflexivity. Qed.

Example negateParens_leftmost : Str.negateParens "a()(12)(3)" = "a()-12(3)".
Proof. reflexivity. Qed.

Example trim_both_ends : Str.trim "  a b  " = "a b".
Proof. reflexivity. Qed.

(** ** Materiality classifier *)

(** C3. [identifyMaterialAccounts] keeps exactly the groups whose
    [totalBalance] is strictly greater than the threshold, in their input
    order: a group whose balance equals the threshold is dropped, a group
    strictly above it is kept. *)
Theorem identifyMaterialAccounts_strict
    (accountGroups : list AccountGroup.t) (tolerableMisstatement : Q) :
  (forall g, In g (identifyMaterialAccounts accountGroups tolerableMisstatement)
             <-> In g accountGroups
                 /\ tolerableMisstatement < AccountGroup.totalBalance g)
  /\ (forall g, AccountGroup.totalBalance g == tolerableMisstatement ->
                ~ In g (identifyMaterialAccounts accountGroups tolerableMisstatement))
  /\ (forall pre g post, accountGroups = pre ++ g :: post ->
        identifyMaterialAccounts accountGroups tolerableMisstatement
        = identifyMaterialAccounts pre tolerableMisstatement
          ++ (if Qlt_le_dec tolerableMisstatement (AccountGroup.totalBalance g)
              then [g] else [])
          ++ identifyMaterialAccounts post tolerableMisstatement).
Proof.
  unfold identifyMaterialAccounts. split; [|split].
  - intro g. rewrite filter_In, gt_spec. tauto.
  - intros g Heq Hin. apply filter_In in Hin. destruct Hin as [_ H].
    apply gt_spec in H. rewrite Heq in H. exact (Qlt_irrefl _ H).
  - intros pre g post ->. rewrite filter_app. simpl.
    destruct (Qlt_le_dec tolerableMisstatement (AccountGroup.totalBalance g))
      as [Hlt | Hle].
    + apply gt_spec in Hlt. rewrite Hlt. reflexivity.
    + apply gt_false_le in Hle. rewrite Hle. reflexivity.
Qed.

Lemma identifyMaterialAccounts_strict_witness :
  ~ In (demoGroup "AT" (inject_Z 15000))
       (identifyMaterialAccounts
          [demoGroup "AT" (inject_Z 15000); demoGroup "ABOVE" (1500001 # 100)]
          (inject_Z 15000))
  /\ In (demoGroup "ABOVE" (1500001 # 100))
        (identifyMaterialAccounts
           [demoGroup "AT" (inject_Z 15000); demoGroup "ABOVE" (1500001 # 100)]
           (inject_Z 15000)).
Proof.
  destruct (identifyMaterialAccounts_strict
              [demoGroup "AT" (inject_Z 15000); demoGroup "ABOVE" (1500001 # 100)]
              (inject_Z 15000)) as [Hiff [Heq _]].
  split.
  - apply Heq. reflexivity.
  - apply Hiff. split.
    + right. left. reflexivity.
    + reflexivity.
Defined.

(** ** Hierarchical GL: detection and the header scan *)

(** C10. [detectHierarchicalGLFormat] answers [false] on every grid of fewer
    than ten rows, whatever the rows hold. *)
Theorem detectHierarchicalGLFormat_short
    (numberToString : Q -> string) (rawData : list (option (list cell))) :
  (List.length rawData < 10)%nat ->
  detectHierarchicalGLFormat numberToString rawData = false.
Proof.
  intro H. unfold detectHierarchicalGLFormat.
  apply Nat.ltb_lt in H. rewrite H. reflexivity.
Qed.

Lemma detectHierarchicalGLFormat_short_witness :
  (List.length shortLedger < 10)%nat
  /\ detectHierarchicalGLFormat plainNumber shortLedger = false.
Proof.
  split.
  - vm_compute. lia.
  - apply (detectHierarchicalGLFormat_short plainNumber shortLedger).
    vm_compute. lia.
Defined.

(** The same ledger with two empty rows appended has ten rows and is
    recognised: the length alone decided above. *)
Example detect_padded_ledger :
  isHeaderRow plainNumber
    [CStr ""; CStr "Date"; CStr "Num"; CStr "Name"; CStr "Memo"; CStr "Amount"] = true
  /\ bannerThenBlank plainNumber shortLedger 2 = true
  /\ detectHierarchicalGLFormat plainNumber (shortLedger ++ [Some []; Some []]) = true.
Proof. repeat split; vm_compute; reflexivity. Qed.

Lemma findHeaderFrom_none (numberToString : Q -> string)
    (rows : list (option (list cell))) :
  (forall row, In (Some row) rows -> isHeaderRow numberToString row = false) ->
  forall i, findHeaderFrom numberToString i rows = None.
Proof.
  induction rows as [| r rest IH]; intros H i; simpl.
  - reflexivity.
  - destruct r as [row |].
    + rewrite (H row (or_introl eq_refl)). apply IH.
      intros row' Hin. apply H. now right.
    + apply IH. intros row' Hin. apply H. now right.
Qed.

Lemma findHeaderFrom_some (numberToString : Q -> string)
    (rows : list (option (list cell))) :
  forall i k headers,
    findHeaderFrom numberToString i rows = Some (k, headers) ->
    exists row, nth_error rows (k - i) = Some (Some row)
                /\ (i <= k)%nat
                /\ isHeaderRow numberToString row = true.
Proof.
  induction rows as [| r rest IH]; intros i k headers H; simpl in H.
  - discriminate.
  - destruct r as [row |].
    + destruct (isHeaderRow numberToString row) eqn:E.
      * inversion H; subst. exists row. rewrite Nat.sub_diag. simpl. auto.
      * apply IH in H. destruct H as (row' & Hn & Hle & Hh).
        exists row'. replace (k - i)%nat with (S (k - S i)) by lia.
        simpl. repeat split; [assumption | lia | assumption].
    + apply IH in H. destruct H as (row' & Hn & Hle & Hh).
      exists row'. replace (k - i)%nat with (S (k - S i)) by lia.
      simpl. repeat split; [assumption | lia | assumption].
Qed.

(** C9. When none of the first ten rows is a header row (its lower-cased,
    space-joined cell text holding ["date"] together with ["amount"] or
    ["balance"]), [parseHierarchicalGL] returns the empty list, writes the
    header warning with [console.warn], and generates no id.  The function
    is total and has no failing branch: it never throws. *)
Theorem parseHierarchicalGL_no_header
    (numberToString serialDateToLocaleString : Q -> string)
    (w : World.t) (rawData : list (option (list cell))) :
  (forall i row, (i < 10)%nat -> nth_error rawData i = Some (Some row) ->
     let s := rowStr numberToString row in
     (Str.includes s "date" && (Str.includes s "amount" || Str.includes s "balance"))%bool
     = false) ->
  parseHierarchicalGL numberToString serialDateToLocaleString w rawData
  = mkOutcome [] ["Could not find header row in hierarchical GL"] w.
Proof.
  intro H. unfold parseHierarchicalGL, findHeader.
  rewrite findHeaderFrom_none; [reflexivity|].
  intros row Hin. apply In_nth_error in Hin. destruct Hin as [n Hn].
  rewrite nth_error_firstn in Hn.
  destruct (n <? 10)%nat eqn:E; [|discriminate].
  apply Nat.ltb_lt in E. exact (H n row E Hn).
Qed.

Lemma parseHierarchicalGL_no_header_witness :
  parseHierarchicalGL plainNumber plainNumber
    (World.mk (fun _ => 0%Z) (fun _ => "0.4fzyo82mvyr") 0) noHeaderGrid
  = mkOutcome [] ["Could not find header row in hierarchical GL"]
      (World.mk (fun _ => 0%Z) (fun _ => "0.4fzyo82mvyr") 0).
Proof.
  apply (parseHierarchicalGL_no_header plainNumber plainNumber).
  intros i row Hi Hn.
  destruct i as [|[|[|[|i]]]]; simpl in Hn;
    try discriminate; try (inversion Hn; subst; vm_compute; reflexivity).
  destruct i; discriminate.
Defined.

(** Conversely, a header row among the first ten rows means no warning. *)
Lemma parseHierarchicalGL_header_found
    (numberToString serialDateToLocaleString : Q -> string)
    (w : World.t) (rawData : list (option (list cell))) k headers :
  findHeader numberToString rawData = Some (k, headers) ->
  warnings (parseHierarchicalGL numberToString serialDateToLocaleString w rawData) = [].
Proof.
  intro H. unfold parseHierarchicalGL. rewrite H. reflexivity.
Qed.

(** ** Keyword filter *)

Lemma strOr_empty (s : string) : Js.strOr s "" = s.
Proof. destruct s; reflexivity. Qed.

Lemma filter_nil_when {A : Type} (f : A -> bool) (l : list A) :
  (forall x, In x l -> f x = false) -> filter f l = [].
Proof.
  induction l as [| x r IH]; intro H; simpl.
  - reflexivity.
  - rewrite (H x (or_introl eq_refl)). apply IH. intros y Hy. apply H. now right.
Qed.

(** C7. When every keyword is blank (or there is none) [filterByKeywords]
    returns its input as it is; otherwise it returns the input filtered, in
    input order, by the rule "the upper-cased account name contains some
    non-blank keyword, upper-cased and trimmed". *)
Theorem filterByKeywords_spec
    (transactions : list Transaction.t) (keywords : list string) :
  ((forall k, In k keywords -> Str.trim k = "") ->
   filterByKeywords transactions keywords = transactions)
  /\ ((exists k, In k keywords /\ Str.trim k <> "") ->
      exists keep : Transaction.t -> bool,
        (forall t, keep t = true <-> retainedByKeywords keywords t)
        /\ filterByKeywords transactions keywords = filter keep transactions).
Proof.
  unfold filterByKeywords. split.
  - intro Hblank. rewrite filter_nil_when; [reflexivity|].
    intros k Hk. rewrite (Hblank k Hk). reflexivity.
  - intros (k0 & Hin0 & Hne0).
    set (valid := filter (fun k => negb (Str.isEmpty (Str.trim k))) keywords).
    assert (Hv : In k0 valid).
    { apply filter_In. split; [assumption|].
      apply negb_true_iff. now apply isEmpty_false. }
    destruct valid as [| v vs] eqn:Ev; [contradiction|].
    cbn [List.length Nat.eqb]. rewrite <- Ev.
    eexists. split; [|reflexivity].
    intro t. cbv beta zeta. rewrite strOr_empty, existsb_exists.
    unfold retainedByKeywords. split.
    + intros (u & Hu & Hinc). apply in_map_iff in Hu.
      destruct Hu as (k & <- & Hk). subst valid. apply filter_In in Hk.
      destruct Hk as [Hk Hne]. apply negb_true_iff, isEmpty_false in Hne.
      exists k. auto.
    + intros (k & Hk & Hne & Hinc).
      exists (Str.trim (Str.toUpperCase k)). split; [|assumption].
      apply in_map_iff. exists k. split; [reflexivity|].
      subst valid. apply filter_In. split; [assumption|].
      apply negb_true_iff. now apply isEmpty_false.
Qed.

Lemma filterByKeywords_spec_witness :
  filterByKeywords parkLedger [""; "   "] = parkLedger
  /\ exists keep : Transaction.t -> bool,
       (forall t, keep t = true <-> retainedByKeywords [" park "; ""] t)
       /\ filterByKeywords parkLedger [" park "; ""] = filter keep parkLedger.
Proof.
  split.
  - apply (proj1 (filterByKeywords_spec parkLedger [""; "   "])).
    intros k [<- | [<- | []]]; reflexivity.
  - apply (proj2 (filterByKeywords_spec parkLedger [" park "; ""])).
    exists " park ". split; [left; reflexivity | vm_compute; discriminate].
Defined.

Example filterByKeywords_park :
  map Transaction.id (filterByKeywords parkLedger [" park "; ""])
  = ["t1"; "t3"; "t4"; "t5"].
Proof. reflexivity. Qed.

(** ** Sampling orchestrator *)

Lemma withId_same (t : Transaction.t) : Transaction.withId t (Transaction.id t) = t.
Proof. destruct t; reflexivity. Qed.

Lemma backfillIds_present (w : World.t) (rawTransactions : list Transaction.t) :
  (forall t, In t rawTransactions -> Transaction.id t <> "") ->
  backfillIds w rawTransactions = (rawTransactions, w).
Proof.
  induction rawTransactions as [| t rest IH]; intro H; simpl.
  - reflexivity.
  - assert (E : Str.isEmpty (Transaction.id t) = false)
      by (apply isEmpty_false, H; now left).
    rewrite E, IH by (intros u Hu; apply H; now right).
    rewrite withId_same. reflexivity.
Qed.

(** C4. When every transaction already carries a non-empty id, the result of
    [performSampling] does not depend on the clock or the random source: run
    in any two worlds on the same arguments it returns the same
    [SamplingResults], and it leaves each world untouched. *)
Theorem performSampling_deterministic
    (w1 w2 : World.t) (rawTransactions : list Transaction.t)
    (config : SamplingConfig.t) :
  (forall t, In t rawTransactions -> Transaction.id t <> "") ->
  fst (performSampling w1 rawTransactions config)
  = fst (performSampling w2 rawTransactions config)
  /\ snd (performSampling w1 rawTransactions config) = w1
  /\ snd (performSampling w2 rawTransactions config) = w2.
Proof.
  intro H. unfold performSampling.
  rewrite !backfillIds_present by assumption. repeat split.
Qed.

Lemma performSampling_deterministic_witness :
  fst (performSampling morningWorld parkLedger parkConfig)
  = fst (performSampling eveningWorld parkLedger parkConfig).
Proof.
  apply (performSampling_deterministic morningWorld eveningWorld parkLedger parkConfig).
  intros t Ht. repeat (destruct Ht as [<- | Ht]; [discriminate|]). destruct Ht.
Defined.

(** With an id missing, the two runs differ: the ids are drawn from the
    world. *)
Example performSampling_fresh_ids_differ :
  fst (performSampling morningWorld [demoTxn "" "CITY PARK MAINT" (inject_Z 20000)] parkConfig)
  <> fst (performSampling eveningWorld [demoTxn "" "CITY PARK MAINT" (inject_Z 20000)] parkConfig).
Proof. vm_compute. discriminate. Qed.

Example performSampling_park_scenario :
  map (fun s => (SelectedSample.id s, SelectedSample.selectionReason s))
      (SamplingResults.samples (fst (performSampling morningWorld parkLedger parkConfig)))
  = [("t1", OVER_SCOPE); ("t4", OVER_SCOPE)].
Proof. reflexivity. Qed.

(** ** Stable sorting *)

Section SortingFacts.
Context {A : Type} (before : A -> A -> bool).

Lemma insertBy_perm (x : A) (l : list A) :
  Permutation (insertBy before x l) (x :: l).
Proof.
  induction l as [| y r IH]; simpl.
  - apply Permutation_refl.
  - destruct (before x y).
    + apply Permutation_refl.
    + apply perm_trans with (y :: x :: r).
      * now apply perm_skip.
      * apply perm_swap.
Qed.

Lemma sortBy_perm (l : list A) : Permutation (sortBy before l) l.
Proof.
  induction l as [| x r IH]; simpl.
  - apply perm_nil.
  - apply perm_trans with (x :: sortBy before r).
    + apply insertBy_perm.
    + now apply perm_skip.
Qed.

(** When [before] is total and transitive the result is ordered by it. *)
Hypothesis before_total : forall a b, before a b = true \/ before b a = true.
Hypothesis before_trans :
  forall a b c, before a b = true -> before b c = true -> before a c = true.

Lemma insertBy_sorted (x : A) (l : list A) :
  StronglySorted (fun a b => before a b = true) l ->
  StronglySorted (fun a b => before a b = true) (insertBy before x l).
Proof.
  induction 1 as [| y r Hs IH Hall]; simpl.
  - constructor; constructor.
  - destruct (before x y) eqn:E.
    + constructor.
      * now constructor.
      * constructor; [assumption|].
        eapply Forall_impl; [|exact Hall].
        intros z Hz. now apply before_trans with y.
    + constructor; [assumption|].
      assert (Hyx : before y x = true)
        by (destruct (before_total x y); congruence).
      rewrite Forall_forall. intros z Hz.
      apply (Permutation_in _ (insertBy_perm x r)) in Hz.
      destruct Hz as [<- | Hz]; [assumption|].
      rewrite Forall_forall in Hall. now apply Hall.
Qed.

Lemma sortBy_sorted (l : list A) :
  StronglySorted (fun a b => before a b = true) (sortBy before l).
Proof.
  induction l as [| x r IH]; simpl.
  - constructor.
  - now apply insertBy_sorted.
Qed.

End SortingFacts.

Example orderByDesc_stable :
  Lodash.orderByDesc [("a", 3%Z); ("b", 7%Z); ("c", 3%Z); ("d", 7%Z)]
    (fun p => inject_Z (snd p))
  = [("b", 7%Z); ("d", 7%Z); ("a", 3%Z); ("c", 3%Z)].
Proof. reflexivity. Qed.

Lemma orderByDesc_perm {V : Type} (l : list V) (key : V -> Q) :
  Permutation (Lodash.orderByDesc l key) l.
Proof. apply sortBy_perm. Qed.

Lemma StronglySorted_weaken {A : Type} (R R' : A -> A -> Prop) (l : list A) :
  (forall a b, R a b -> R' a b) -> StronglySorted R l -> StronglySorted R' l.
Proof.
  intros Himp. induction 1 as [| x r Hs IH Hall]; constructor.
  - assumption.
  - eapply Forall_impl; [|exact Hall]. intros b. apply Himp.
Qed.

Lemma orderByDesc_sorted {V : Type} (l : list V) (key : V -> Q) :
  StronglySorted (fun a b => key b <= key a) (Lodash.orderByDesc l key).
Proof.
  unfold Lodash.orderByDesc.
  apply StronglySorted_weaken
    with (R := fun a b => Num.ge (key a) (key b) = true).
  - intros a b H. unfold Num.ge in H. now apply Qle_bool_iff.
  - apply sortBy_sorted.
    + intros a b. unfold Num.ge. rewrite !Qle_bool_iff.
      destruct (Qlt_le_dec (key a) (key b)) as [H | H]; [right | left]; auto.
      now apply Qlt_le_weak.
    + intros a b c. unfold Num.ge. rewrite !Qle_bool_iff. intros H1 H2.
      now apply Qle_trans with (key b).
Qed.

(** ** Sample selector *)

(** A selection loop appends the samples of the first transactions it is
    given, as many as there is room for under the cap. *)
Lemma selectLoop_firstn (g : AccountGroup.t) (sampleSize : Z)
    (reason : SelectionReason) (txns : list Transaction.t) :
  forall selected,
    selectLoop g sampleSize reason txns selected
    = selected
      ++ map (sampleOf g reason)
           (firstn (Z.to_nat (sampleSize - Z.of_nat (List.length selected))) txns).
Proof.
  induction txns as [| t rest IH]; intro selected; simpl.
  - rewrite firstn_nil, app_nil_r. reflexivity.
  - destruct (Z.of_nat (List.length selected) >=? sampleSize)%Z eqn:E.
    + apply Z.geb_le in E.
      replace (Z.to_nat (sampleSize - Z.of_nat (List.length selected))) with 0%nat by lia.
      simpl. now rewrite app_nil_r.
    + rewrite Z.geb_leb in E. apply Z.leb_gt in E. rewrite IH, length_app. simpl.
      replace (Z.to_nat (sampleSize - Z.of_nat (List.length selected)))
        with (S (Z.to_nat (sampleSize - Z.of_nat (List.length selected + 1)))) by lia.
      simpl. rewrite <- app_assoc. reflexivity.
Qed.

Section DistinctKeys.
Context {A K : Type} (key : A -> K).

(** Keys that are pairwise distinct stay so in any selection of the list. *)
Lemma distinct_keys_filter (keep : A -> bool) (items : list A) :
  NoDup (map key items) -> NoDup (map key (filter keep items)).
Proof.
  induction items as [| x r IH]; simpl; intro H; [constructor|].
  apply NoDup_cons_iff in H. destruct H as [Hfresh Hrest].
  destruct (keep x); simpl; [| now apply IH].
  apply NoDup_cons; [| now apply IH].
  rewrite in_map_iff. intros (y & Hy & Hin). apply filter_In in Hin.
  apply Hfresh. rewrite in_map_iff. exists y. tauto.
Qed.

Lemma distinct_keys_firstn (n : nat) (items : list A) :
  NoDup (map key items) -> NoDup (map key (firstn n items)).
Proof.
  intro H. rewrite <- (firstn_skipn n items), map_app in H.
  exact (NoDup_app_remove_r _ _ H).
Qed.

End DistinctKeys.

Lemma In_firstn {A : Type} (n : nat) (l : list A) (x : A) :
  In x (firstn n l) -> In x l.
Proof.
  intro H. rewrite <- (firstn_skipn n l). apply in_or_app. now left.
Qed.

Lemma setHas_spec (ids : list string) (x : string) :
  setHas ids x = true <-> In x ids.
Proof.
  unfold setHas. rewrite existsb_exists. split.
  - intros (y & Hy & E). apply String.eqb_eq in E. now subst.
  - intro H. exists x. split; [assumption | apply String.eqb_refl].
Qed.

(** C1. For an account group whose transactions carry distinct ids,
    [selectSamplesFromAccount] returns at most [sampleSize] samples, and none
    when [sampleSize] is not positive; a sample tagged [OVER_SCOPE] has
    [|amount| > testingScope], a sample tagged [HIGH_VALUE_KEY_ITEM] has
    [|amount| <= testingScope]; every sample is a transaction of the group
    and no transaction is selected twice. *)
Theorem selectSamplesFromAccount_bounded
    (accountGroup : AccountGroup.t) (config : SamplingConfig.t) :
  NoDup (map Transaction.id (AccountGroup.transactions accountGroup)) ->
  let selected := selectSamplesFromAccount accountGroup config in
  ((0 <= SamplingConfig.sampleSize config)%Z ->
   (Z.of_nat (List.length selected) <= SamplingConfig.sampleSize config)%Z)
  /\ ((SamplingConfig.sampleSize config <= 0)%Z -> selected = [])
  /\ (forall s, In s selected ->
        SelectedSample.selectionReason s = OVER_SCOPE ->
        SamplingConfig.testingScope config < Qabs (SelectedSample.amount s))
  /\ (forall s, In s selected ->
        SelectedSample.selectionReason s = HIGH_VALUE_KEY_ITEM ->
        Qabs (SelectedSample.amount s) <= SamplingConfig.testingScope config)
  /\ (forall s, In s selected ->
        In (SelectedSample.txn s) (AccountGroup.transactions accountGroup))
  /\ NoDup (map SelectedSample.id selected).
Proof.
  intros Hids selected. subst selected. unfold selectSamplesFromAccount.
  set (n := SamplingConfig.sampleSize config).
  set (scope := SamplingConfig.testingScope config).
  set (sorted := Lodash.orderByDesc (AccountGroup.transactions accountGroup)
                   (fun t => Qabs (Transaction.amount t))).
  set (over := filter (fun t => Num.gt (Qabs (Transaction.amount t)) scope) sorted).
  assert (Hperm : Permutation sorted (AccountGroup.transactions accountGroup))
    by apply orderByDesc_perm.
  assert (Hsorted_ids : NoDup (map Transaction.id sorted)).
  { apply Permutation_NoDup with (map Transaction.id (AccountGroup.transactions accountGroup));
      [| assumption].
    apply Permutation_map. now apply Permutation_sym. }
  rewrite (selectLoop_firstn accountGroup n OVER_SCOPE over []).
  cbn [app List.length Z.of_nat]. rewrite Z.sub_0_r.
  set (first := map (sampleOf accountGroup OVER_SCOPE) (firstn (Z.to_nat n) over)).
  assert (Hlen1 : List.length first = Nat.min (Z.to_nat n) (List.length over))
    by (unfold first; now rewrite length_map, length_firstn).
  assert (Hover : forall t, In t over ->
            In t sorted /\ scope < Qabs (Transaction.amount t)).
  { intros t Ht. apply filter_In in Ht. now rewrite gt_spec in Ht. }
  assert (Hfirst : forall s, In s first ->
            SelectedSample.selectionReason s = OVER_SCOPE
            /\ In (SelectedSample.txn s) over).
  { intros s Hs. apply in_map_iff in Hs. destruct Hs as (t & <- & Ht).
    split; [reflexivity | exact (In_firstn _ _ _ Ht)]. }
  assert (Hids1 : map SelectedSample.id first
                  = map Transaction.id (firstn (Z.to_nat n) over)).
  { unfold first. rewrite map_map. reflexivity. }
  destruct (Z.of_nat (List.length first) <? n)%Z eqn:Eroom.
  - apply Z.ltb_lt in Eroom.
    assert (Hall : firstn (Z.to_nat n) over = over)
      by (apply firstn_all2; lia).
    rewrite selectLoop_firstn.
    set (remaining :=
           filter (fun t => negb (setHas (map SelectedSample.id first) (Transaction.id t)))
                  sorted).
    set (second := map (sampleOf accountGroup HIGH_VALUE_KEY_ITEM)
                     (firstn (Z.to_nat (n - Z.of_nat (List.length first))) remaining)).
    assert (Hrem : forall t, In t remaining ->
              In t sorted /\ ~ In (Transaction.id t) (map SelectedSample.id first)).
    { intros t Ht. apply filter_In in Ht. destruct Ht as [Hin Hno]. split; [assumption|].
      apply negb_true_iff in Hno. intro Hc. apply setHas_spec in Hc. congruence. }
    assert (Hsecond : forall s, In s second ->
              SelectedSample.selectionReason s = HIGH_VALUE_KEY_ITEM
              /\ In (SelectedSample.txn s) remaining).
    { intros s Hs. apply in_map_iff in Hs. destruct Hs as (t & <- & Ht).
      split; [reflexivity | exact (In_firstn _ _ _ Ht)]. }
    repeat split.
    + intros _. rewrite length_app. unfold second at 1.
      rewrite length_map, length_firstn. lia.
    + intro Hle. lia.
    + intros s Hs Hr. apply in_app_or in Hs. destruct Hs as [Hs | Hs].
      * apply Hfirst in Hs. destruct Hs as [_ Hs]. apply Hover in Hs. tauto.
      * apply Hsecond in Hs. destruct Hs as [Hs _]. congruence.
    + intros s Hs Hr. apply in_app_or in Hs. destruct Hs as [Hs | Hs].
      * apply Hfirst in Hs. destruct Hs as [Hs _]. congruence.
      * apply Hsecond in Hs. destruct Hs as [_ Hs]. apply Hrem in Hs.
        destruct Hs as [Hin Hno].
        apply gt_false_le.
        destruct (Num.gt (Qabs (SelectedSample.amount s)) scope) eqn:Egt; [|reflexivity].
        exfalso. apply Hno. rewrite Hids1, Hall.
        apply in_map. apply filter_In. split; assumption.
    + intros s Hs. apply (Permutation_in _ Hperm).
      apply in_app_or in Hs. destruct Hs as [Hs | Hs].
      * apply Hfirst in Hs. destruct Hs as [_ Hs]. now apply Hover in Hs.
      * apply Hsecond in Hs. destruct Hs as [_ Hs]. now apply Hrem in Hs.
    + rewrite map_app. apply NoDup_app.
      * rewrite Hids1. apply distinct_keys_firstn. now apply distinct_keys_filter.
      * unfold second. rewrite map_map. cbn [SelectedSample.id sampleOf SelectedSample.txn].
        change (NoDup (map Transaction.id
                  (firstn (Z.to_nat (n - Z.of_nat (List.length first))) remaining))).
        apply distinct_keys_firstn. now apply distinct_keys_filter.
      * intros i Hi Hc. apply in_map_iff in Hc. destruct Hc as (s & <- & Hs).
        apply Hsecond in Hs. destruct Hs as [_ Hs]. apply Hrem in Hs.
        now apply (proj2 Hs).
  - apply Z.ltb_ge in Eroom. repeat split.
    + intros Hn. lia.
    + intro Hle. destruct first as [| s r] eqn:Ef; [reflexivity|].
      simpl in Hlen1. lia.
    + intros s Hs _. apply Hfirst in Hs. destruct Hs as [_ Hs].
      apply Hover in Hs. tauto.
    + intros s Hs Hr. apply Hfirst in Hs. destruct Hs as [Hs _]. congruence.
    + intros s Hs. apply (Permutation_in _ Hperm).
      apply Hfirst in Hs. destruct Hs as [_ Hs]. now apply Hover in Hs.
    + rewrite Hids1. apply distinct_keys_firstn. now apply distinct_keys_filter.
Qed.

Lemma selectSamplesFromAccount_bounded_witness :
  let selected := selectSamplesFromAccount parkGroup parkConfig3 in
  ((0 <= 3)%Z -> (Z.of_nat (List.length selected) <= 3)%Z)
  /\ ((3 <= 0)%Z -> selected = [])
  /\ (forall s, In s selected ->
        SelectedSample.selectionReason s = OVER_SCOPE ->
        inject_Z 11000 < Qabs (SelectedSample.amount s))
  /\ (forall s, In s selected ->
        SelectedSample.selectionReason s = HIGH_VALUE_KEY_ITEM ->
        Qabs (SelectedSample.amount s) <= inject_Z 11000)
  /\ (forall s, In s selected ->
        In (SelectedSample.txn s) (AccountGroup.transactions parkGroup))
  /\ NoDup (map SelectedSample.id selected).
Proof.
  apply (selectSamplesFromAccount_bounded parkGroup parkConfig3).
  simpl. repeat (constructor; [simpl; intuition discriminate |]). constructor.
Defined.

Example selectSamplesFromAccount_park :
  map (fun s => (SelectedSample.id s, SelectedSample.selectionReason s))
      (selectSamplesFromAccount parkGroup parkConfig3)
  = [("t5", OVER_SCOPE); ("t4", OVER_SCOPE); ("t1", HIGH_VALUE_KEY_ITEM)].
Proof. reflexivity. Qed.

Example selectSamplesFromAccount_no_room :
  selectSamplesFromAccount parkGroup
    (SamplingConfig.mk (inject_Z 15000) (inject_Z 11000) [] (-1)) = [].
Proof. reflexivity. Qed.

(** ** Account aggregator *)

Lemma firstSeen_In (names : list string) (k : string) :
  In k (firstSeen names) <-> In k names.
Proof.
  induction names as [| x r IH]; simpl; [tauto|].
  rewrite filter_In, IH, negb_true_iff, String.eqb_neq.
  destruct (string_dec x k) as [-> | Hne]; [tauto|].
  split; [tauto|]. intros [H | H]; [tauto | right; split; congruence].
Qed.

Lemma firstSeen_NoDup (names : list string) : NoDup (firstSeen names).
Proof.
  induction names as [| x r IH]; simpl; constructor.
  - rewrite filter_In, negb_true_iff, String.eqb_neq. tauto.
  - now apply NoDup_filter.
Qed.

Lemma firstSeen_snoc (names : list string) (x : string) :
  firstSeen (names ++ [x])
  = firstSeen names ++ (if existsb (String.eqb x) names then [] else [x]).
Proof.
  induction names as [| a r IH]; simpl; [reflexivity|].
  rewrite IH, filter_app. f_equal. f_equal.
  destruct (String.eqb x a) eqn:E; simpl.
  - apply String.eqb_eq in E. subst a.
    destruct (existsb (String.eqb x) r); simpl; [reflexivity|].
    now rewrite String.eqb_refl.
  - destruct (existsb (String.eqb x) r); simpl; [reflexivity|].
    now rewrite E.
Qed.

Section GroupBy.
Context {V : Type} (iteratee : V -> string).

Lemma push_map (key : string) (v : V) (held : string -> list V)
    (names : list string) :
  NoDup names ->
  Obj.push key v (map (fun k => (k, held k)) names)
  = map (fun k => (k, held k ++ if String.eqb k key then [v] else [])) names
    ++ (if existsb (String.eqb key) names then [] else [(key, [v])]).
Proof.
  induction names as [| a r IH]; intro Hnd; simpl; [reflexivity|].
  inversion Hnd as [| ? ? Hnin Hr]; subst.
  rewrite (String.eqb_sym key a).
  destruct (String.eqb a key) eqn:E; simpl.
  - apply String.eqb_eq in E. subst a. rewrite app_nil_r. f_equal.
    apply map_ext_in. intros k Hk.
    destruct (String.eqb k key) eqn:E'.
    + apply String.eqb_eq in E'. subst k. contradiction.
    + now rewrite app_nil_r.
  - rewrite app_nil_r. f_equal. now apply IH.
Qed.

(** [_.groupBy] in closed form: one property per distinct key, in first-seen
    order, holding the elements with that key in input order. *)
Lemma groupBy_closed (collection : list V) :
  Lodash.groupBy collection iteratee
  = map (bucket iteratee collection) (firstSeen (map iteratee collection)).
Proof.
  unfold Lodash.groupBy.
  induction collection as [| v l IH] using rev_ind; [reflexivity|].
  rewrite fold_left_app, IH. simpl. unfold bucket at 1.
  rewrite push_map by apply firstSeen_NoDup.
  rewrite (map_app iteratee). cbn [map]. rewrite firstSeen_snoc, map_app. f_equal.
  - apply map_ext. intro k. unfold bucket. rewrite filter_app. simpl.
    rewrite (String.eqb_sym (iteratee v) k). reflexivity.
  - assert (Hmem : existsb (String.eqb (iteratee v)) (firstSeen (map iteratee l))
                   = existsb (String.eqb (iteratee v)) (map iteratee l)).
    { apply eq_true_iff_eq. rewrite !existsb_exists.
      split; intros (y & Hy & E); exists y; (split; [|assumption]);
        now apply firstSeen_In. }
    rewrite Hmem.
    destruct (existsb (String.eqb (iteratee v)) (map iteratee l)) eqn:E;
      [reflexivity|].
    simpl. unfold bucket. rewrite filter_app. simpl. rewrite String.eqb_refl.
    rewrite filter_nil_when; [reflexivity|].
    intros u Hu. destruct (String.eqb (iteratee u) (iteratee v)) eqn:E'; [|reflexivity].
    exfalso. assert (Hex : existsb (String.eqb (iteratee v)) (map iteratee l) = true).
    { apply existsb_exists. exists (iteratee u). split; [now apply in_map|].
      now rewrite String.eqb_sym. }
    congruence.
Qed.

End GroupBy.

Lemma filter_split_perm {A : Type} (p : A -> bool) (l : list A) :
  Permutation (filter p l ++ filter (fun x => negb (p x)) l) l.
Proof.
  induction l as [| x r IH]; simpl; [constructor|].
  destruct (p x); simpl.
  - now constructor.
  - apply Permutation_sym, Permutation_cons_app. now apply Permutation_sym.
Qed.

Lemma entries_perm {V : Type} (o : list (string * list V)) :
  Permutation (Obj.entries o) o.
Proof.
  unfold Obj.entries.
  eapply perm_trans; [| apply (filter_split_perm (fun e => Js.isArrayIndex (fst e)))].
  apply Permutation_app_tail. apply sortBy_perm.
Qed.

Lemma flat_map_perm {A B : Type} (f : A -> list B) (l l' : list A) :
  Permutation l l' -> Permutation (flat_map f l) (flat_map f l').
Proof.
  induction 1 as [| x l l' _ IH | x y l | l l' l'' _ IH1 _ IH2]; simpl.
  - constructor.
  - now apply Permutation_app_head.
  - rewrite !app_assoc. apply Permutation_app_tail, Permutation_app_comm.
  - now apply perm_trans with (flat_map f l').
Qed.

Lemma push_flat_perm {V : Type} (key : string) (v : V) (o : list (string * list V)) :
  Permutation (flat_map snd (Obj.push key v o)) (flat_map snd o ++ [v]).
Proof.
  induction o as [| [k vs] r IH]; simpl.
  - constructor. constructor.
  - destruct (String.eqb k key); simpl.
    + rewrite <- !app_assoc. apply Permutation_app_head, Permutation_app_comm.
    + rewrite <- app_assoc. now apply Permutation_app_head.
Qed.

Lemma groupBy_flat_perm {V : Type} (iteratee : V -> string) (collection : list V) :
  Permutation (flat_map snd (Lodash.groupBy collection iteratee)) collection.
Proof.
  unfold Lodash.groupBy.
  induction collection as [| v l IH] using rev_ind; simpl; [constructor|].
  rewrite fold_left_app. simpl.
  eapply perm_trans; [apply push_flat_perm|].
  now apply Permutation_app_tail.
Qed.

Lemma sumBy_fold_right {V : Type} (f : V -> Q) (l : list V) :
  Lodash.sumBy l f == fold_right (fun v acc => f v + acc) 0 l.
Proof.
  assert (Hgen : forall r init,
            fold_left (fun result y => result + f y) r init
            == init + fold_right (fun v acc => f v + acc) 0 r).
  { induction r as [| y r IH]; intro init; simpl.
    - ring.
    - rewrite IH. ring. }
  destruct l as [| x r]; simpl; [reflexivity|].
  apply Hgen.
Qed.

(** The group built from one property of the grouped object. *)
Lemma groupByAccount_entries (transactions : list Transaction.t) :
  groupByAccount transactions
  = map (fun e =>
           AccountGroup.mk (fst e)
             (Js.strOr match snd e with
                       | t0 :: _ => Transaction.accountNumber t0
                       | [] => ""
                       end "")
             (snd e)
             (Lodash.sumBy (snd e) (fun t => Qabs (Transaction.amount t)))
             (List.length (snd e)))
        (Obj.entries (Lodash.groupBy transactions Transaction.accountName)).
Proof.
  unfold groupByAccount. apply map_ext. intros [k vs]. reflexivity.
Qed.



Example groupByAccount_numbered :
  map (fun g => (AccountGroup.accountName g,
                 map Transaction.id (AccountGroup.transactions g),
                 AccountGroup.totalBalance g, AccountGroup.transactionCount g))
      (groupByAccount numberedLedger)
  = [ ("410", ["n4"], inject_Z 25, 1%nat);
      ("5000", ["n2"], inject_Z 40, 1%nat);
      ("Rent", ["n1"; "n3"], inject_Z 900 + inject_Z 900, 2%nat) ].
Proof. reflexivity. Qed.

Lemma filter_keys {V : Type} (p : string -> bool) (held : string -> string * V)
    (names : list string) :
  (forall k, fst (held k) = k) ->
  map fst (filter (fun e => p (fst e)) (map held names)) = filter p names.
Proof.
  intro Hk. induction names as [| a r IH]; simpl; [reflexivity|].
  rewrite Hk. destruct (p a); simpl; [rewrite Hk|]; now rewrite IH.
Qed.

Lemma filter_all {A : Type} (p : A -> bool) (l : list A) :
  (forall x, In x l -> p x = true) -> filter p l = l.
Proof.
  induction l as [| x r IH]; intro H; simpl; [reflexivity|].
  rewrite (H x (or_introl eq_refl)). f_equal. apply IH.
  intros y Hy. apply H. now right.
Qed.

Lemma StronglySorted_map {A B : Type} (f : A -> B) (R : B -> B -> Prop)
    (l : list A) :
  StronglySorted (fun a b => R (f a) (f b)) l -> StronglySorted R (map f l).
Proof.
  induction 1 as [| x r Hs IH Hall]; simpl; constructor.
  - assumption.
  - rewrite Forall_forall in *. intros y Hy. apply in_map_iff in Hy.
    destruct Hy as (z & <- & Hz). now apply Hall.
Qed.

(** C5 does not hold as stated: the account named ["410"] is met last and
    listed first. *)
Lemma groupByAccount_not_first_seen :
  map AccountGroup.accountName (groupByAccount numberedLedger)
  = ["410"; "5000"; "Rent"]
  /\ firstSeen (map Transaction.accountName numberedLedger)
     = ["Rent"; "5000"; "410"]
  /\ map AccountGroup.accountName (groupByAccount numberedLedger)
     <> firstSeen (map Transaction.accountName numberedLedger).
Proof.
  split; [reflexivity | split; [reflexivity | vm_compute; discriminate]].
Qed.

(** C5, amended. The groups returned by [groupByAccount] list first the
    account names that are array-index keys (canonical decimal integers from
    [0] to [2^32 - 2]) in ascending numeric order, and then every other
    distinct account name in first-seen order.  When no account name is an
    array-index key, the groups are in first-seen order. *)
Theorem groupByAccount_order (transactions : list Transaction.t) :
  let names := map AccountGroup.accountName (groupByAccount transactions) in
  let seen := firstSeen (map Transaction.accountName transactions) in
  (exists numbered,
      names = numbered ++ filter (fun k => negb (Js.isArrayIndex k)) seen
      /\ Permutation numbered (filter Js.isArrayIndex seen)
      /\ StronglySorted (fun a b => (indexValue a <= indexValue b)%Z) numbered)
  /\ ((forall t, In t transactions ->
         Js.isArrayIndex (Transaction.accountName t) = false) ->
      names = seen).
Proof.
  intros names seen.
  set (G := Lodash.groupBy transactions Transaction.accountName).
  set (numbered :=
         map fst (sortBy (fun a b : string * list Transaction.t =>
                            (Obj.indexOf a <=? Obj.indexOf b)%Z)
                         (filter (fun e => Js.isArrayIndex (fst e)) G))).
  assert (HG : G = map (bucket Transaction.accountName transactions) seen)
    by apply groupBy_closed.
  assert (Hnames : names = numbered ++ filter (fun k => negb (Js.isArrayIndex k)) seen).
  { subst names. rewrite groupByAccount_entries, map_map. simpl.
    fold G. unfold Obj.entries. rewrite map_app. f_equal.
    rewrite HG. now apply (filter_keys (fun k => negb (Js.isArrayIndex k))). }
  assert (Hperm : Permutation numbered (filter Js.isArrayIndex seen)).
  { subst numbered. eapply perm_trans.
    - apply Permutation_map, sortBy_perm.
    - rewrite HG, (filter_keys Js.isArrayIndex); [apply Permutation_refl | reflexivity]. }
  split.
  - exists numbered. split; [assumption | split; [assumption|]].
    subst numbered. apply StronglySorted_map.
    apply StronglySorted_weaken
      with (R := fun a b : string * list Transaction.t =>
                   (Obj.indexOf a <=? Obj.indexOf b)%Z = true).
    + intros a b H. apply Z.leb_le in H. exact H.
    + apply sortBy_sorted.
      * intros a b. rewrite !Z.leb_le. lia.
      * intros a b c. rewrite !Z.leb_le. lia.
  - intro Hnone.
    assert (Hseen : forall k, In k seen -> Js.isArrayIndex k = false).
    { intros k Hk. apply firstSeen_In, in_map_iff in Hk.
      destruct Hk as (t & <- & Ht). now apply Hnone. }
    rewrite Hnames.
    rewrite (filter_nil_when Js.isArrayIndex seen Hseen) in Hperm.
    apply Permutation_sym, Permutation_nil in Hperm. rewrite Hperm. simpl.
    apply filter_all. intros k Hk. now rewrite (Hseen k Hk).
Qed.

Lemma groupByAccount_order_witness :
  map AccountGroup.accountName (groupByAccount parkLedger)
  = firstSeen (map Transaction.accountName parkLedger).
Proof.
  apply (proj2 (groupByAccount_order parkLedger)).
  intros t Ht. repeat (destruct Ht as [<- | Ht]; [reflexivity|]). destruct Ht.
Defined.

Example arrayIndex_keys :
  map Js.arrayIndex ["0"; "410"; "007"; "4294967294"; "4294967295"; "12a"; ""; "-1"]
  = [Some 0%Z; Some 410%Z; None; Some 4294967294%Z; None; None; None; None].
Proof. reflexivity. Qed.

(** ** Amount parsing *)

Lemma prefix_empty (s : string) : String.prefix "" s = true.
Proof. destruct s; reflexivity. Qed.

Lemma includes_close_cons (c : ascii) (r : string) :
  Str.includes (String c r) ")" = (Ascii.eqb c ")" || Str.includes r ")")%bool.
Proof.
  cbn [Str.includes String.prefix]. destruct (ascii_dec ")" c) as [<- | Hne].
  - rewrite prefix_empty. reflexivity.
  - assert (E : Ascii.eqb c ")" = false) by (apply Ascii.eqb_neq; congruence).
    now rewrite E.
Qed.

Lemma includes_close_nil : Str.includes "" ")" = false.
Proof. reflexivity. Qed.

Lemma string_app_nil_r (s : string) : (s ++ "")%string = s.
Proof. induction s as [| c r IH]; simpl; [reflexivity | now rewrite IH]. Qed.

Lemma string_app_assoc (a b c : string) :
  ((a ++ b) ++ c)%string = (a ++ (b ++ c))%string.
Proof. induction a as [| x r IH]; simpl; [reflexivity | now rewrite IH]. Qed.

Lemma splitAtClose_app (d post : string) :
  Str.includes d ")" = false ->
  Str.splitAtClose (d ++ String ")" post) = Some (d, post).
Proof.
  induction d as [| c r IH]; intro H.
  - reflexivity.
  - rewrite includes_close_cons in H. apply orb_false_iff in H.
    destruct H as [Hc Hr]. simpl. rewrite Hc, (IH Hr). reflexivity.
Qed.

Lemma splitAtClose_none (d : string) :
  Str.includes d ")" = false -> Str.splitAtClose d = None.
Proof.
  induction d as [| c r IH]; intro H.
  - reflexivity.
  - rewrite includes_close_cons in H. apply orb_false_iff in H.
    destruct H as [Hc Hr]. simpl. rewrite Hc, (IH Hr). reflexivity.
Qed.

Lemma negateParens_none (d : string) :
  Str.includes d ")" = false -> Str.negateParens d = d.
Proof.
  induction d as [| c r IH]; intro H.
  - reflexivity.
  - rewrite includes_close_cons in H. apply orb_false_iff in H.
    destruct H as [Hc Hr]. simpl.
    rewrite (splitAtClose_none r Hr), (IH Hr). now destruct (Ascii.eqb c "(").
Qed.

(** [(inner)] at the head of a string becomes [-inner]. *)
Lemma negateParens_head (inner post : string) :
  inner <> "" -> Str.includes inner ")" = false ->
  Str.negateParens ("(" ++ inner ++ ")" ++ post) = ("-" ++ inner ++ post)%string.
Proof.
  intros Hne H. cbn [append Str.negateParens]. cbn [Ascii.eqb Bool.eqb].
  change (")" ++ post)%string with (String ")" post).
  rewrite (splitAtClose_app inner post H).
  destruct inner; [congruence | reflexivity].
Qed.

Lemma stripCurrency_app (a b : string) :
  Str.stripCurrency (a ++ b) = (Str.stripCurrency a ++ Str.stripCurrency b)%string.
Proof.
  induction a as [| c r IH]; simpl; [reflexivity|].
  rewrite IH. now destruct (Ascii.eqb c "$" || Ascii.eqb c ",")%bool.
Qed.

Lemma stripCurrency_no_close (d : string) :
  Str.includes d ")" = false -> Str.includes (Str.stripCurrency d) ")" = false.
Proof.
  induction d as [| c r IH]; intro H; [reflexivity|].
  rewrite includes_close_cons in H. apply orb_false_iff in H.
  destruct H as [Hc Hr]. simpl.
  destruct (Ascii.eqb c "$" || Ascii.eqb c ",")%bool; [now apply IH|].
  rewrite includes_close_cons, Hc. now apply IH.
Qed.

Lemma trimEnd_cons (c : ascii) (r : string) :
  Str.isWhite c = false -> Str.trimEnd (String c r) = String c (Str.trimEnd r).
Proof. intro H. simpl. rewrite H. now destruct (Str.trimEnd r). Qed.

(** What sets a digit apart from the characters the parser treats
    specially. *)
Lemma digit_plain (c : ascii) :
  Str.isDigit c = true ->
  Str.isWhite c = false
  /\ (Ascii.eqb c "$" || Ascii.eqb c ",")%bool = false
  /\ Ascii.eqb c "(" = false
  /\ Ascii.eqb c ")" = false
  /\ (forall r, Num.parseFloat (String c r) = Num.unsignedDecimal (String c r)).
Proof.
  intro H. destruct c as [b0 b1 b2 b3 b4 b5 b6 b7].
  destruct b0, b1, b2, b3, b4, b5, b6, b7; try discriminate H;
    repeat split; intro r; reflexivity.
Qed.

Lemma parseFloat_minus (r : string) :
  Num.parseFloat (String "-" r) = option_map Qopp (Num.unsignedDecimal r).
Proof. reflexivity. Qed.

Lemma isZero_opp (q : Q) : Num.isZero (- q) = Num.isZero q.
Proof.
  apply eq_true_iff_eq. rewrite !isZero_spec. split; intro H.
  - rewrite <- (Qopp_involutive q), H. reflexivity.
  - rewrite H. reflexivity.
Qed.

(** A parenthesised amount that starts with a digit parses to the negation
    of the amount between the parentheses. *)
Lemma parseAmountString_parens (c : ascii) (d : string) :
  Str.isDigit c = true -> Str.includes d ")" = false ->
  parseAmountString ("(" ++ String c d ++ ")") == - parseAmountString (String c d).
Proof.
  intros Hc Hd. destruct (digit_plain c Hc) as (Hw & Hs & Ho & Hcl & Hpf).
  assert (Hd' := stripCurrency_no_close d Hd).
  unfold parseAmountString.
  assert (E1 : Str.stripCurrency ("(" ++ String c d ++ ")")
               = ("(" ++ String c (Str.stripCurrency d) ++ ")" ++ "")%string).
  { change ("(" ++ String c d ++ ")")%string with (String "(" (String c (d ++ ")"))).
    cbn [Str.stripCurrency]. rewrite Hs, stripCurrency_app. reflexivity. }
  assert (E2 : Str.stripCurrency (String c d) = String c (Str.stripCurrency d))
    by (cbn [Str.stripCurrency]; now rewrite Hs).
  assert (Hin : Str.includes (String c (Str.stripCurrency d)) ")" = false)
    by (now rewrite includes_close_cons, Hcl).
  rewrite E1, E2, negateParens_head, (negateParens_none _ Hin);
    [| discriminate | assumption].
  rewrite string_app_nil_r. unfold Str.trim.
  change ("-" ++ String c (Str.stripCurrency d))%string
    with (String "-" (String c (Str.stripCurrency d))).
  cbn [Str.trimStart]. rewrite Hw.
  change (Str.isWhite "-") with false. cbv iota.
  rewrite (trimEnd_cons "-") by reflexivity.
  rewrite (trimEnd_cons c) by assumption.
  unfold Num.parseFloatOrZero. rewrite parseFloat_minus, Hpf.
  destruct (Num.unsignedDecimal (String c (Str.trimEnd (Str.stripCurrency d))))
    as [q |]; simpl; [| reflexivity].
  rewrite isZero_opp. destruct (Num.isZero q); reflexivity.
Qed.

Section HierarchicalRows.
Variables numberToString serialDateToLocaleString : Q -> string.

(** One row either leaves the transactions as they are or appends a single
    transaction, whose amount is the parsed amount cell and is not zero. *)
Lemma processRow_cases (cols : Columns) (i : nat) (row : list cell)
    (st : LoopState) :
  transactions (processRow numberToString serialDateToLocaleString cols i (Some row) st) = transactions st
  \/ exists t,
       transactions (processRow numberToString serialDateToLocaleString cols i (Some row) st) = transactions st ++ [t]
       /\ Transaction.amount t = parseAmount (cellAt row (amountColIdx cols) CNull)
       /\ ~ Transaction.amount t == 0
       /\ Transaction.accountName t = currentAccountName st.
Proof.
  unfold processRow.
  destruct (match Js.index row 0 with
            | CStr s =>
                if (Js.truthy (Js.index row 0) && negb (Str.isEmpty (Str.trim s)))%bool
                then Some (Str.trim s) else None
            | _ => None
            end) as [firstColStr |].
  - left. now destruct (negb (Str.startsWith (Str.toLowerCase firstColStr) "total")).
  - destruct (Js.isBlank (cellAt row (amountColIdx cols) CNull)); [now left|].
    destruct (Str.includes _ "beginning balance"); [now left|].
    destruct (Num.isZero (parseAmount (cellAt row (amountColIdx cols) CNull))) eqn:Ez;
      [now left|].
    right. destruct (generateId (world st)) as [newId w']. simpl.
    eexists. split; [reflexivity|]. simpl. repeat split.
    intro Hz. apply isZero_spec in Hz. congruence.
Qed.

Lemma processRow_keeps_nonzero (cols : Columns) (i : nat)
    (r : option (list cell)) (st : LoopState) :
  Forall (fun t => ~ Transaction.amount t == 0) (transactions st) ->
  Forall (fun t => ~ Transaction.amount t == 0)
         (transactions (processRow numberToString serialDateToLocaleString cols i r st)).
Proof.
  intro H. destruct r as [row |]; [| exact H].
  destruct (processRow_cases cols i row st) as [E | (t & E & _ & Hnz & _)];
    rewrite E; [assumption|].
  apply Forall_app. split; [assumption | now repeat constructor].
Qed.

Lemma dataLoop_keeps_nonzero (cols : Columns) (rows : list (option (list cell))) :
  forall i st,
    Forall (fun t => ~ Transaction.amount t == 0) (transactions st) ->
    Forall (fun t => ~ Transaction.amount t == 0)
           (transactions (dataLoop numberToString serialDateToLocaleString cols i rows st)).
Proof.
  induction rows as [| r rest IH]; intros i st H; simpl.
  - exact H.
  - apply IH. now apply processRow_keeps_nonzero.
Qed.

(** The loop's test for a banner row, in terms of [isBannerRow]. *)
Lemma banner_test (row : list cell) :
  match Js.index row 0 with
  | CStr s =>
      if (Js.truthy (Js.index row 0) && negb (Str.isEmpty (Str.trim s)))%bool
      then Some (Str.trim s) else None
  | _ => None
  end
  = match Js.index row 0 with
    | CStr s => if isBannerRow row then Some (Str.trim s) else None
    | _ => None
    end.
Proof.
  unfold isBannerRow. destruct (Js.index row 0) as [| | b | q | s]; try reflexivity.
  destruct s as [| c r]; reflexivity.
Qed.

Lemma isBannerRow_string (row : list cell) :
  isBannerRow row = true -> exists s, Js.index row 0 = CStr s.
Proof.
  unfold isBannerRow. destruct (Js.index row 0) as [| | b | q | s]; try discriminate.
  intros _. now exists s.
Qed.

(** A row that contributes an amount appends one transaction, which carries
    that amount, the current account name and the row's number. *)
Lemma processRow_contributes (cols : Columns) (i : nat) (row : list cell)
    (st : LoopState) (a : Q) :
  amountOfRow numberToString (amountColIdx cols) (dateColIdx cols) row = Some a ->
  exists t,
    transactions (processRow numberToString serialDateToLocaleString cols i (Some row) st)
    = transactions st ++ [t]
    /\ Transaction.amount t = a
    /\ a = parseAmount (cellAt row (amountColIdx cols) CNull)
    /\ Transaction.accountName t = currentAccountName st
    /\ Transaction.extra t = rowIndexField i.
Proof.
  unfold amountOfRow, processRow. rewrite banner_test.
  destruct (isBannerRow row) eqn:Eb; [discriminate|].
  replace (match Js.index row 0 with CStr _ => None | _ => None end)
    with (@None string) by (now destruct (Js.index row 0)).
  destruct (amountColIdx cols) as [c |]; [| discriminate].
  cbn [cellAt].
  destruct (Js.isBlank (Js.index row c)); [discriminate|].
  replace (toString numberToString (cellAt row (dateColIdx cols) (CStr "")))
    with (match dateColIdx cols with
          | Some d => toString numberToString (Js.index row d)
          | None => ""%string
          end) by (now destruct (dateColIdx cols)).
  destruct (Str.includes _ "beginning balance"); [discriminate|].
  destruct (Num.isZero (parseAmount (Js.index row c))); [discriminate|].
  intro H. injection H as <-. unfold generateId.
  eexists. split; [reflexivity|]. repeat split.
Qed.

(** A row that contributes no amount leaves the transactions as they are. *)
Lemma processRow_skips (cols : Columns) (i : nat) (row : list cell)
    (st : LoopState) :
  amountOfRow numberToString (amountColIdx cols) (dateColIdx cols) row = None ->
  transactions (processRow numberToString serialDateToLocaleString cols i (Some row) st)
  = transactions st.
Proof.
  unfold amountOfRow, processRow. rewrite banner_test.
  destruct (isBannerRow row) eqn:Eb.
  { intros _. destruct (isBannerRow_string row Eb) as [s ->].
    now destruct (negb (Str.startsWith (Str.toLowerCase (Str.trim s)) "total")). }
  replace (match Js.index row 0 with CStr _ => None | _ => None end)
    with (@None string) by (now destruct (Js.index row 0)).
  destruct (amountColIdx cols) as [c |]; [| reflexivity].
  cbn [cellAt].
  destruct (Js.isBlank (Js.index row c)); [reflexivity|].
  replace (toString numberToString (cellAt row (dateColIdx cols) (CStr "")))
    with (match dateColIdx cols with
          | Some d => toString numberToString (Js.index row d)
          | None => ""%string
          end) by (now destruct (dateColIdx cols)).
  destruct (Str.includes _ "beginning balance"); [reflexivity|].
  destruct (Num.isZero (parseAmount (Js.index row c))); [reflexivity | discriminate].
Qed.

Lemma dataLoop_amounts (cols : Columns) (rows : list (option (list cell))) :
  forall i st,
    map rowAndAmount
        (transactions (dataLoop numberToString serialDateToLocaleString cols i rows st))
    = map rowAndAmount (transactions st)
      ++ map expectedRowAndAmount
           (amountsFrom numberToString (amountColIdx cols) (dateColIdx cols) i rows).
Proof.
  induction rows as [| r rest IH]; intros i st; cbn [dataLoop amountsFrom map].
  - now rewrite app_nil_r.
  - rewrite IH, map_app, app_assoc. f_equal.
    destruct r as [row |]; [| cbn [processRow map]; now rewrite app_nil_r].
    destruct (amountOfRow numberToString (amountColIdx cols) (dateColIdx cols) row)
      as [a |] eqn:Ea.
    + destruct (processRow_contributes cols i row st a Ea)
        as (t & -> & Ht & _ & _ & Hx).
      rewrite map_app. cbn [map]. unfold rowAndAmount at 2, expectedRowAndAmount.
      cbn [fst snd]. now rewrite Ht, Hx.
    + rewrite (processRow_skips cols i row st Ea). cbn [map]. now rewrite app_nil_r.
Qed.

End HierarchicalRows.

Lemma findIndex_ext {A : Type} (p q : A -> bool) (l : list A) :
  (forall x, p x = q x) -> Js.findIndex p l = Js.findIndex q l.
Proof.
  intro H. induction l as [| x r IH]; [reflexivity|].
  cbn [Js.findIndex]. now rewrite H, IH.
Qed.

(** The amount and date columns are those headed exactly "amount" and
    "date". *)
Lemma resolveColumns_positions (headers : list string) :
  amountColIdx (resolveColumns headers) = headerPosition headers "amount"
  /\ dateColIdx (resolveColumns headers) = headerPosition headers "date".
Proof.
  unfold resolveColumns, headerPosition. cbn [amountColIdx dateColIdx].
  assert (Hnamed : forall name h, name <> ""%string ->
            (negb (Str.isEmpty h) && String.eqb h name)%bool = String.eqb h name).
  { intros name h Hne. destruct (String.eqb_spec h name) as [-> | _];
      [| apply andb_false_r].
    destruct name; [congruence | reflexivity]. }
  split; apply findIndex_ext; intro h; apply Hnamed; discriminate.
Qed.

(** C8. Amount cells in hierarchical GL parsing: a number is taken as it is;
    in a string every ["$"] and [","] is dropped and a leading parenthesised
    text [(x)] becomes [-x] before [parseFloat], so that a parenthesised
    amount starting with a digit is negated, ["$1,234.50"] gives [1234.50]
    and ["(500)"] gives [-500]; a string that does not parse gives [0].  A
    row whose parsed amount is zero adds no transaction, and a row that
    contributes an amount adds exactly one, carrying that amount: below a
    header row with the columns "date" and "amount", the returned
    transactions are, in order, the rows that are not banners, have an
    amount cell, are not beginning balances and parse to a non-zero amount,
    each with its row number and its parsed amount; so no returned
    transaction has amount zero.  The eight-row ledger [shortLedger] yields
    300 and -50 for Utilities and 1234.5 for Rent. *)
Theorem parseHierarchicalGL_amounts
    (numberToString serialDateToLocaleString : Q -> string) :
  (forall q, parseAmount (CNum q) = q)
  /\ (forall pre post,
        parseAmount (CStr (pre ++ "$" ++ post)) = parseAmount (CStr (pre ++ post))
        /\ parseAmount (CStr (pre ++ "," ++ post)) = parseAmount (CStr (pre ++ post)))
  /\ (forall inner post,
        inner <> "" -> Str.includes inner ")" = false ->
        Str.negateParens ("(" ++ inner ++ ")" ++ post) = ("-" ++ inner ++ post)%string)
  /\ (forall c d,
        Str.isDigit c = true -> Str.includes d ")" = false ->
        parseAmount (CStr ("(" ++ String c d ++ ")"))
        == - parseAmount (CStr (String c d)))
  /\ parseAmount (CStr "$1,234.50") == 1234.50
  /\ parseAmount (CStr "(500)") == - inject_Z 500
  /\ (forall s,
        Num.parseFloat (Str.trim (Str.negateParens (Str.stripCurrency s))) = None ->
        parseAmount (CStr s) = 0)
  /\ (forall cols i row st,
        parseAmount (cellAt row (amountColIdx cols) CNull) == 0 ->
        transactions
          (processRow numberToString serialDateToLocaleString cols i (Some row) st)
        = transactions st)
  /\ (forall w rawData,
        Forall (fun t => ~ Transaction.amount t == 0)
               (returned (parseHierarchicalGL numberToString
                            serialDateToLocaleString w rawData)))
  /\ (forall cols i row st a,
        amountOfRow numberToString (amountColIdx cols) (dateColIdx cols) row = Some a ->
        exists t,
          transactions
            (processRow numberToString serialDateToLocaleString cols i (Some row) st)
          = transactions st ++ [t]
          /\ Transaction.amount t = a
          /\ a = parseAmount (cellAt row (amountColIdx cols) CNull)
          /\ Transaction.accountName t = currentAccountName st
          /\ Transaction.extra t = rowIndexField i)
  /\ (forall w rawData k headers,
        findHeader numberToString rawData = Some (k, headers) ->
        map rowAndAmount
            (returned (parseHierarchicalGL numberToString
                         serialDateToLocaleString w rawData))
        = map expectedRowAndAmount
            (amountsFrom numberToString
               (headerPosition headers "amount") (headerPosition headers "date")
               (k + 1) (skipn (k + 1) rawData)))
  /\ (forall w,
        map (fun t => (Transaction.accountName t, Transaction.amount t))
            (returned (parseHierarchicalGL numberToString
                         serialDateToLocaleString w shortLedger))
        = [ ("Utilities", inject_Z 300);
            ("Utilities", - inject_Z 50);
            ("Rent", 2469 # 2) ]).
Proof.
  split; [reflexivity|].
  split.
  { intros pre post. unfold parseAmount, parseAmountString.
    rewrite !stripCurrency_app. split; reflexivity. }
  split; [exact negateParens_head|].
  split; [exact parseAmountString_parens|].
  split; [reflexivity|].
  split; [reflexivity|].
  split.
  { intros s H. unfold parseAmount, parseAmountString, Num.parseFloatOrZero.
    now rewrite H. }
  split.
  { intros cols i row st Hz.
    destruct (processRow_cases numberToString serialDateToLocaleString cols i row st)
      as [E | (t & _ & Ha & Hnz & _)]; [assumption|].
    rewrite Ha in Hnz. contradiction. }
  split.
  { intros w rawData. unfold parseHierarchicalGL.
    destruct (findHeader numberToString rawData) as [[k headers] |]; simpl.
    - apply dataLoop_keeps_nonzero. constructor.
    - constructor. }
  split; [exact (processRow_contributes numberToString serialDateToLocaleString)|].
  split.
  { intros w rawData k headers Eh. unfold parseHierarchicalGL. rewrite Eh.
    cbn [returned]. rewrite dataLoop_amounts.
    destruct (resolveColumns_positions headers) as [-> ->]. reflexivity. }
  intro w. reflexivity.
Qed.

Lemma parseHierarchicalGL_amounts_witness :
  parseAmount (CStr "(42.5)") == - parseAmount (CStr "42.5")
  /\ parseAmount (CStr "n/a") = 0
  /\ Forall (fun t => ~ Transaction.amount t == 0)
            (returned (parseHierarchicalGL plainNumber plainNumber morningWorld
                         shortLedger))
  /\ map rowAndAmount
         (returned (parseHierarchicalGL plainNumber plainNumber morningWorld
                      extremeLedger))
     = [ (rowIndexField 2, Num.infinity);
         (rowIndexField 3, - Num.infinity);
         (rowIndexField 5, 3602879701896397 # 36028797018963968) ].
Proof.
  destruct (parseHierarchicalGL_amounts plainNumber plainNumber)
    as (_ & _ & _ & Hneg & _ & _ & Hnan & _ & Hnz & _ & Hrows & _).
  split; [| split; [| split]].
  - apply (Hneg "4"%char "2.5"); reflexivity.
  - apply Hnan. reflexivity.
  - apply Hnz.
  - rewrite (Hrows morningWorld extremeLedger 0%nat
               [""; "date"; "amount"]%string eq_refl).
    vm_compute. reflexivity.
Defined.

(** An amount written [Infinity], or too large for a double, is kept as an
    infinite amount; one too small for a double is zero and its row is
    dropped. *)
Example parseHierarchicalGL_extreme :
  map (fun t => (Transaction.accountName t, Transaction.amount t))
      (returned (parseHierarchicalGL plainNumber plainNumber morningWorld extremeLedger))
  = [ ("Reserves", Num.infinity);
      ("Reserves", - Num.infinity);
      ("Reserves", 3602879701896397 # 36028797018963968) ].
Proof. vm_compute. reflexivity. Qed.

(** ** Column mapper *)

Section ColumnMapper.
Variable numberToString : Q -> string.

Lemma toString_or_str (s : string) :
  toString numberToString (Js.or (CStr s) (CStr "")) = s.
Proof. now destruct s. Qed.

Lemma toStringOrEmpty_optional (o : option string) :
  toStringOrEmpty numberToString (Js.prop [("p", Transaction.optional o)] "p")
  = orEmpty o.
Proof. destruct o as [[| c r] |]; reflexivity. Qed.

Lemma parseRow_extra (m : ColumnMapping.t) (w : World.t)
    (row : list (string * cell)) (i : nat) :
  Transaction.extra (fst (parseRow numberToString m w row i))
  = [("_rowIndex", CNum (inject_Z (Z.of_nat i + 1)))].
Proof. reflexivity. Qed.

Lemma columnMapping_asRecord (t : Transaction.t) (v : cell) :
  Transaction.extra t = [("_rowIndex", v)] ->
  columnMapping (Transaction.asRecord t) = normalizedMapping.
Proof.
  intro H. unfold columnMapping, Transaction.asRecord, Js.keys.
  rewrite H. reflexivity.
Qed.

Lemma parseRow_asRecord (w : World.t) (t : Transaction.t) (i : nat) :
  Transaction.extra t = [("_rowIndex", CNum (inject_Z (Z.of_nat i + 1)))] ->
  remappedFrom t
    (fst (parseRow numberToString normalizedMapping w (Transaction.asRecord t) i)).
Proof.
  destruct t as [tid tdate tnum tname tdesc tamount tref tvendor textra].
  simpl. intros ->. unfold remappedFrom, parseRow. cbn.
  rewrite !toString_or_str.
  repeat split.
  - f_equal. apply (toStringOrEmpty_optional tref).
  - f_equal. apply (toStringOrEmpty_optional tvendor).
Qed.

Lemma parseRows_again (m : ColumnMapping.t)
    (data : list (list (string * cell))) :
  forall (w w' : World.t) (i : nat),
    Forall2 remappedFrom
      (fst (parseRows numberToString m w data i))
      (fst (parseRows numberToString normalizedMapping w'
              (map Transaction.asRecord (fst (parseRows numberToString m w data i)))
              i)).
Proof.
  induction data as [| row rest IH]; intros w w' i.
  - constructor.
  - cbn [parseRows].
    pose proof (parseRow_extra m w row i) as Hextra.
    destruct (parseRow numberToString m w row i) as [t w1]. cbn [fst] in Hextra.
    specialize (IH w1).
    destruct (parseRows numberToString m w1 rest (S i)) as [ts w2] eqn:Ets.
    cbn [fst map parseRows] in *.
    pose proof (parseRow_asRecord w' t i Hextra) as Hrow.
    destruct (parseRow numberToString normalizedMapping w' (Transaction.asRecord t) i)
      as [t2 w1'].
    specialize (IH w1' (S i)). rewrite Ets in IH. cbn [fst] in IH.
    destruct (parseRows numberToString normalizedMapping w1'
                (map Transaction.asRecord ts) (S i)) as [ts2 w2'].
    cbn [fst] in *. now constructor.
Qed.

End ColumnMapper.

Lemma parseRawData_cons (numberToString : Q -> string) (w : World.t)
    (sampleRow : list (string * cell)) (rest : list (list (string * cell))) :
  parseRawData numberToString w (sampleRow :: rest)
  = parseRows numberToString (columnMapping sampleRow) w (sampleRow :: rest) 0.
Proof. reflexivity. Qed.

(** C6 does not hold as stated: mapped a second time, the export's records
    take their account name from the memo. *)
Lemma parseRawData_not_idempotent :
  map Transaction.accountName (fst (parseRawData plainNumber morningWorld flatExport))
  = ["Rent"; "Fuel"]
  /\ map Transaction.accountName
       (fst (parseRawData plainNumber morningWorld
               (map Transaction.asRecord
                  (fst (parseRawData plainNumber morningWorld flatExport)))))
     = ["January"; ""]
  /\ fst (parseRawData plainNumber morningWorld
            (map Transaction.asRecord
               (fst (parseRawData plainNumber morningWorld flatExport))))
     <> fst (parseRawData plainNumber morningWorld flatExport).
Proof.
  split; [reflexivity | split; [reflexivity | vm_compute; discriminate]].
Qed.

Lemma parseRawData_remapped
    (numberToString : Q -> string) (w w' : World.t)
    (data : list (list (string * cell))) :
  Forall2 remappedFrom
    (fst (parseRawData numberToString w data))
    (fst (parseRawData numberToString w'
            (map Transaction.asRecord (fst (parseRawData numberToString w data))))).
Proof.
  destruct data as [| sampleRow rest]; [constructor|].
  rewrite !(parseRawData_cons numberToString w).
  pose proof (parseRows_again numberToString (columnMapping sampleRow)
                (sampleRow :: rest) w w' 0) as H.
  destruct (fst (parseRows numberToString (columnMapping sampleRow) w
                   (sampleRow :: rest) 0)) as [| t ts] eqn:E.
  - constructor.
  - assert (Ht : Transaction.extra t = [("_rowIndex", CNum (inject_Z (Z.of_nat 0 + 1)))]).
    { cbn [parseRows] in E.
      pose proof (parseRow_extra numberToString (columnMapping sampleRow) w sampleRow 0) as Hx.
      destruct (parseRow numberToString (columnMapping sampleRow) w sampleRow 0) as [t' w1].
      destruct (parseRows numberToString (columnMapping sampleRow) w1 rest 1) as [ts' w2].
      cbn [fst] in *. inversion E; subst. exact Hx. }
    cbn [map]. rewrite parseRawData_cons.
    rewrite (columnMapping_asRecord t _ Ht). exact H.
Qed.

(** A record mapped twice over is, its id apart, what it was after the first
    of the two. *)
Lemma remappedFrom_settles (t1 t2 t3 : Transaction.t) :
  remappedFrom t1 t2 -> remappedFrom t2 t3 ->
  Transaction.withId t3 (Transaction.id t2) = t2.
Proof.
  destruct t1 as [i1 d1 n1 a1 m1 q1 r1 v1 x1],
           t2 as [i2 d2 n2 a2 m2 q2 r2 v2 x2],
           t3 as [i3 d3 n3 a3 m3 q3 r3 v3 x3].
  unfold remappedFrom, Transaction.withId. simpl.
  intros (E1 & E2 & E3 & E4 & E5 & E6 & E7 & E8)
         (F1 & F2 & F3 & F4 & F5 & F6 & F7 & F8).
  subst. reflexivity.
Qed.

Lemma Forall2_settles (l1 l2 : list Transaction.t) :
  Forall2 remappedFrom l1 l2 ->
  forall l3, Forall2 remappedFrom l2 l3 ->
    Forall2 (fun t2 t3 => Transaction.withId t3 (Transaction.id t2) = t2) l2 l3.
Proof.
  induction 1 as [| t1 t2 r1 r2 H12 _ IH]; intros l3 H23;
    inversion H23; subst; constructor.
  - now apply remappedFrom_settles with t1.
  - now apply IH.
Qed.

(** C6, amended. Mapping the normalized records again keeps, record by
    record, the date, the account number, the description, the amount and
    the row index; it sets the account name to the record's description,
    turns an absent reference or vendor into the empty string, and draws
    new ids.  From then on mapping changes nothing but the ids.  The empty
    data set maps to the empty list. *)
Theorem parseRawData_again
    (numberToString : Q -> string) (w w' w'' : World.t)
    (data : list (list (string * cell))) :
  let once := fst (parseRawData numberToString w data) in
  let twice :=
    fst (parseRawData numberToString w' (map Transaction.asRecord once)) in
  let thrice :=
    fst (parseRawData numberToString w'' (map Transaction.asRecord twice)) in
  Forall2 remappedFrom once twice
  /\ Forall2 (fun t2 t3 => Transaction.withId t3 (Transaction.id t2) = t2)
             twice thrice
  /\ fst (parseRawData numberToString w []) = [].
Proof.
  intros once twice thrice. split; [| split; [| reflexivity]].
  - apply parseRawData_remapped.
  - apply Forall2_settles with once.
    + apply parseRawData_remapped.
    + apply parseRawData_remapped.
Qed.

Example parseRawData_flatExport_twice :
  map (fun t => (Transaction.accountName t, Transaction.description t,
                 Transaction.reference t))
      (fst (parseRawData plainNumber eveningWorld
              (map Transaction.asRecord
                 (fst (parseRawData plainNumber morningWorld flatExport)))))
  = [("January", "January", Some ""); ("", "", Some "")].
Proof. reflexivity. Qed.

(** * Further properties of the engine *)

(** ** Sums and ordered lists *)

Section Totals.
Context {V : Type} (f : V -> Q).
Hypothesis f_nonneg : forall v, 0 <= f v.

Lemma total_app (l1 l2 : list V) : total f (l1 ++ l2) == total f l1 + total f l2.
Proof.
  induction l1 as [| x r IH]; simpl.
  - ring.
  - rewrite IH. ring.
Qed.

Lemma total_nonneg (l : list V) : 0 <= total f l.
Proof.
  induction l as [| x r IH]; simpl.
  - apply Qle_refl.
  - rewrite <- (Qplus_0_r 0). apply Qplus_le_compat; [apply f_nonneg | exact IH].
Qed.

Lemma total_perm (l l' : list V) : Permutation l l' -> total f l == total f l'.
Proof.
  induction 1 as [| x l l' _ IH | x y l | l l' l'' _ IH1 _ IH2]; simpl.
  - reflexivity.
  - now rewrite IH.
  - ring.
  - now rewrite IH1.
Qed.

Lemma total_firstn_le (k : nat) (l : list V) : total f (firstn k l) <= total f l.
Proof.
  rewrite <- (firstn_skipn k l) at 2. rewrite total_app.
  rewrite <- (Qplus_0_r (total f (firstn k l))) at 1.
  apply Qplus_le_compat; [apply Qle_refl | apply total_nonneg].
Qed.

Lemma total_filter_split (p : V -> bool) (l : list V) :
  total f (filter p l) + total f (filter (fun v => negb (p v)) l) == total f l.
Proof.
  rewrite <- total_app. apply total_perm, filter_split_perm.
Qed.

Lemma total_filter_le (p q : V -> bool) (l : list V) :
  (forall v, In v l -> p v = true -> q v = true) ->
  total f (filter p l) <= total f (filter q l).
Proof.
  induction l as [| x r IH]; intro H; simpl.
  - apply Qle_refl.
  - assert (IH' : total f (filter p r) <= total f (filter q r))
      by (apply IH; intros v Hv; apply H; now right).
    destruct (p x) eqn:Ep.
    + rewrite (H x (or_introl eq_refl) Ep). simpl.
      apply Qplus_le_compat; [apply Qle_refl | exact IH'].
    + destruct (q x); simpl; [| exact IH'].
      rewrite <- (Qplus_0_l (total f (filter p r))).
      apply Qplus_le_compat; [apply f_nonneg | exact IH'].
Qed.

End Totals.

Lemma total_map {U V : Type} (g : U -> V) (f : V -> Q) (l : list U) :
  total f (map g l) = total (fun u => f (g u)) l.
Proof. induction l as [| x r IH]; simpl; [reflexivity | now rewrite IH]. Qed.

Lemma sumBy_total {V : Type} (f : V -> Q) (l : list V) :
  Lodash.sumBy l f == total f l.
Proof. apply sumBy_fold_right. Qed.

Section OrderedLists.
Context {A : Type} (R : A -> A -> Prop).

Lemma StronglySorted_filter (p : A -> bool) (l : list A) :
  StronglySorted R l -> StronglySorted R (filter p l).
Proof.
  induction 1 as [| x r Hs IH Hall]; simpl; [constructor|].
  destruct (p x); [| exact IH].
  constructor; [exact IH|].
  rewrite Forall_forall in *. intros y Hy. apply filter_In in Hy. now apply Hall.
Qed.

Lemma StronglySorted_firstn (k : nat) (l : list A) :
  StronglySorted R l -> StronglySorted R (firstn k l).
Proof.
  intro H. revert k. induction H as [| x r Hs IH Hall]; intros [| k]; simpl;
    try constructor.
  - apply IH.
  - rewrite Forall_forall in *. intros y Hy. apply Hall. now apply In_firstn in Hy.
Qed.

Lemma StronglySorted_app (l1 l2 : list A) :
  StronglySorted R l1 -> StronglySorted R l2 ->
  (forall a b, In a l1 -> In b l2 -> R a b) ->
  StronglySorted R (l1 ++ l2).
Proof.
  induction 1 as [| x r Hs IH Hall]; intros H2 Hcross; simpl; [exact H2|].
  constructor.
  - apply IH; [exact H2|]. intros a b Ha Hb. apply Hcross; [now right | exact Hb].
  - rewrite Forall_forall in *. intros y Hy. apply in_app_or in Hy.
    destruct Hy as [Hy | Hy]; [now apply Hall | apply Hcross; [now left | exact Hy]].
Qed.

End OrderedLists.

(** In a list ordered from the largest key down, the elements above a
    threshold come first. *)
Lemma descending_split {A : Type} (key : A -> Q) (bound : Q) (l : list A) :
  StronglySorted (fun a b => key b <= key a) l ->
  filter (fun a => Num.gt (key a) bound) l
  ++ filter (fun a => negb (Num.gt (key a) bound)) l = l.
Proof.
  induction 1 as [| x r Hs IH Hall]; simpl; [reflexivity|].
  destruct (Num.gt (key x) bound) eqn:E; simpl.
  - now rewrite IH.
  - apply gt_false_le in E.
    assert (Hlow : forall y, In y r -> Num.gt (key y) bound = false).
    { intros y Hy. apply gt_false_le. rewrite Forall_forall in Hall.
      apply Qle_trans with (key x); [now apply Hall | exact E]. }
    rewrite (filter_nil_when _ r Hlow). simpl. f_equal.
    apply filter_all. intros y Hy. now rewrite (Hlow y Hy).
Qed.

Lemma NoDup_app_disjoint {A : Type} (l1 l2 : list A) (x : A) :
  NoDup (l1 ++ l2) -> In x l1 -> ~ In x l2.
Proof.
  induction l1 as [| a r IH]; simpl; intros Hnd Hin; [contradiction|].
  apply NoDup_cons_iff in Hnd. destruct Hnd as [Hfresh Hnd].
  destruct Hin as [-> | Hin]; [| now apply IH].
  intro Hc. apply Hfresh. apply in_or_app. now right.
Qed.

(** ** Sample selector: shape of the result *)

Section Selection.
Variables (accountGroup : AccountGroup.t) (config : SamplingConfig.t).

Let n := SamplingConfig.sampleSize config.
Let scope := SamplingConfig.testingScope config.
Let sorted :=
  Lodash.orderByDesc (AccountGroup.transactions accountGroup)
    (fun t => Qabs (Transaction.amount t)).
Let over := filter (fun t => Num.gt (Qabs (Transaction.amount t)) scope) sorted.
Let first := map (sampleOf accountGroup OVER_SCOPE) (firstn (Z.to_nat n) over).
Let remaining :=
  filter (fun t => negb (setHas (map SelectedSample.id first) (Transaction.id t)))
         sorted.

(** The two phases of the selection, each a prefix of what it walks. *)
Lemma selectSamplesFromAccount_phases :
  selectSamplesFromAccount accountGroup config
  = first
    ++ (if (Z.of_nat (List.length first) <? n)%Z
        then map (sampleOf accountGroup HIGH_VALUE_KEY_ITEM)
               (firstn (Z.to_nat (n - Z.of_nat (List.length first))) remaining)
        else []).
Proof.
  unfold selectSamplesFromAccount. fold n scope sorted over.
  rewrite (selectLoop_firstn accountGroup n OVER_SCOPE over []).
  cbn [app List.length Z.of_nat]. rewrite Z.sub_0_r. fold first.
  destruct (Z.of_nat (List.length first) <? n)%Z.
  - rewrite selectLoop_firstn. reflexivity.
  - now rewrite app_nil_r.
Qed.

Lemma first_length : List.length first = Nat.min (Z.to_nat n) (List.length over).
Proof. unfold first. now rewrite length_map, length_firstn. Qed.

(** When the first phase leaves room it has taken every over-scope
    transaction. *)
Lemma first_all :
  (Z.of_nat (List.length first) < n)%Z -> firstn (Z.to_nat n) over = over.
Proof.
  intro H. apply firstn_all2. pose proof first_length. lia.
Qed.

Lemma remaining_not_over (t : Transaction.t) :
  (Z.of_nat (List.length first) < n)%Z ->
  In t remaining -> Qabs (Transaction.amount t) <= scope.
Proof.
  intros Hroom Ht. apply filter_In in Ht. destruct Ht as [Hin Hno].
  apply negb_true_iff in Hno. apply gt_false_le.
  destruct (Num.gt (Qabs (Transaction.amount t)) scope) eqn:E; [|reflexivity].
  assert (Hc : setHas (map SelectedSample.id first) (Transaction.id t) = true).
  { apply setHas_spec. unfold first. rewrite map_map, (first_all Hroom).
    apply (in_map Transaction.id). apply filter_In. now split. }
  congruence.
Qed.

Let rest := filter (fun t => negb (Num.gt (Qabs (Transaction.amount t)) scope)) sorted.

Lemma sorted_split : over ++ rest = sorted.
Proof.
  unfold over, rest.
  apply (descending_split (fun t => Qabs (Transaction.amount t)) scope sorted).
  apply orderByDesc_sorted.
Qed.

Lemma sorted_perm : Permutation sorted (AccountGroup.transactions accountGroup).
Proof. apply orderByDesc_perm. Qed.

(** With distinct ids, what the first phase leaves for the second is the
    part of the sorted list that is not over scope. *)
Lemma remaining_rest :
  NoDup (map Transaction.id (AccountGroup.transactions accountGroup)) ->
  (Z.of_nat (List.length first) < n)%Z -> remaining = rest.
Proof.
  intros Hids Hroom.
  assert (Hsorted : NoDup (map Transaction.id (over ++ rest))).
  { rewrite sorted_split.
    apply Permutation_NoDup
      with (map Transaction.id (AccountGroup.transactions accountGroup));
      [| exact Hids].
    apply Permutation_map, Permutation_sym, sorted_perm. }
  assert (Hfirst : map SelectedSample.id first = map Transaction.id over).
  { unfold first. rewrite map_map, (first_all Hroom). reflexivity. }
  unfold remaining. rewrite Hfirst, <- sorted_split, filter_app.
  rewrite filter_nil_when, filter_all; [reflexivity | |].
  - intros t Ht. apply negb_true_iff.
    destruct (setHas (map Transaction.id over) (Transaction.id t)) eqn:E;
      [| reflexivity].
    apply setHas_spec in E. rewrite map_app in Hsorted.
    exfalso. apply (NoDup_app_disjoint _ _ _ Hsorted E). now apply in_map.
  - intros t Ht. apply negb_false_iff, setHas_spec. now apply in_map.
Qed.

Lemma selected_top :
  NoDup (map Transaction.id (AccountGroup.transactions accountGroup)) ->
  selectSamplesFromAccount accountGroup config
  = map (fun t => sampleOf accountGroup (reasonFor scope t) t)
        (firstn (Z.to_nat n) sorted).
Proof.
  intro Hids. rewrite selectSamplesFromAccount_phases.
  rewrite <- sorted_split, firstn_app, map_app. f_equal.
  - unfold first. apply map_ext_in. intros t Ht. apply In_firstn in Ht.
    unfold over in Ht. apply filter_In in Ht. unfold reasonFor, absAmount.
    now rewrite (proj2 Ht).
  - pose proof first_length as Hlen.
    destruct (Z.of_nat (List.length first) <? n)%Z eqn:Eroom.
    + apply Z.ltb_lt in Eroom. rewrite (remaining_rest Hids Eroom).
      replace (Z.to_nat (n - Z.of_nat (List.length first)))
        with (Z.to_nat n - List.length over)%nat by lia.
      apply map_ext_in. intros t Ht. apply In_firstn in Ht.
      unfold rest in Ht. apply filter_In in Ht. unfold reasonFor, absAmount.
      destruct Ht as [_ Ht]. apply negb_true_iff in Ht. now rewrite Ht.
    + apply Z.ltb_ge in Eroom.
      replace (Z.to_nat n - List.length over)%nat with 0%nat by lia.
      reflexivity.
Qed.

(** X2. The samples of an account come out ordered by [|amount|] from the
    largest down, whatever the ids, and every [OVER_SCOPE] sample precedes
    every [HIGH_VALUE_KEY_ITEM] sample: the result is a run of samples
    tagged [OVER_SCOPE], each above the testing scope, followed by a run
    tagged [HIGH_VALUE_KEY_ITEM], each at or below it. *)
Theorem selectSamplesFromAccount_descending :
  StronglySorted
    (fun a b => Qabs (SelectedSample.amount b) <= Qabs (SelectedSample.amount a))
    (selectSamplesFromAccount accountGroup config)
  /\ exists overScope highValue,
       selectSamplesFromAccount accountGroup config = overScope ++ highValue
       /\ Forall (fun s => SelectedSample.selectionReason s = OVER_SCOPE
                           /\ SamplingConfig.testingScope config
                              < Qabs (SelectedSample.amount s))
                 overScope
       /\ Forall (fun s => SelectedSample.selectionReason s = HIGH_VALUE_KEY_ITEM
                           /\ Qabs (SelectedSample.amount s)
                              <= SamplingConfig.testingScope config)
                 highValue.
Proof.
  rewrite selectSamplesFromAccount_phases.
  assert (Hsorted : StronglySorted
            (fun a b => Qabs (Transaction.amount b) <= Qabs (Transaction.amount a))
            sorted) by apply orderByDesc_sorted.
  assert (Hfirst : forall s, In s first ->
            SelectedSample.selectionReason s = OVER_SCOPE
            /\ scope < Qabs (SelectedSample.amount s)).
  { intros s Hs. unfold first in Hs. apply in_map_iff in Hs.
    destruct Hs as (t & <- & Ht). apply In_firstn in Ht.
    unfold over in Ht. apply filter_In in Ht.
    split; [reflexivity | now apply gt_spec]. }
  assert (Hsecond : forall s,
            In s (if (Z.of_nat (List.length first) <? n)%Z
                  then map (sampleOf accountGroup HIGH_VALUE_KEY_ITEM)
                         (firstn (Z.to_nat (n - Z.of_nat (List.length first)))
                            remaining)
                  else []) ->
            SelectedSample.selectionReason s = HIGH_VALUE_KEY_ITEM
            /\ Qabs (SelectedSample.amount s) <= scope).
  { intros s Hs.
    destruct (Z.of_nat (List.length first) <? n)%Z eqn:Eroom; [| contradiction].
    apply Z.ltb_lt in Eroom. apply in_map_iff in Hs.
    destruct Hs as (t & <- & Ht). apply In_firstn in Ht.
    split; [reflexivity | exact (remaining_not_over t Eroom Ht)]. }
  split.
  - apply StronglySorted_app.
    + unfold first. apply StronglySorted_map, StronglySorted_firstn.
      unfold over. now apply StronglySorted_filter.
    + destruct (Z.of_nat (List.length first) <? n)%Z; [| constructor].
      apply StronglySorted_map, StronglySorted_firstn.
      unfold remaining. now apply StronglySorted_filter.
    + intros a b Ha Hb. apply Qle_trans with scope.
      * exact (proj2 (Hsecond b Hb)).
      * apply Qlt_le_weak. exact (proj2 (Hfirst a Ha)).
  - eexists first, _. split; [reflexivity|].
    split; apply Forall_forall; assumption.
Qed.

Lemma selected_empty_iff :
  selectSamplesFromAccount accountGroup config = []
  <-> (n <= 0)%Z \/ AccountGroup.transactions accountGroup = [].
Proof.
  rewrite selectSamplesFromAccount_phases. pose proof first_length as Hlen.
  split.
  - intro H. apply app_eq_nil in H. destruct H as [H1 H2].
    destruct (Z_le_gt_dec n 0) as [Hn | Hn]; [now left | right].
    rewrite H1 in *. cbn [List.length Z.of_nat] in *.
    assert (Hroom : (0 <? n)%Z = true) by (apply Z.ltb_lt; lia).
    rewrite Hroom in H2. apply map_eq_nil in H2.
    unfold remaining in H2. rewrite H1 in H2. cbn [map] in H2.
    rewrite filter_all in H2 by (intros; reflexivity).
    assert (Hs : sorted = [] \/ exists t r, sorted = t :: r)
      by (destruct sorted; eauto).
    destruct Hs as [Es | (t & r & Es)].
    + pose proof sorted_perm as Hp. rewrite Es in Hp.
      now apply Permutation_nil in Hp.
    + rewrite Es in H2.
      replace (Z.to_nat (n - 0)) with (S (Z.to_nat (n - 1))) in H2 by lia.
      discriminate H2.
  - intros [Hn | Hnil].
    + assert (E : first = []).
      { unfold first. replace (Z.to_nat n) with 0%nat by lia. reflexivity. }
      rewrite E. cbn [List.length Z.of_nat app].
      assert (Hroom : (0 <? n)%Z = false) by (apply Z.ltb_ge; lia).
      now rewrite Hroom.
    + assert (Es : sorted = []).
      { apply Permutation_nil. rewrite <- Hnil. apply Permutation_sym, sorted_perm. }
      assert (Eo : over = []) by (unfold over; now rewrite Es).
      assert (E : first = []) by (unfold first; rewrite Eo; now rewrite firstn_nil).
      assert (Er : remaining = []) by (unfold remaining; now rewrite Es).
      rewrite E, Er. rewrite firstn_nil. cbn [app map].
      now destruct (Z.of_nat (List.length (@nil SelectedSample.t)) <? n)%Z.
Qed.

Lemma selected_value_le :
  total (fun s => Qabs (SelectedSample.amount s))
        (selectSamplesFromAccount accountGroup config)
  <= total absAmount (AccountGroup.transactions accountGroup).
Proof.
  assert (Hnn : forall t, 0 <= absAmount t) by (intro t; apply Qabs_nonneg).
  rewrite selectSamplesFromAccount_phases, total_app.
  rewrite <- (total_perm absAmount _ _ sorted_perm).
  rewrite <- (total_filter_split absAmount
                (fun t => Num.gt (Qabs (Transaction.amount t)) scope) sorted).
  fold over rest.
  apply Qplus_le_compat.
  - unfold first. rewrite total_map. apply (total_firstn_le absAmount Hnn).
  - destruct (Z.of_nat (List.length first) <? n)%Z eqn:Eroom.
    + apply Z.ltb_lt in Eroom. rewrite total_map.
      apply Qle_trans with (total absAmount remaining).
      * apply (total_firstn_le absAmount Hnn).
      * unfold remaining, rest. apply (total_filter_le absAmount Hnn).
        intros t Ht Hq. apply negb_true_iff, gt_false_le.
        apply (remaining_not_over t Eroom). unfold remaining.
        apply filter_In. now split.
    + apply (total_nonneg absAmount Hnn).
Qed.


Lemma selected_origin (s : SelectedSample.t) :
  In s (selectSamplesFromAccount accountGroup config) ->
  In (SelectedSample.txn s) (AccountGroup.transactions accountGroup)
  /\ SelectedSample.accountGroup s = AccountGroup.accountName accountGroup
  /\ SelectedSample.groupTotalBalance s = AccountGroup.totalBalance accountGroup.
Proof.
  rewrite selectSamplesFromAccount_phases. intro Hs.
  assert (Hgen : forall r k l,
            (forall t, In t l -> In t sorted) ->
            In s (map (sampleOf accountGroup r) (firstn k l)) ->
            In (SelectedSample.txn s) (AccountGroup.transactions accountGroup)
            /\ SelectedSample.accountGroup s = AccountGroup.accountName accountGroup
            /\ SelectedSample.groupTotalBalance s
               = AccountGroup.totalBalance accountGroup).
  { intros r k l Hl Hin. apply in_map_iff in Hin. destruct Hin as (t & <- & Ht).
    apply In_firstn, Hl in Ht. repeat split.
    exact (Permutation_in _ sorted_perm Ht). }
  apply in_app_or in Hs. destruct Hs as [Hs | Hs].
  - apply (Hgen OVER_SCOPE (Z.to_nat n) over); [| exact Hs].
    intros t Ht. unfold over in Ht. now apply filter_In in Ht.
  - destruct (Z.of_nat (List.length first) <? n)%Z; [| contradiction].
    apply (Hgen HIGH_VALUE_KEY_ITEM
             (Z.to_nat (n - Z.of_nat (List.length first))) remaining);
      [| exact Hs].
    intros t Ht. unfold remaining in Ht. now apply filter_In in Ht.
Qed.

End Selection.

(** X1. With distinct ids, [selectSamplesFromAccount] returns exactly the
    first [sampleSize] transactions of the group ordered by [|amount|] from
    the largest down (all of them when the group has fewer), each tagged
    [OVER_SCOPE] when its [|amount|] exceeds [testingScope] and
    [HIGH_VALUE_KEY_ITEM] otherwise; so the number of samples is the smaller
    of [sampleSize] and the number of transactions. *)
Theorem selectSamplesFromAccount_top
    (accountGroup : AccountGroup.t) (config : SamplingConfig.t) :
  NoDup (map Transaction.id (AccountGroup.transactions accountGroup)) ->
  selectSamplesFromAccount accountGroup config
  = map (fun t => sampleOf accountGroup
                    (reasonFor (SamplingConfig.testingScope config) t) t)
        (firstn (Z.to_nat (SamplingConfig.sampleSize config))
           (Lodash.orderByDesc (AccountGroup.transactions accountGroup)
              (fun t => Qabs (Transaction.amount t))))
  /\ List.length (selectSamplesFromAccount accountGroup config)
     = Nat.min (Z.to_nat (SamplingConfig.sampleSize config))
               (List.length (AccountGroup.transactions accountGroup)).
Proof.
  intro Hids. rewrite (selected_top accountGroup config Hids). split; [reflexivity|].
  rewrite length_map, length_firstn. f_equal.
  apply Permutation_length, orderByDesc_perm.
Qed.

Lemma selectSamplesFromAccount_top_witness :
  List.length (selectSamplesFromAccount parkGroup parkConfig3) = 3%nat.
Proof.
  destruct (selectSamplesFromAccount_top parkGroup parkConfig3) as [_ H].
  - simpl. repeat (constructor; [simpl; intuition discriminate |]). constructor.
  - exact H.
Defined.

(** Without distinct ids the closed form fails: a transaction that shares
    its id with an over-scope one is passed over. *)
Example selectSamplesFromAccount_shared_id :
  map (fun s => SelectedSample.amount s)
      (selectSamplesFromAccount twinGroup parkConfig3)
  = [inject_Z 20000; inject_Z 200].
Proof. reflexivity. Qed.

(** X3. [selectSamplesFromAccount] returns no sample exactly when
    [sampleSize] is not positive or the group has no transaction. *)
Theorem selectSamplesFromAccount_empty_iff
    (accountGroup : AccountGroup.t) (config : SamplingConfig.t) :
  selectSamplesFromAccount accountGroup config = []
  <-> (SamplingConfig.sampleSize config <= 0)%Z
      \/ AccountGroup.transactions accountGroup = [].
Proof. apply selected_empty_iff. Qed.

(** X4. The value tested in an account, the sum of [|amount|] over its
    samples, never exceeds the sum of [|amount|] over the account's
    transactions. *)
Theorem selectSamplesFromAccount_value_le
    (accountGroup : AccountGroup.t) (config : SamplingConfig.t) :
  total (fun s => Qabs (SelectedSample.amount s))
        (selectSamplesFromAccount accountGroup config)
  <= total absAmount (AccountGroup.transactions accountGroup).
Proof. apply selected_value_le. Qed.

(** ** Account aggregator: what the groups add up to *)

Lemma groupByAccount_In (transactions : list Transaction.t) (g : AccountGroup.t) :
  In g (groupByAccount transactions) ->
  In (AccountGroup.accountName g) (map Transaction.accountName transactions)
  /\ AccountGroup.transactions g
     = filter (fun t => String.eqb (Transaction.accountName t)
                                   (AccountGroup.accountName g)) transactions
  /\ AccountGroup.totalBalance g
     = Lodash.sumBy (AccountGroup.transactions g)
         (fun t => Qabs (Transaction.amount t))
  /\ AccountGroup.transactionCount g = List.length (AccountGroup.transactions g)
  /\ AccountGroup.accountNumber g
     = Js.strOr match AccountGroup.transactions g with
                | t0 :: _ => Transaction.accountNumber t0
                | [] => ""
                end "".
Proof.
  rewrite groupByAccount_entries. intro H. apply in_map_iff in H.
  destruct H as (e & <- & He). cbn [AccountGroup.accountName AccountGroup.transactions
    AccountGroup.totalBalance AccountGroup.transactionCount AccountGroup.accountNumber].
  apply (Permutation_in _ (entries_perm _)) in He.
  rewrite groupBy_closed in He. apply in_map_iff in He.
  destruct He as (k & <- & Hk). apply (proj1 (firstSeen_In _ _)) in Hk.
  repeat split. exact Hk.
Qed.

Lemma groupByAccount_nonempty (transactions : list Transaction.t) (g : AccountGroup.t) :
  In g (groupByAccount transactions) -> AccountGroup.transactions g <> [].
Proof.
  intro H. apply groupByAccount_In in H. destruct H as (Hk & Ht & _).
  apply in_map_iff in Hk. destruct Hk as (t & Hname & Hin).
  rewrite Ht. intro Hnil.
  assert (Hc : In t (filter (fun t0 => String.eqb (Transaction.accountName t0)
                                          (AccountGroup.accountName g)) transactions)).
  { apply filter_In. split; [exact Hin | now apply String.eqb_eq]. }
  rewrite Hnil in Hc. exact Hc.
Qed.

Lemma groupByAccount_flat_perm (transactions : list Transaction.t) :
  Permutation (flat_map AccountGroup.transactions (groupByAccount transactions))
              transactions.
Proof.
  rewrite groupByAccount_entries, flat_map_concat_map, map_map. simpl.
  rewrite <- flat_map_concat_map.
  apply perm_trans
    with (flat_map snd (Lodash.groupBy transactions Transaction.accountName)).
  - apply flat_map_perm, entries_perm.
  - apply groupBy_flat_perm.
Qed.

Lemma sumByNat_list_sum {V : Type} (f : V -> nat) (l : list V) :
  Lodash.sumByNat l f = list_sum (map f l).
Proof.
  assert (Hgen : forall r init,
            fold_left (fun result y => (result + f y)%nat) r init
            = (init + list_sum (map f r))%nat).
  { induction r as [| y r IH]; intro init; simpl; [lia|]. rewrite IH. lia. }
  destruct l as [| x r]; simpl; [reflexivity | apply Hgen].
Qed.


(** X5. The groups of [groupByAccount] account for every input row: the
    transaction counts sum to the number of input transactions; every group
    has at least one transaction, takes its account number from the first
    of them, and has a balance that is not negative. *)
Theorem groupByAccount_conservation (transactions : list Transaction.t) :
  let groups := groupByAccount transactions in
  Lodash.sumByNat groups AccountGroup.transactionCount = List.length transactions
  /\ (forall g, In g groups ->
        exists t0 rest,
          AccountGroup.transactions g = t0 :: rest
          /\ AccountGroup.accountNumber g = Transaction.accountNumber t0
          /\ (1 <= AccountGroup.transactionCount g)%nat
          /\ 0 <= AccountGroup.totalBalance g).
Proof.
  intro groups. subst groups. split.
  - rewrite sumByNat_list_sum.
    rewrite <- (Permutation_length (groupByAccount_flat_perm transactions)).
    rewrite length_flat_map. f_equal. apply map_ext_in. intros g Hg.
    now apply groupByAccount_In in Hg.
  - intros g Hg. pose proof (groupByAccount_nonempty _ _ Hg) as Hne.
    apply groupByAccount_In in Hg. destruct Hg as (_ & _ & Hb & Hc & Hn).
    destruct (AccountGroup.transactions g) as [| t0 rest] eqn:Et; [congruence|].
    exists t0, rest. split; [reflexivity|]. split; [| split].
    + rewrite Hn. apply strOr_empty.
    + rewrite Hc. simpl. lia.
    + rewrite Hb, sumBy_total. apply total_nonneg. intro t. apply Qabs_nonneg.
Qed.

(** ** Sampling orchestrator: how the steps compose *)

Lemma performSampling_parts (w : World.t) (rawTransactions : list Transaction.t)
    (config : SamplingConfig.t) :
  let filtered :=
    filterByKeywords (fst (backfillIds w rawTransactions))
      (SamplingConfig.targetKeywords config) in
  let material :=
    identifyMaterialAccounts (groupByAccount filtered)
      (SamplingConfig.tolerableMisstatement config) in
  let samples := flat_map (fun g => selectSamplesFromAccount g config) material in
  fst (performSampling w rawTransactions config)
  = SamplingResults.mk samples (calculateSummary samples material) material
      (List.length filtered).
Proof.
  unfold performSampling. destruct (backfillIds w rawTransactions). reflexivity.
Qed.

Lemma material_In (groups : list AccountGroup.t) (tm : Q) (g : AccountGroup.t) :
  In g (identifyMaterialAccounts groups tm)
  <-> In g groups /\ tm < AccountGroup.totalBalance g.
Proof. unfold identifyMaterialAccounts. now rewrite filter_In, gt_spec. Qed.

Lemma filterByKeywords_In (transactions : list Transaction.t)
    (keywords : list string) (t : Transaction.t) :
  In t (filterByKeywords transactions keywords) -> In t transactions.
Proof.
  unfold filterByKeywords.
  destruct (List.length _ =? 0)%nat; [trivial|].
  intro H. now apply filter_In in H.
Qed.

Lemma filter_length_le {A : Type} (p : A -> bool) (l : list A) :
  (List.length (filter p l) <= List.length l)%nat.
Proof. induction l as [| x r IH]; simpl; [lia|]. destruct (p x); simpl; lia. Qed.

Lemma filterByKeywords_length (transactions : list Transaction.t)
    (keywords : list string) :
  (List.length (filterByKeywords transactions keywords)
   <= List.length transactions)%nat.
Proof.
  unfold filterByKeywords.
  destruct (List.length _ =? 0)%nat; [lia | apply filter_length_le].
Qed.

(** X11. Id backfill: a transaction that has an id is left as it is, one
    without gets a non-empty id and is otherwise unchanged, and [generateId]
    is called once per transaction without an id. *)
Theorem backfillIds_spec (rawTransactions : list Transaction.t) :
  forall w,
    Forall2 (fun t t' =>
               t' = Transaction.withId t (Transaction.id t')
               /\ Transaction.id t' <> ""
               /\ (Transaction.id t <> "" -> t' = t))
            rawTransactions (fst (backfillIds w rawTransactions))
    /\ World.consumed (snd (backfillIds w rawTransactions))
       = (World.consumed w
          + List.length (filter (fun t => Str.isEmpty (Transaction.id t))
                                rawTransactions))%nat.
Proof.
  induction rawTransactions as [| t rest IH]; intro w; simpl.
  - split; [constructor | lia].
  - destruct (Str.isEmpty (Transaction.id t)) eqn:E.
    + specialize (IH (World.next w)). unfold generateId at 1 2.
      destruct (backfillIds (World.next w) rest) as [rest' w2]. simpl in *.
      destruct IH as [IH1 IH2]. split.
      * constructor; [| exact IH1]. split; [| split].
        -- destruct t; reflexivity.
        -- destruct t; simpl; discriminate.
        -- intro Hne. apply isEmpty_spec in E. contradiction.
      * rewrite IH2. lia.
    + specialize (IH w). destruct (backfillIds w rest) as [rest' w2]. simpl in *.
      destruct IH as [IH1 IH2]. split; [| exact IH2].
      constructor; [| exact IH1]. apply isEmpty_false in E.
      rewrite withId_same. split; [| split].
      -- now rewrite withId_same.
      -- exact E.
      -- reflexivity.
Qed.




Lemma performSampling_samples_nil (w : World.t)
    (rawTransactions : list Transaction.t) (config : SamplingConfig.t) :
  (1 <= SamplingConfig.sampleSize config)%Z ->
  SamplingResults.samples (fst (performSampling w rawTransactions config)) = []
  <-> SamplingResults.accountGroups (fst (performSampling w rawTransactions config)) = [].
Proof.
  intro Hn. rewrite performSampling_parts. cbv zeta.
  cbn [SamplingResults.samples SamplingResults.accountGroups].
  set (material := identifyMaterialAccounts _ _).
  assert (Hmat : forall g, In g material -> AccountGroup.transactions g <> []).
  { intros g Hg. apply material_In in Hg. destruct Hg as [Hg _].
    exact (groupByAccount_nonempty _ _ Hg). }
  split.
  - intro H. destruct material as [| g r]; [reflexivity|]. exfalso.
    simpl in H. apply app_eq_nil in H. destruct H as [H _].
    apply selected_empty_iff in H. destruct H as [H | H]; [lia|].
    exact (Hmat g (or_introl eq_refl) H).
  - intros ->. reflexivity.
Qed.

(** X6. Every sample returned by [performSampling] is a transaction of one
    of the returned account groups: it carries that group's name and total
    balance, its own account name is the group's, and the group's balance is
    above [tolerableMisstatement]. *)
Theorem performSampling_sample_origin (w : World.t)
    (rawTransactions : list Transaction.t) (config : SamplingConfig.t)
    (s : SelectedSample.t) :
  let results := fst (performSampling w rawTransactions config) in
  In s (SamplingResults.samples results) ->
  exists g, In g (SamplingResults.accountGroups results)
            /\ In (SelectedSample.txn s) (AccountGroup.transactions g)
            /\ SelectedSample.accountGroup s = AccountGroup.accountName g
            /\ SelectedSample.groupTotalBalance s = AccountGroup.totalBalance g
            /\ Transaction.accountName (SelectedSample.txn s)
               = SelectedSample.accountGroup s
            /\ SamplingConfig.tolerableMisstatement config
               < AccountGroup.totalBalance g.
Proof.
  intro results. subst results. rewrite performSampling_parts. cbv zeta.
  cbn [SamplingResults.samples SamplingResults.accountGroups].
  intro Hs. apply in_flat_map in Hs. destruct Hs as (g & Hg & Hs).
  exists g. split; [exact Hg|].
  apply selected_origin in Hs. destruct Hs as (Ht & Hname & Hbal).
  apply material_In in Hg. destruct Hg as [Hg Hmat].
  apply groupByAccount_In in Hg. destruct Hg as (_ & Hfilter & _).
  repeat split; try assumption.
  rewrite Hfilter in Ht. apply filter_In in Ht. destruct Ht as [_ Ht].
  apply String.eqb_eq in Ht. congruence.
Qed.

Lemma performSampling_sample_origin_witness :
  exists g,
    In g (SamplingResults.accountGroups
            (fst (performSampling morningWorld parkLedger parkConfig)))
    /\ SelectedSample.accountGroup parkFirstSample = AccountGroup.accountName g
    /\ inject_Z 15000 < AccountGroup.totalBalance g.
Proof.
  destruct (performSampling_sample_origin morningWorld parkLedger parkConfig
              parkFirstSample)
    as (g & Hg & _ & Hname & _ & _ & Hmat).
  - vm_compute. left. reflexivity.
  - exists g. repeat split; assumption.
Defined.

(** X7. The edges of the summary of [performSampling]: the value tested
    and the material balance are never negative; the coverage percentage is
    0 whenever the material balance is not positive, so nothing is divided
    by zero; when no account is material there are no samples and every
    figure of the summary is zero; and an empty ledger gives the empty
    result. *)
Theorem performSampling_coverage (w : World.t)
    (rawTransactions : list Transaction.t) (config : SamplingConfig.t) :
  let results := fst (performSampling w rawTransactions config) in
  let summary := SamplingResults.summary results in
  0 <= SamplingSummary.totalValueTested summary
  /\ 0 <= SamplingSummary.totalMaterialBalance summary
  /\ (~ 0 < SamplingSummary.totalMaterialBalance summary ->
      SamplingSummary.coveragePercentage summary = 0)
  /\ (SamplingResults.accountGroups results = [] ->
      SamplingResults.samples results = []
      /\ summary = SamplingSummary.mk 0 0 0 0 0 0 0)
  /\ (rawTransactions = [] ->
      results = SamplingResults.mk [] (SamplingSummary.mk 0 0 0 0 0 0 0) [] 0).
Proof.
  intros results summary. subst summary results.
  split; [| split; [| split; [| split]]].
  - rewrite performSampling_parts. cbv zeta.
    cbn [SamplingResults.summary]. unfold calculateSummary.
    cbn [SamplingSummary.totalValueTested].
    rewrite sumBy_total. apply total_nonneg. intro s. apply Qabs_nonneg.
  - rewrite performSampling_parts. cbv zeta.
    cbn [SamplingResults.summary]. unfold calculateSummary.
    cbn [SamplingSummary.totalMaterialBalance].
    set (material := identifyMaterialAccounts _ _).
    assert (Hall : Forall (fun g => 0 <= AccountGroup.totalBalance g) material).
    { apply Forall_forall. intros g Hg. apply material_In in Hg.
      destruct Hg as [Hg _]. apply groupByAccount_In in Hg.
      destruct Hg as (_ & _ & Hb & _). rewrite Hb, sumBy_total.
      apply total_nonneg. intro t. apply Qabs_nonneg. }
    rewrite sumBy_total. clear -Hall.
    induction Hall as [| g rest Hg _ IH]; cbn [total]; [discriminate|].
    rewrite <- (Qplus_0_l 0). now apply Qplus_le_compat.
  - rewrite performSampling_parts. cbv zeta.
    cbn [SamplingResults.summary]. unfold calculateSummary.
    cbn [SamplingSummary.totalMaterialBalance SamplingSummary.coveragePercentage].
    intro Hnot. destruct (Num.gt _ 0) eqn:Epos; [| reflexivity].
    apply gt_spec in Epos. contradiction.
  - rewrite performSampling_parts. cbv zeta.
    cbn [SamplingResults.summary SamplingResults.accountGroups
         SamplingResults.samples].
    intros ->. split; reflexivity.
  - intros ->. rewrite performSampling_parts. cbv zeta. cbn [backfillIds fst].
    assert (E : filterByKeywords [] (SamplingConfig.targetKeywords config) = []).
    { unfold filterByKeywords. now destruct (List.length _ =? 0)%nat. }
    rewrite E. reflexivity.
Qed.



(** With [sampleSize] zero a material account is retained and nothing is
    sampled from it. *)
Example performSampling_zero_size :
  SamplingResults.samples
    (fst (performSampling morningWorld parkLedger
            (SamplingConfig.mk (inject_Z 15000) (inject_Z 11000) ["PARK"] 0))) = []
  /\ List.length
       (SamplingResults.accountGroups
          (fst (performSampling morningWorld parkLedger
                  (SamplingConfig.mk (inject_Z 15000) (inject_Z 11000) ["PARK"] 0))))
     = 1%nat.
Proof. split; reflexivity. Qed.

(** X9. [handleRunSampling] refuses an empty data set without running the
    engine; otherwise it runs [performSampling] once and, for a positive
    [sampleSize], reports an error exactly when no account is material. *)
Theorem handleRunSampling_outcome (w : World.t)
    (rawData : list Transaction.t) (config : SamplingConfig.t) :
  (rawData = [] ->
   handleRunSampling w rawData config
   = (None, mkSnackbar "Please upload a file first" error, w))
  /\ (rawData <> [] ->
      (1 <= SamplingConfig.sampleSize config)%Z ->
      exists snackbar,
        handleRunSampling w rawData config
        = (Some (fst (performSampling w rawData config)), snackbar,
           snd (performSampling w rawData config))
        /\ (severity snackbar = error
            <-> SamplingResults.accountGroups
                  (fst (performSampling w rawData config)) = [])).
Proof.
  split.
  - intros ->. reflexivity.
  - intros Hne Hn. unfold handleRunSampling.
    destruct rawData as [| t rest]; [congruence|].
    cbn [List.length Nat.eqb].
    pose proof (performSampling_samples_nil w (t :: rest) config Hn) as Hiff.
    destruct (performSampling w (t :: rest) config) as [r w']. cbn [fst snd] in *.
    destruct (SamplingResults.samples r) as [| s ss] eqn:Es; cbn [List.length Nat.eqb].
    + eexists. split; [reflexivity|]. cbn [severity].
      split; [intros _; now apply Hiff | reflexivity].
    + eexists. split; [reflexivity|]. cbn [severity].
      split; [discriminate|]. intro Hg. apply Hiff in Hg. discriminate.
Qed.

Lemma handleRunSampling_outcome_witness :
  exists snackbar,
    handleRunSampling morningWorld parkLedger parkConfig
    = (Some (fst (performSampling morningWorld parkLedger parkConfig)), snackbar,
       snd (performSampling morningWorld parkLedger parkConfig))
    /\ (severity snackbar = error
        <-> SamplingResults.accountGroups
              (fst (performSampling morningWorld parkLedger parkConfig)) = []).
Proof.
  apply (proj2 (handleRunSampling_outcome morningWorld parkLedger parkConfig)).
  - discriminate.
  - simpl. lia.
Defined.

Example handleRunSampling_park :
  snd (fst (handleRunSampling morningWorld parkLedger parkConfig))
  = mkSnackbar "Selected 2 samples from 1 material accounts" success.
Proof. reflexivity. Qed.


(** ** Column mapper: header resolution *)

Lemma find_map {A B : Type} (q : B -> bool) (f : A -> B) (l : list A) :
  List.find q (map f l) = option_map f (List.find (fun a => q (f a)) l).
Proof.
  induction l as [| x r IH]; simpl; [reflexivity|].
  destruct (q (f x)); [reflexivity | exact IH].
Qed.

Lemma find_first_of {A : Type} (q r : A -> bool) (l : list A) (x : A) :
  List.find q l = Some x ->
  (forall y, r y = true -> q y = true) -> r x = true ->
  List.find r l = Some x.
Proof.
  intros Hfind Himp Hx. induction l as [| y l IH]; simpl in *; [discriminate|].
  destruct (q y) eqn:Eq.
  - inversion Hfind; subst. now rewrite Hx.
  - destruct (r y) eqn:Er; [| now apply IH].
    rewrite (Himp y Er) in Eq. discriminate.
Qed.

Lemma findColumn_cons (sampleRowKeys : list string) (pattern : string)
    (rest : list string) :
  pattern <> "" ->
  findColumn sampleRowKeys (pattern :: rest)
  = match List.find (headerMatches pattern) sampleRowKeys with
    | Some k => Some k
    | None => findColumn sampleRowKeys rest
    end.
Proof.
  intro Hp. cbn [findColumn]. unfold Js.find. rewrite find_map.
  destruct (List.find (headerMatches pattern) sampleRowKeys) as [k |] eqn:Ef;
    pose proof Ef as Ef'; unfold headerMatches, normalizedHeader in Ef';
    rewrite Ef'; cbn [option_map]; [| reflexivity].
  fold (normalizedHeader k).
  pose proof (find_some _ _ Ef) as [Hin Hm].
  assert (Hne : Str.isEmpty (normalizedHeader k) = false).
  { apply isEmpty_false. intro He. unfold headerMatches in Hm. rewrite He in Hm.
    apply orb_true_iff in Hm. destruct Hm as [Hm | Hm].
    - apply String.eqb_eq in Hm. congruence.
    - destruct pattern; [congruence | discriminate Hm]. }
  rewrite Hne. apply (find_first_of _ _ _ _ Ef).
  - intros y Hy. apply String.eqb_eq in Hy. unfold headerMatches, normalizedHeader.
    rewrite Hy. exact Hm.
  - apply String.eqb_refl.
Qed.

(** X12. Header resolution in [parseRawData]: the patterns of a field are
    tried in their listed order, and for the first pattern that some header
    matches (equal to it or containing it, after lower-casing and trimming)
    the column chosen is the first such header of the first record; with no
    pattern matched the field has no column. *)
Theorem findColumn_first_match (sampleRowKeys patterns : list string) :
  Forall (fun p => p <> "") patterns ->
  (forall before pattern after k,
     patterns = before ++ pattern :: after ->
     (forall p, In p before ->
        List.find (headerMatches p) sampleRowKeys = None) ->
     List.find (headerMatches pattern) sampleRowKeys = Some k ->
     findColumn sampleRowKeys patterns = Some k)
  /\ ((forall p, In p patterns ->
         List.find (headerMatches p) sampleRowKeys = None) ->
      findColumn sampleRowKeys patterns = None).
Proof.
  intro Hne. split.
  - intros before. revert patterns Hne.
    induction before as [| b before IH]; intros patterns Hne pattern after k -> Hb Hk.
    + cbn [app] in *. rewrite findColumn_cons, Hk; [reflexivity|].
      now inversion Hne.
    + cbn [app] in *. inversion Hne as [| ? ? Hb0 Hrest]; subst.
      rewrite findColumn_cons by assumption.
      rewrite (Hb b (or_introl eq_refl)).
      apply (IH _ Hrest pattern after k eq_refl); [| exact Hk].
      intros p Hp. apply Hb. now right.
  - induction patterns as [| p rest IH]; intro Hnone; [reflexivity|].
    inversion Hne as [| ? ? Hp Hrest]; subst.
    rewrite findColumn_cons, (Hnone p (or_introl eq_refl)) by assumption.
    apply IH; [exact Hrest|]. intros q Hq. apply Hnone. now right.
Qed.

Lemma findColumn_first_match_witness :
  findColumn ["Posting Date"; " ACCT No "; "Acct Name"; "Amount"]
             columnPatterns_accountNumber = Some " ACCT No ".
Proof.
  refine (proj1 (findColumn_first_match
                   ["Posting Date"; " ACCT No "; "Acct Name"; "Amount"]
                   columnPatterns_accountNumber _)
                ["account"; "account number"] "acct"
                ["acct no"; "account no"; "gl account"] " ACCT No " eq_refl _ _).
  - repeat constructor; discriminate.
  - intros p [<- | [<- | []]]; reflexivity.
  - reflexivity.
Defined.

(** ** Column mapper: the records produced *)

Section FlatRows.
Variable numberToString : Q -> string.

Lemma parseRows_shape (m : ColumnMapping.t) (data : list (list (string * cell))) :
  forall (w : World.t) (i : nat),
    map Transaction.extra (fst (parseRows numberToString m w data i))
    = map rowIndexField (seq i (List.length data))
    /\ World.consumed (snd (parseRows numberToString m w data i))
       = (World.consumed w + List.length data)%nat
    /\ Forall2 (fun row t =>
                  Transaction.amount t
                  = ifMapped (ColumnMapping.amount m)
                      (fun k => parseAmount (Js.prop row k)) 0
                  /\ Transaction.id t <> "")
               data (fst (parseRows numberToString m w data i)).
Proof.
  induction data as [| row rest IH]; intros w i.
  - cbn [parseRows fst snd map List.length seq].
    split; [reflexivity | split; [lia | constructor]].
  - cbn [parseRows]. specialize (IH (World.next w) (S i)).
    unfold parseRow at 1 2 3. unfold generateId at 1 2 3.
    destruct (parseRows numberToString m (World.next w) rest (S i)) as [ts w2].
    cbn [fst snd] in *. destruct IH as (IH1 & IH2 & IH3).
    cbn [map List.length seq Transaction.extra]. split; [| split].
    + now rewrite IH1.
    + rewrite IH2. cbn [World.next World.consumed]. lia.
    + constructor; [| exact IH3]. split; [reflexivity | discriminate].
Qed.

Lemma findColumn_unknown (sampleRowKeys patterns : list string) :
  (forall k p, In k sampleRowKeys -> In p patterns ->
     Str.includes (normalizedHeader k) p = false) ->
  findColumn sampleRowKeys patterns = None.
Proof.
  intro H. induction patterns as [| p rest IH]; [reflexivity|].
  cbn [findColumn]. unfold Js.find. rewrite find_map.
  assert (Hnone : List.find
            (fun a => (Str.trim (Str.toLowerCase a) =? p)%string
                      || Str.includes (Str.trim (Str.toLowerCase a)) p)
            sampleRowKeys = None).
  { destruct (List.find _ sampleRowKeys) as [k |] eqn:Ef; [| reflexivity].
    exfalso. apply find_some in Ef. destruct Ef as [Hin Hm].
    pose proof (H k p Hin (or_introl eq_refl)) as Hinc.
    unfold normalizedHeader in Hinc. rewrite Hinc, orb_false_r in Hm.
    apply String.eqb_eq in Hm. rewrite Hm in Hinc.
    destruct p as [| c r]; [discriminate Hinc|].
    cbn [Str.includes String.prefix] in Hinc.
    destruct (ascii_dec c c) as [_ | Hc]; [| congruence].
    assert (Hpre : forall s, String.prefix s s = true).
    { induction s as [| a s IHs]; [reflexivity|]. simpl.
      destruct (ascii_dec a a); [exact IHs | congruence]. }
    rewrite Hpre in Hinc. discriminate. }
  rewrite Hnone. cbn [option_map]. apply IH.
  intros k q Hk Hq. apply H; [exact Hk | now right].
Qed.

End FlatRows.

(** X13. The flat parser keeps every record: [parseRawData] returns one
    transaction per input record, in order, numbered from 1 in [_rowIndex];
    its amount is the parsed amount cell, or [0] without an amount column (a
    zero amount does not drop the row); every transaction gets a non-empty
    id, and [generateId] is called once per record. *)
Theorem parseRawData_rows
    (numberToString : Q -> string) (w : World.t)
    (data : list (list (string * cell))) :
  let out := fst (parseRawData numberToString w data) in
  List.length out = List.length data
  /\ map Transaction.extra out = map rowIndexField (seq 0 (List.length data))
  /\ World.consumed (snd (parseRawData numberToString w data))
     = (World.consumed w + List.length data)%nat
  /\ (forall sampleRow rest, data = sampleRow :: rest ->
        Forall2 (fun row t =>
                   Transaction.amount t
                   = ifMapped (ColumnMapping.amount (columnMapping sampleRow))
                       (fun k => parseAmount (Js.prop row k)) 0
                   /\ Transaction.id t <> "")
                data out).
Proof.
  intro out. subst out. destruct data as [| sampleRow rest].
  - cbn [parseRawData fst snd List.length seq map].
    split; [reflexivity | split; [reflexivity | split; [lia |]]].
    intros s r H. discriminate H.
  - rewrite parseRawData_cons.
    destruct (parseRows_shape numberToString (columnMapping sampleRow)
                (sampleRow :: rest) w 0) as (H1 & H2 & H3).
    split; [| split; [| split]].
    + symmetry. exact (Forall2_length H3).
    + exact H1.
    + exact H2.
    + intros s r E. inversion E; subst. exact H3.
Qed.

(** X14. When no header of the first record contains any known pattern,
    [parseRawData] still returns one transaction per record, with every text
    field empty, amount [0], and no reference or vendor. *)
Theorem parseRawData_unknown_headers
    (numberToString : Q -> string) (w : World.t)
    (sampleRow : list (string * cell)) (rest : list (list (string * cell))) :
  (forall k p, In k (Js.keys sampleRow) -> In p knownPatterns ->
     Str.includes (normalizedHeader k) p = false) ->
  let out := fst (parseRawData numberToString w (sampleRow :: rest)) in
  List.length out = S (List.length rest)
  /\ Forall (fun t =>
               Transaction.date t = "" /\ Transaction.accountNumber t = ""
               /\ Transaction.accountName t = "" /\ Transaction.description t = ""
               /\ Transaction.amount t = 0
               /\ Transaction.reference t = None /\ Transaction.vendor t = None)
            out.
Proof.
  intros Hunknown out. subst out. rewrite parseRawData_cons.
  assert (Hm : columnMapping sampleRow
               = ColumnMapping.mk None None None None None None None).
  { unfold columnMapping.
    rewrite !findColumn_unknown; [reflexivity | | | | | | |];
      intros k p Hk Hp; apply Hunknown; try exact Hk;
      unfold knownPatterns; rewrite !in_app_iff; tauto. }
  rewrite Hm.
  assert (Hgen : forall (d : list (list (string * cell))) w0 i,
            List.length (fst (parseRows numberToString
                                (ColumnMapping.mk None None None None None None None)
                                w0 d i)) = List.length d
            /\ Forall (fun t =>
                 Transaction.date t = "" /\ Transaction.accountNumber t = ""
                 /\ Transaction.accountName t = "" /\ Transaction.description t = ""
                 /\ Transaction.amount t = 0
                 /\ Transaction.reference t = None /\ Transaction.vendor t = None)
               (fst (parseRows numberToString
                       (ColumnMapping.mk None None None None None None None)
                       w0 d i))).
  { induction d as [| row d IH]; intros w0 i.
    - split; [reflexivity | constructor].
    - cbn [parseRows]. unfold parseRow at 1 2. unfold generateId at 1 2.
      specialize (IH (World.next w0) (S i)).
      destruct (parseRows numberToString _ (World.next w0) d (S i)) as [ts w2].
      cbn [fst] in *. destruct IH as [IH1 IH2]. split.
      + cbn [List.length]. now rewrite IH1.
      + constructor; [| exact IH2]. repeat split. }
  split; [| apply Hgen].
  rewrite (proj1 (Hgen (sampleRow :: rest) w 0%nat)). reflexivity.
Qed.

Lemma parseRawData_unknown_headers_witness :
  Forall (fun t => Transaction.accountName t = "" /\ Transaction.amount t = 0)
         (fst (parseRawData plainNumber morningWorld foreignExport)).
Proof.
  destruct (parseRawData_unknown_headers plainNumber morningWorld
              [("Konto", CStr "Miete"); ("Betrag", CStr "1.000,50")]
              [[("Konto", CStr "Strom"); ("Betrag", CNum (inject_Z 80))]])
    as [_ H].
  - intros k p [<- | [<- | []]] Hp; unfold knownPatterns in Hp;
      repeat (destruct Hp as [<- | Hp]; [reflexivity |]); destruct Hp.
  - eapply Forall_impl; [| exact H].
    intros t (_ & _ & Hn & _ & Ha & _). split; assumption.
Defined.

(** ** Hierarchical GL: what the data loop keeps *)

Section HierarchicalLoop.
Variables numberToString serialDateToLocaleString : Q -> string.

Lemma processRow_outcome (cols : Columns) (i : nat) (r : option (list cell))
    (st : LoopState) :
  (transactions (processRow numberToString serialDateToLocaleString cols i r st)
   = transactions st
   /\ world (processRow numberToString serialDateToLocaleString cols i r st)
      = world st
   /\ (notTotal (currentAccountName st) ->
       notTotal (currentAccountName
                   (processRow numberToString serialDateToLocaleString cols i r st))))
  \/ (exists row t,
        r = Some row
        /\ transactions (processRow numberToString serialDateToLocaleString cols i r st)
           = transactions st ++ [t]
        /\ world (processRow numberToString serialDateToLocaleString cols i r st)
           = World.next (world st)
        /\ currentAccountName
             (processRow numberToString serialDateToLocaleString cols i r st)
           = currentAccountName st
        /\ Transaction.accountName t = currentAccountName st
        /\ Transaction.accountNumber t = ""
        /\ Transaction.id t <> ""
        /\ Transaction.extra t = rowIndexField i).
Proof.
  destruct r as [row |]; [| left; repeat split; trivial].
  unfold processRow.
  destruct (match Js.index row 0 with
            | CStr s =>
                if (Js.truthy (Js.index row 0) && negb (Str.isEmpty (Str.trim s)))%bool
                then Some (Str.trim s) else None
            | _ => None
            end) as [firstColStr |].
  - left.
    destruct (negb (Str.startsWith (Str.toLowerCase firstColStr) "total")) eqn:E;
      cbn [transactions world currentAccountName]; repeat split; trivial.
    intros _. now apply negb_true_iff in E.
  - destruct (Js.isBlank (cellAt row (amountColIdx cols) CNull));
      [left; repeat split; trivial|].
    destruct (Str.includes _ "beginning balance"); [left; repeat split; trivial|].
    destruct (Num.isZero (parseAmount (cellAt row (amountColIdx cols) CNull)));
      [left; repeat split; trivial|].
    right. unfold generateId. cbn [transactions world currentAccountName].
    eexists row, _. split; [reflexivity|]. split; [reflexivity|].
    cbn [Transaction.accountName Transaction.accountNumber Transaction.id
         Transaction.extra].
    repeat split. discriminate.
Qed.

Lemma dataLoop_outcome (cols : Columns) (rows : list (option (list cell))) :
  forall (i : nat) (st : LoopState),
    notTotal (currentAccountName st) ->
    exists added idxs,
      transactions (dataLoop numberToString serialDateToLocaleString cols i rows st)
      = transactions st ++ added
      /\ map Transaction.extra added = map rowIndexField idxs
      /\ StronglySorted lt idxs
      /\ Forall (fun j => (i <= j < i + List.length rows)%nat
                          /\ exists row, nth_error rows (j - i) = Some (Some row))
                idxs
      /\ Forall (fun t => Transaction.accountNumber t = ""
                          /\ notTotal (Transaction.accountName t)
                          /\ Transaction.id t <> "")
                added
      /\ World.consumed
           (world (dataLoop numberToString serialDateToLocaleString cols i rows st))
         = (World.consumed (world st) + List.length added)%nat.
Proof.
  induction rows as [| r rest IH]; intros i st Hnt.
  - exists [], []. cbn [dataLoop List.length map]. rewrite app_nil_r.
    repeat split; try constructor. lia.
  - cbn [dataLoop].
    assert (Hshift : forall idxs,
              Forall (fun j => (S i <= j < S i + List.length rest)%nat
                               /\ exists row, nth_error rest (j - S i) = Some (Some row))
                     idxs ->
              Forall (fun j => (i <= j < i + List.length (r :: rest))%nat
                               /\ exists row,
                                    nth_error (r :: rest) (j - i) = Some (Some row))
                     idxs).
    { intros idxs H. eapply Forall_impl; [| exact H].
      intros j [Hj (row & Hrow)]. cbn [List.length]. split; [lia|].
      exists row. replace (j - i)%nat with (S (j - S i)) by lia. exact Hrow. }
    destruct (processRow_outcome cols i r st)
      as [(Et & Ew & Hc) | (row & t & Er & Et & Ew & Ec & Hname & Hnum & Hid & Hx)].
    + destruct (IH (S i) _ (Hc Hnt)) as (added & idxs & H1 & H2 & H3 & H4 & H5 & H6).
      exists added, idxs. rewrite H1, Et, H6, Ew.
      repeat split; try assumption. now apply Hshift.
    + assert (Hnt' : notTotal (currentAccountName
                (processRow numberToString serialDateToLocaleString cols i r st)))
        by (now rewrite Ec).
      destruct (IH (S i) _ Hnt') as (added & idxs & H1 & H2 & H3 & H4 & H5 & H6).
      exists (t :: added), (i :: idxs). rewrite H1, Et, H6, Ew, <- app_assoc.
      cbn [app map List.length World.next World.consumed].
      split; [reflexivity|]. split; [now rewrite Hx, H2|].
      split; [| split; [| split]].
      * constructor; [exact H3|]. eapply Forall_impl; [| exact H4].
        intros j [Hj _]. lia.
      * constructor; [| now apply Hshift].
        split; [lia|]. exists row. rewrite Nat.sub_diag. cbn [nth_error].
        now rewrite Er.
      * constructor; [| exact H5]. now rewrite Hname.
      * lia.
Qed.

End HierarchicalLoop.

Lemma findHeader_bound (numberToString : Q -> string)
    (rawData : list (option (list cell))) (k : nat) (headers : list string) :
  findHeader numberToString rawData = Some (k, headers) ->
  (k < 10)%nat /\ (k < List.length rawData)%nat
  /\ exists row, nth_error rawData k = Some (Some row)
                 /\ isHeaderRow numberToString row = true.
Proof.
  unfold findHeader. intro H. apply findHeaderFrom_some in H.
  destruct H as (row & Hn & _ & Hh). rewrite Nat.sub_0_r in Hn.
  rewrite nth_error_firstn in Hn.
  destruct (k <? 10)%nat eqn:E; [| discriminate].
  apply Nat.ltb_lt in E. split; [exact E|]. split.
  - apply nth_error_Some. congruence.
  - exists row. split; assumption.
Qed.

(** X15. Every transaction returned by [parseHierarchicalGL] has an empty
    account number, a non-empty id, and an account name that does not start
    with "total"; one id is generated per returned transaction; and when the
    header warning is written nothing is returned. *)
Theorem parseHierarchicalGL_transactions
    (numberToString serialDateToLocaleString : Q -> string)
    (w : World.t) (rawData : list (option (list cell))) :
  let out :=
    parseHierarchicalGL numberToString serialDateToLocaleString w rawData in
  Forall (fun t => Transaction.accountNumber t = ""
                   /\ notTotal (Transaction.accountName t)
                   /\ Transaction.id t <> "")
         (returned out)
  /\ World.consumed (worldAfter out)
     = (World.consumed w + List.length (returned out))%nat
  /\ (warnings out <> [] -> returned out = []).
Proof.
  intro out. subst out. unfold parseHierarchicalGL.
  destruct (findHeader numberToString rawData) as [[k headers] |].
  - destruct (dataLoop_outcome numberToString serialDateToLocaleString
                (resolveColumns headers) (skipn (k + 1) rawData) (k + 1)
                (mkLoop "" [] w) eq_refl)
      as (added & idxs & H1 & _ & _ & _ & H5 & H6).
    cbn [returned worldAfter warnings transactions world app] in *.
    rewrite H1, H6. split; [exact H5 | split; [reflexivity | congruence]].
  - cbn [returned worldAfter warnings List.length].
    split; [apply Forall_nil | split; [lia | reflexivity]].
Qed.

(** X16. Each transaction returned by [parseHierarchicalGL] records in
    [_rowIndex] the 1-based number of the grid row it was read from; these
    rows lie below the header row, are arrays of the grid, and appear in
    increasing order. *)
Theorem parseHierarchicalGL_row_indices
    (numberToString serialDateToLocaleString : Q -> string)
    (w : World.t) (rawData : list (option (list cell))) :
  exists idxs,
    map Transaction.extra
        (returned (parseHierarchicalGL numberToString serialDateToLocaleString
                     w rawData))
    = map rowIndexField idxs
    /\ StronglySorted lt idxs
    /\ Forall (fun j => (j < List.length rawData)%nat
                        /\ (exists row, nth_error rawData j = Some (Some row))
                        /\ forall k headers,
                             findHeader numberToString rawData = Some (k, headers) ->
                             (k < j)%nat)
              idxs.
Proof.
  unfold parseHierarchicalGL.
  destruct (findHeader numberToString rawData) as [[k headers] |] eqn:Eh.
  - destruct (dataLoop_outcome numberToString serialDateToLocaleString
                (resolveColumns headers) (skipn (k + 1) rawData) (k + 1)
                (mkLoop "" [] w) eq_refl)
      as (added & idxs & H1 & H2 & H3 & H4 & _ & _).
    cbn [returned transactions app] in *. rewrite H1.
    exists idxs. split; [exact H2 | split; [exact H3 |]].
    eapply Forall_impl; [| exact H4].
    intros j [Hj (row & Hrow)]. rewrite nth_error_skipn in Hrow.
    replace (k + 1 + (j - (k + 1)))%nat with j in Hrow by lia.
    split; [| split].
    + apply nth_error_Some. congruence.
    + now exists row.
    + intros k' headers' E. inversion E; subst. lia.
  - exists []. cbn [returned map]. repeat split; constructor.
Qed.

(** ** Hierarchical GL: detection *)

Section Detection.
Variable numberToString : Q -> string.

Lemma rowAt_some (rawData : list (option (list cell))) (i : nat) (row : list cell) :
  rowAt rawData i = Some row <-> nth_error rawData i = Some (Some row).
Proof.
  unfold rowAt. destruct (nth_error rawData i) as [[r |] |]; split; congruence.
Qed.

Lemma bannerThenBlank_spec (rawData : list (option (list cell))) (j : nat) :
  bannerThenBlank numberToString rawData j = true
  <-> (exists banner s, nth_error rawData j = Some (Some banner)
                        /\ Js.index banner 0 = CStr s /\ s <> ""
                        /\ Str.includes (Str.toLowerCase s) "total" = false)
      /\ (exists next, nth_error rawData (j + 1) = Some (Some next)
                       /\ Js.isBlank (Js.index next 0) = true).
Proof.
  unfold bannerThenBlank. split.
  - destruct (rowAt rawData j) as [banner |] eqn:Eb; [| discriminate].
    apply rowAt_some in Eb.
    destruct (Js.index banner 0) as [| | b | q | s] eqn:E0; cbn;
      try discriminate; try (destruct b; discriminate);
      try (destruct (negb (Num.isZero q)); discriminate).
    destruct (Str.isEmpty s) eqn:Es; cbn; [discriminate|].
    destruct (Str.includes (Str.toLowerCase s) "total") eqn:Et; cbn; [discriminate|].
    destruct (rowAt rawData (j + 1)) as [next |] eqn:En; [| discriminate].
    apply rowAt_some in En. intro Hblank. split.
    + exists banner, s. repeat split; try assumption. now apply isEmpty_false.
    + now exists next.
  - intros [(banner & s & Hb & H0 & Hs & Ht) (next & Hn & Hblank)].
    apply rowAt_some in Hb. apply rowAt_some in Hn.
    rewrite Hb, H0, Hn. cbn. apply isEmpty_false in Hs. rewrite Hs, Ht. cbn.
    exact Hblank.
Qed.

Lemma findHeaderFrom_finds (rows : list (option (list cell))) :
  forall (n i : nat) (row : list cell),
    nth_error rows n = Some (Some row) ->
    isHeaderRow numberToString row = true ->
    findHeaderFrom numberToString i rows <> None.
Proof.
  induction rows as [| r rest IH]; intros n i row Hn Hh.
  - destruct n; discriminate.
  - cbn [findHeaderFrom]. destruct n as [| n]; cbn [nth_error] in Hn.
    + inversion Hn; subst. rewrite Hh. discriminate.
    + destruct r as [r0 |]; [| now apply (IH n (S i) row)].
      destruct (isHeaderRow numberToString r0); [discriminate|].
      now apply (IH n (S i) row).
Qed.

Lemma detect_spec (rawData : list (option (list cell))) :
  detectHierarchicalGLFormat numberToString rawData = true
  <-> (10 <= List.length rawData)%nat
      /\ exists i j, hierarchicalPattern numberToString rawData i j.
Proof.
  unfold detectHierarchicalGLFormat, hierarchicalPattern.
  destruct (List.length rawData <? 10)%nat eqn:Elen.
  - apply Nat.ltb_lt in Elen. split; [discriminate | intros [H _]; lia].
  - apply Nat.ltb_ge in Elen. rewrite existsb_exists. split.
    + intros (i & Hi & H). apply in_seq in Hi.
      destruct (rowAt rawData i) as [header |] eqn:Eh; [| discriminate].
      apply rowAt_some in Eh. apply andb_true_iff in H. destruct H as [Hh Hex].
      apply existsb_exists in Hex. destruct Hex as (j & Hj & Hb).
      apply in_seq in Hj. apply bannerThenBlank_spec in Hb.
      destruct Hb as [Hbanner Hnext].
      split; [exact Elen|]. exists i, j.
      split; [lia|]. split; [lia|].
      split; [now exists header|]. split; assumption.
    + intros (_ & i & j & Hi & Hj & (header & Hh & Hrow) & Hbanner & Hnext).
      exists i. split; [apply in_seq; lia|].
      apply rowAt_some in Hh. rewrite Hh, Hrow. cbn [andb].
      apply existsb_exists. exists j. split.
      * apply in_seq. destruct Hbanner as (banner & s & Hb & _).
        assert (j < List.length rawData)%nat by (apply nth_error_Some; congruence).
        lia.
      * apply bannerThenBlank_spec. split; assumption.
Qed.

End Detection.

(** X17. [detectHierarchicalGLFormat] answers [true] exactly when the grid
    has at least ten rows and, for some header row among the first ten and
    some row at most nine rows below it, that row starts with a non-empty
    string without "total" and the row after it starts with a blank cell. *)
Theorem detectHierarchicalGLFormat_spec
    (numberToString : Q -> string) (rawData : list (option (list cell))) :
  detectHierarchicalGLFormat numberToString rawData = true
  <-> (10 <= List.length rawData)%nat
      /\ exists i j, hierarchicalPattern numberToString rawData i j.
Proof. apply detect_spec. Qed.

(** X18. Loading a sheet never writes the header warning: whenever
    detection sends the grid to [parseHierarchicalGL], the parser finds a
    header row.  A grid of fewer than ten rows is always read as flat
    records. *)
Theorem loadSheet_no_warning
    (numberToString serialDateToLocaleString : Q -> string)
    (w : World.t) (rawData : list (option (list cell)))
    (jsonData : list (list (string * cell))) :
  warnings (loadSheet numberToString serialDateToLocaleString w rawData jsonData) = []
  /\ ((List.length rawData < 10)%nat ->
      returned (loadSheet numberToString serialDateToLocaleString w rawData jsonData)
      = fst (parseRawData numberToString w jsonData)).
Proof.
  unfold loadSheet. split.
  - destruct (detectHierarchicalGLFormat numberToString rawData) eqn:Ed.
    + apply detect_spec in Ed.
      destruct Ed as (_ & i & j & Hi & _ & (header & Hh & Hrow) & _).
      assert (Hfound : findHeader numberToString rawData <> None).
      { unfold findHeader. apply (findHeaderFrom_finds numberToString _ i 0 header).
        - rewrite nth_error_firstn.
          apply Nat.ltb_lt in Hi. now rewrite Hi.
        - exact Hrow. }
      destruct (findHeader numberToString rawData) as [[k headers] |] eqn:Ef;
        [| congruence].
      now apply (parseHierarchicalGL_header_found numberToString
                   serialDateToLocaleString w rawData k headers).
    + now destruct (parseRawData numberToString w jsonData).
  - intro Hlen. apply Nat.ltb_lt in Hlen.
    unfold detectHierarchicalGLFormat. rewrite Hlen.
    now destruct (parseRawData numberToString w jsonData).
Qed.

Lemma loadSheet_no_warning_witness :
  returned (loadSheet plainNumber plainNumber morningWorld shortLedger flatExport)
  = fst (parseRawData plainNumber morningWorld flatExport).
Proof.
  apply (proj2 (loadSheet_no_warning plainNumber plainNumber morningWorld
                  shortLedger flatExport)).
  vm_compute. lia.
Defined.

(** ** Keyword filter: case and composition *)

Lemma upperChar_white (c : ascii) : Str.isWhite (Str.upperChar c) = Str.isWhite c.
Proof.
  destruct c as [b0 b1 b2 b3 b4 b5 b6 b7].
  destruct b0, b1, b2, b3, b4, b5, b6, b7; reflexivity.
Qed.

Lemma upperChar_twice (c : ascii) : Str.upperChar (Str.upperChar c) = Str.upperChar c.
Proof.
  destruct c as [b0 b1 b2 b3 b4 b5 b6 b7].
  destruct b0, b1, b2, b3, b4, b5, b6, b7; reflexivity.
Qed.

Lemma lower_of_upper (c : ascii) : Str.lowerChar (Str.upperChar c) = Str.lowerChar c.
Proof.
  destruct c as [b0 b1 b2 b3 b4 b5 b6 b7].
  destruct b0, b1, b2, b3, b4, b5, b6, b7; reflexivity.
Qed.

Lemma mapChars_compose (f g h : ascii -> ascii) (s : string) :
  (forall c, f (g c) = h c) ->
  Str.mapChars f (Str.mapChars g s) = Str.mapChars h s.
Proof.
  intro H. induction s as [| c r IH]; simpl; [reflexivity|]. now rewrite H, IH.
Qed.

Lemma toUpperCase_twice (s : string) :
  Str.toUpperCase (Str.toUpperCase s) = Str.toUpperCase s.
Proof. apply mapChars_compose, upperChar_twice. Qed.

Lemma isEmpty_mapChars (f : ascii -> ascii) (s : string) :
  Str.isEmpty (Str.mapChars f s) = Str.isEmpty s.
Proof. now destruct s. Qed.

Lemma trimStart_upper (s : string) :
  Str.trimStart (Str.toUpperCase s) = Str.toUpperCase (Str.trimStart s).
Proof.
  induction s as [| c r IH]; [reflexivity|]. cbn [Str.toUpperCase Str.mapChars Str.trimStart].
  rewrite upperChar_white. destruct (Str.isWhite c); [exact IH | reflexivity].
Qed.

Lemma trimEnd_upper (s : string) :
  Str.trimEnd (Str.toUpperCase s) = Str.toUpperCase (Str.trimEnd s).
Proof.
  induction s as [| c r IH]; [reflexivity|].
  cbn [Str.toUpperCase Str.mapChars Str.trimEnd].
  fold (Str.toUpperCase r). rewrite IH, upperChar_white.
  destruct (Str.trimEnd r) as [| a r']; cbn [Str.toUpperCase Str.mapChars].
  - now destruct (Str.isWhite c).
  - reflexivity.
Qed.

Lemma trim_upper (s : string) :
  Str.trim (Str.toUpperCase s) = Str.toUpperCase (Str.trim s).
Proof. unfold Str.trim. now rewrite trimStart_upper, trimEnd_upper. Qed.

Lemma map_filter_swap {A B : Type} (f : A -> B) (p : B -> bool) (l : list A) :
  map f (filter (fun a => p (f a)) l) = filter p (map f l).
Proof.
  induction l as [| x r IH]; simpl; [reflexivity|].
  destruct (p (f x)); simpl; now rewrite IH.
Qed.

(** The filter written over the upper-cased keywords alone. *)
Lemma filterByKeywords_upper (transactions : list Transaction.t)
    (keywords : list string) :
  filterByKeywords transactions keywords
  = let upperKeywords :=
      filter (fun k => negb (Str.isEmpty k))
             (map Str.trim (map Str.toUpperCase keywords)) in
    if (List.length upperKeywords =? 0)%nat then transactions
    else filter
           (fun txn =>
              existsb (fun keyword =>
                         Str.includes
                           (Str.toUpperCase (Transaction.accountName txn)) keyword)
                      upperKeywords)
           transactions.
Proof.
  unfold filterByKeywords. cbv zeta.
  assert (E : map (fun k => Str.trim (Str.toUpperCase k))
                  (filter (fun k => negb (Str.isEmpty (Str.trim k))) keywords)
              = filter (fun k => negb (Str.isEmpty k))
                       (map Str.trim (map Str.toUpperCase keywords))).
  { rewrite map_map, <- map_filter_swap. f_equal. apply filter_ext. intro k.
    rewrite trim_upper. unfold Str.toUpperCase. now rewrite isEmpty_mapChars. }
  rewrite <- E, length_map.
  destruct (List.length _ =? 0)%nat; [reflexivity|].
  apply filter_ext. intro t. now rewrite strOr_empty.
Qed.

(** X19. Keywords are matched without regard to case: two keyword lists
    that agree once upper-cased select the same transactions. *)
Theorem filterByKeywords_case_insensitive
    (transactions : list Transaction.t) (keywords keywords' : list string) :
  map Str.toUpperCase keywords = map Str.toUpperCase keywords' ->
  filterByKeywords transactions keywords = filterByKeywords transactions keywords'.
Proof.
  intro H. rewrite !filterByKeywords_upper. now rewrite H.
Qed.

Lemma filterByKeywords_case_insensitive_witness :
  filterByKeywords parkLedger ["Park"; " admin"]
  = filterByKeywords parkLedger ["pARK"; " ADMIN"].
Proof.
  apply (filterByKeywords_case_insensitive parkLedger).
  reflexivity.
Defined.

(** X20. The keyword filter decides transaction by transaction: it
    distributes over concatenation, applying it twice changes nothing, and
    its result never has more transactions than its input. *)
Theorem filterByKeywords_composes
    (batch1 batch2 : list Transaction.t) (keywords : list string) :
  filterByKeywords (batch1 ++ batch2) keywords
  = filterByKeywords batch1 keywords ++ filterByKeywords batch2 keywords
  /\ filterByKeywords (filterByKeywords batch1 keywords) keywords
     = filterByKeywords batch1 keywords
  /\ (List.length (filterByKeywords batch1 keywords) <= List.length batch1)%nat.
Proof.
  split; [| split].
  - unfold filterByKeywords.
    destruct (List.length _ =? 0)%nat; [reflexivity | apply filter_app].
  - unfold filterByKeywords.
    destruct (List.length _ =? 0)%nat; [reflexivity|].
    apply filter_all. intros t Ht. now apply filter_In in Ht.
  - apply filterByKeywords_length.
Qed.

(** ** Materiality classifier: thresholds *)

(** X21. Raising the threshold never adds an account: classifying at a
    higher threshold gives the same as classifying the result of a lower
    one. *)
Theorem identifyMaterialAccounts_threshold
    (accountGroups : list AccountGroup.t) (low high : Q) :
  low <= high ->
  identifyMaterialAccounts (identifyMaterialAccounts accountGroups low) high
  = identifyMaterialAccounts accountGroups high.
Proof.
  intro Hle. unfold identifyMaterialAccounts.
  induction accountGroups as [| g r IH]; simpl; [reflexivity|].
  destruct (Num.gt (AccountGroup.totalBalance g) high) eqn:Eh.
  - assert (El : Num.gt (AccountGroup.totalBalance g) low = true).
    { apply gt_spec. apply gt_spec in Eh. now apply Qle_lt_trans with high. }
    rewrite El. simpl. rewrite Eh. now rewrite IH.
  - destruct (Num.gt (AccountGroup.totalBalance g) low); simpl;
      [rewrite Eh |]; exact IH.
Qed.

Lemma identifyMaterialAccounts_threshold_witness :
  identifyMaterialAccounts
    (identifyMaterialAccounts (groupByAccount parkLedger) (inject_Z 10000))
    (inject_Z 15000)
  = identifyMaterialAccounts (groupByAccount parkLedger) (inject_Z 15000).
Proof.
  apply (identifyMaterialAccounts_threshold (groupByAccount parkLedger)).
  discriminate.
Defined.

(** ** Configuration panel: keywords *)

Lemma withKeywords_same (config : SamplingConfig.t) :
  withKeywords config (SamplingConfig.targetKeywords config) = config.
Proof. now destruct config. Qed.

Lemma arrayIncludes_spec (arr : list string) (x : string) :
  arrayIncludes arr x = true <-> In x arr.
Proof.
  unfold arrayIncludes. rewrite existsb_exists. split.
  - intros (y & Hy & E). apply String.eqb_eq in E. now subst.
  - intro H. exists x. split; [exact H | apply String.eqb_refl].
Qed.

(** X22. Adding a keyword appends its trimmed, upper-cased form, which is
    not empty and was not in the list, so a duplicate-free list stays
    duplicate-free; removing that keyword again gives back the configuration
    as it was.  The addition is refused exactly for a blank keyword or one
    already listed. *)
Theorem handleAddKeyword_spec (config : SamplingConfig.t) (newKeyword : string) :
  (forall config',
     handleAddKeyword config newKeyword = Some config' ->
     SamplingConfig.targetKeywords config'
     = SamplingConfig.targetKeywords config
       ++ [Str.toUpperCase (Str.trim newKeyword)]
     /\ Str.toUpperCase (Str.trim newKeyword) <> ""
     /\ ~ In (Str.toUpperCase (Str.trim newKeyword))
             (SamplingConfig.targetKeywords config)
     /\ (NoDup (SamplingConfig.targetKeywords config) ->
         NoDup (SamplingConfig.targetKeywords config'))
     /\ handleRemoveKeyword config' (Str.toUpperCase (Str.trim newKeyword)) = config)
  /\ (handleAddKeyword config newKeyword = None
      <-> Str.trim newKeyword = ""
          \/ In (Str.toUpperCase (Str.trim newKeyword))
                (SamplingConfig.targetKeywords config)).
Proof.
  unfold handleAddKeyword.
  set (K := Str.toUpperCase (Str.trim newKeyword)).
  destruct (Str.isEmpty (Str.trim newKeyword)) eqn:Eblank; cbn [negb andb].
  - split; [intros c H; discriminate H|].
    split; [intros _; left; now apply isEmpty_spec | reflexivity].
  - apply isEmpty_false in Eblank.
    destruct (arrayIncludes (SamplingConfig.targetKeywords config) K) eqn:Einc;
      cbn [negb].
    + split; [intros c H; discriminate H|].
      split; [intros _; right; now apply arrayIncludes_spec | reflexivity].
    + assert (Hnin : ~ In K (SamplingConfig.targetKeywords config)).
      { intro Hin. apply arrayIncludes_spec in Hin. congruence. }
      split.
      * intros config' H. inversion H; subst config'. clear H.
        destruct config as [tm scope kws size].
        unfold withKeywords.
        cbn [SamplingConfig.targetKeywords
             SamplingConfig.tolerableMisstatement SamplingConfig.testingScope
             SamplingConfig.sampleSize] in *.
        split; [reflexivity|]. split.
        { unfold K, Str.toUpperCase. intro He.
          apply isEmpty_spec in He. rewrite isEmpty_mapChars in He.
          apply isEmpty_spec in He. contradiction. }
        split; [exact Hnin|]. split.
        { intro Hnd. apply NoDup_app; [exact Hnd | repeat constructor; intros [] |].
          intros a Ha [<- | []]. contradiction. }
        unfold handleRemoveKeyword, withKeywords.
        cbn [SamplingConfig.targetKeywords
             SamplingConfig.tolerableMisstatement SamplingConfig.testingScope
             SamplingConfig.sampleSize].
        f_equal. rewrite filter_app. cbn [filter]. rewrite String.eqb_refl.
        cbn [negb]. rewrite app_nil_r. apply filter_all.
        intros k Hk. apply negb_true_iff, String.eqb_neq. intros ->. contradiction.
      * split; [discriminate|]. intros [H | H]; contradiction.
Qed.

Lemma handleAddKeyword_spec_witness :
  handleAddKeyword parkConfig " park " = None
  /\ handleRemoveKeyword
       (SamplingConfig.mk (inject_Z 15000) (inject_Z 11000) ["PARK"; "POOL"] 2)
       "POOL"
     = parkConfig.
Proof.
  destruct (handleAddKeyword_spec parkConfig " park ") as [_ Hrefuse].
  destruct (handleAddKeyword_spec parkConfig " Pool") as [Hadd _].
  split.
  - apply Hrefuse. right. left. reflexivity.
  - apply (Hadd (SamplingConfig.mk (inject_Z 15000) (inject_Z 11000)
                   ["PARK"; "POOL"] 2)).
    reflexivity.
Defined.

(** ** Results grid *)

Lemma firstn_add {A : Type} (a b : nat) (l : list A) :
  firstn (a + b) l = firstn a l ++ firstn b (skipn a l).
Proof.
  revert l. induction a as [| a IH]; intro l; [reflexivity|].
  destruct l as [| x r]; cbn [Nat.add firstn skipn app].
  - now rewrite firstn_nil.
  - now rewrite IH.
Qed.

Lemma pages_concat {A : Type} (rows : list A) (rowsPerPage pages : nat) :
  List.concat (map (fun page => paginatedSamples rows page rowsPerPage) (seq 0 pages))
  = firstn (pages * rowsPerPage) rows.
Proof.
  induction pages as [| k IH]; [reflexivity|].
  rewrite seq_S, map_app, concat_app, IH. cbn [map List.concat Nat.add].
  rewrite app_nil_r. unfold paginatedSamples.
  replace (S k * rowsPerPage)%nat with (k * rowsPerPage + rowsPerPage)%nat by lia.
  now rewrite firstn_add.
Qed.

(** X23. Paging loses and repeats nothing: the pages [0 .. pages - 1], once
    they reach the end of the table, put one after the other are the table;
    a page has at most [rowsPerPage] rows, and a page that starts at or past
    the end is empty. *)
Theorem paginatedSamples_cover {A : Type} (rows : list A)
    (rowsPerPage pages : nat) :
  (List.length rows <= pages * rowsPerPage)%nat ->
  List.concat (map (fun page => paginatedSamples rows page rowsPerPage) (seq 0 pages))
  = rows
  /\ (forall page,
        (List.length (paginatedSamples rows page rowsPerPage) <= rowsPerPage)%nat
        /\ ((List.length rows <= page * rowsPerPage)%nat ->
            paginatedSamples rows page rowsPerPage = [])).
Proof.
  intro Hlen. split.
  - rewrite pages_concat. now apply firstn_all2.
  - intro page. unfold paginatedSamples. split.
    + rewrite length_firstn. lia.
    + intro Hend. rewrite skipn_all2 by exact Hend. apply firstn_nil.
Qed.

Lemma paginatedSamples_cover_witness :
  List.concat (map (fun page => paginatedSamples parkLedger page 2) (seq 0 3))
  = parkLedger.
Proof.
  apply (paginatedSamples_cover parkLedger 2 3).
  simpl. lia.
Defined.

Lemma isEmpty_toUpperCase (s : string) :
  Str.isEmpty (Str.toUpperCase s) = Str.isEmpty s.
Proof. apply isEmpty_mapChars. Qed.

Lemma toLowerCase_of_upper (s : string) :
  Str.toLowerCase (Str.toUpperCase s) = Str.toLowerCase s.
Proof. apply mapChars_compose, lower_of_upper. Qed.

(** X24. The grid's search returns all samples for an empty query, only
    returns samples of its input, is idempotent, and, for a query written
    in ASCII, does not depend on the case of the query.  (Outside ASCII
    upper-casing may change what lower-casing gives, as for the sharp s.) *)
Theorem searchSamples_spec (searchQuery : string)
    (samples : list SelectedSample.t) :
  searchSamples "" samples = samples
  /\ (isAsciiText searchQuery ->
      searchSamples (Str.toUpperCase searchQuery) samples
      = searchSamples searchQuery samples)
  /\ (forall s, In s (searchSamples searchQuery samples) -> In s samples)
  /\ searchSamples searchQuery (searchSamples searchQuery samples)
     = searchSamples searchQuery samples.
Proof.
  split; [reflexivity|]. split; [| split].
  - intros _. unfold searchSamples.
    now rewrite isEmpty_toUpperCase, toLowerCase_of_upper.
  - unfold searchSamples. destruct (Str.isEmpty searchQuery); [trivial|].
    intros s Hs. now apply filter_In in Hs.
  - unfold searchSamples. destruct (Str.isEmpty searchQuery); [reflexivity|].
    apply filter_all. intros s Hs. now apply filter_In in Hs.
Qed.

Example searchSamples_park :
  isAsciiText "park"
  /\ searchSamples "PARK" poolSamples = searchSamples "park" poolSamples
  /\ searchSamples "park" poolSamples = poolSamples
  /\ searchSamples "harbour" poolSamples = [].
Proof.
  split.
  - repeat constructor.
  - repeat split.
Qed.

(** ** From a loaded sheet to the sampling run *)

Lemma Forall2_right {A B : Type} (P : B -> Prop) (R : A -> B -> Prop)
    (l : list A) (l' : list B) :
  (forall a b, R a b -> P b) -> Forall2 R l l' -> Forall P l'.
Proof.
  intros H. induction 1 as [| a b l l' Hab _ IH]; constructor.
  - exact (H a b Hab).
  - exact IH.
Qed.

Lemma parseRawData_ids (numberToString : Q -> string) (w : World.t)
    (data : list (list (string * cell))) :
  Forall (fun t => Transaction.id t <> "")
         (fst (parseRawData numberToString w data)).
Proof.
  destruct data as [| sampleRow rest]; [constructor|].
  rewrite parseRawData_cons.
  destruct (parseRows_shape numberToString (columnMapping sampleRow)
              (sampleRow :: rest) w 0) as (_ & _ & H).
  eapply Forall2_right; [| exact H]. intros row t [_ Hid]. exact Hid.
Qed.

Lemma parseHierarchicalGL_ids
    (numberToString serialDateToLocaleString : Q -> string)
    (w : World.t) (rawData : list (option (list cell))) :
  Forall (fun t => Transaction.id t <> "")
         (returned (parseHierarchicalGL numberToString serialDateToLocaleString
                      w rawData)).
Proof.
  unfold parseHierarchicalGL.
  destruct (findHeader numberToString rawData) as [[k headers] |].
  - destruct (dataLoop_outcome numberToString serialDateToLocaleString
                (resolveColumns headers) (skipn (k + 1) rawData) (k + 1)
                (mkLoop "" [] w) eq_refl)
      as (added & idxs & H1 & _ & _ & _ & H5 & _).
    cbn [returned transactions app] in *. rewrite H1.
    eapply Forall_impl; [| exact H5]. intros t (_ & _ & Hid). exact Hid.
  - apply Forall_nil.
Qed.

(** X25. Transactions that come out of [loadSheet], by either parser, all
    carry an id; a sampling run on them therefore generates no id, and its
    result is the same whatever the clock and the random source. *)
Theorem loadSheet_then_performSampling
    (numberToString serialDateToLocaleString : Q -> string)
    (w : World.t) (rawData : list (option (list cell)))
    (jsonData : list (list (string * cell)))
    (w1 w2 : World.t) (config : SamplingConfig.t) :
  let loaded :=
    returned (loadSheet numberToString serialDateToLocaleString w rawData jsonData) in
  Forall (fun t => Transaction.id t <> "") loaded
  /\ snd (performSampling w1 loaded config) = w1
  /\ fst (performSampling w1 loaded config) = fst (performSampling w2 loaded config).
Proof.
  intro loaded.
  assert (Hids : Forall (fun t => Transaction.id t <> "") loaded).
  { subst loaded. unfold loadSheet.
    destruct (detectHierarchicalGLFormat numberToString rawData).
    - apply parseHierarchicalGL_ids.
    - pose proof (parseRawData_ids numberToString w jsonData) as H.
      now destruct (parseRawData numberToString w jsonData). }
  split; [exact Hids|].
  rewrite Forall_forall in Hids. unfold performSampling.
  rewrite !backfillIds_present by exact Hids. split; reflexivity.
Qed.
